(** * cfr_decompiler.py: the three packaging pipelines over a modelled file system

    The script orchestrates an archive unpacker, an external decompiler and a
    class-file cleaner.  Everything it does is an effect on the file system,
    the console or the process exit status, so the embedding is a state and
    exception monad over a [world] holding a file tree, a clock, the console
    output and the pending console input.  The functions of the script are
    transcribed one by one on top of a small model of the Python library
    calls they make. *)

From Stdlib Require Import ZArith Ascii String.
From stdpp Require Import base strings gmap list fin_maps pretty relations.

Set Default Proof Using "Type*".

(** ** Strings and paths *)

(** A path is the list of its components, as [pathlib.PurePath.parts];
    the empty list is the directory the process runs in. *)
Abbreviation path := (list string).

Definition nl : string := String (ascii_of_nat 10) EmptyString.

(** [PurePath.name]: the final component, empty for the empty path. *)
Definition name (p : path) : string := List.last p "".

(** [PurePath.parent]. *)
Definition parent (p : path) : path := removelast p.

(** [str(path)]. *)
Definition str (p : path) : string :=
  match p with [] => "." | _ => String.concat "/" p end.

(** Splitting a string at every occurrence of a character. *)
Fixpoint split_on (sep : ascii) (s : string) : list string :=
  match s with
  | EmptyString => [EmptyString]
  | String c s' =>
      if Ascii.eqb c sep then EmptyString :: split_on sep s'
      else match split_on sep s' with
           | [] => [String c EmptyString]
           | piece :: pieces => String c piece :: pieces
           end
  end.

(** [Path(s)]: empty components and "." are dropped, as pathlib does
    when it parses.  Every path is read from the directory the process
    runs in, which is the root of the modelled tree; ".." is an
    ordinary name, as it is for pathlib. *)
Definition Path (s : string) : path :=
  List.filter (fun c => negb (String.eqb c "" || String.eqb c ".")) (split_on "/" s).

(** Characters removed by [str.strip()]. *)
Definition is_space (c : ascii) : bool :=
  let n := nat_of_ascii c in
  (((9 <=? n) && (n <=? 13)) || ((28 <=? n) && (n <=? 32)))%nat.

Fixpoint lstrip (s : string) : string :=
  match s with
  | String c s' => if is_space c then lstrip s' else s
  | EmptyString => EmptyString
  end.

Fixpoint rstrip (s : string) : string :=
  match s with
  | EmptyString => EmptyString
  | String c s' =>
      match rstrip s' with
      | EmptyString => if is_space c then EmptyString else String c EmptyString
      | t => String c t
      end
  end.

Definition strip (s : string) : string := rstrip (lstrip s).

(** Cutting a name at its last dot. *)
Fixpoint rsplit_dot (s : string) : option (string * string) :=
  match s with
  | EmptyString => None
  | String c s' =>
      match rsplit_dot s' with
      | Some (a, b) => Some (String c a, b)
      | None => if Ascii.eqb c "." then Some (EmptyString, s') else None
      end
  end.

(** [PurePath.stem]: the name without its last suffix; a leading or a
    trailing dot does not start a suffix. *)
Definition stem (p : path) : string :=
  match rsplit_dot (name p) with
  | Some (a, b) =>
      if String.eqb a "" || String.eqb b "" then name p else a
  | None => name p
  end.

(** [fnmatch] for the patterns the script uses: literal characters and
    the wildcard [*]. *)
Fixpoint fnmatch (pattern : string) : string -> bool :=
  match pattern with
  | EmptyString =>
      fun s => match s with EmptyString => true | _ => false end
  | String c pattern' =>
      if Ascii.eqb c "*" then
        fix star (s : string) : bool :=
          fnmatch pattern' s
          || match s with
             | EmptyString => false
             | String _ s' => star s'
             end
      else
        fun s => match s with
                 | String d s' => Ascii.eqb c d && fnmatch pattern' s'
                 | EmptyString => false
                 end
  end.

(** The compiled-class naming pattern. *)
Definition is_class_name (s : string) : bool := fnmatch "*.class" s.

(** ** The file system

    A regular file carries its content, the read-only attribute that
    [os.chmod(path, stat.S_IWRITE)] clears, a flag telling that the
    operating system denies its removal whatever its attributes are (the
    file is held open by another process, or its directory refuses
    changes), and its modification time.  An archive is kept in parsed form:
    the list of its members, each with its name inside the archive, its
    data and whether its record can be read back. *)

Inductive content : Type :=
| Bytes (b : string)
| Zip (members : list member)
with member : Type :=
| Member (m_name : path) (m_data : content) (m_intact : bool).

Definition m_name (m : member) : path := let 'Member n _ _ := m in n.
Definition m_data (m : member) : content := let 'Member _ d _ := m in d.
Definition m_intact (m : member) : bool := let 'Member _ _ i := m in i.

Record file : Type := RegularFile {
  f_content : content;
  f_readonly : bool;
  f_locked : bool;
  f_mtime : nat
}.

Inductive node : Type :=
| File (f : file)
| Dir.

(** The tree maps every existing path to its node. *)
Abbreviation tree := (gmap path node).

Definition is_file (t : tree) (p : path) : bool :=
  match t !! p with Some (File _) => true | _ => false end.

Definition is_dir (t : tree) (p : path) : bool :=
  match t !! p with Some Dir => true | _ => false end.

Definition exists_ (t : tree) (p : path) : bool :=
  match t !! p with Some _ => true | None => false end.

Definition keys (t : tree) : list path := (map_to_list t).*1.

(** [p] lies strictly below the directory [d]. *)
Definition below (d p : path) : Prop := d `prefix_of` p ∧ p ≠ d.

Global Instance below_dec d p : Decision (below d p).
Proof. unfold below. apply _. Defined.

(** [PurePath.relative_to], on a path that lies under [base]. *)
Definition relative_to (p base : path) : path := drop (length base) p.

(** ** Exceptions *)

Inductive errno : Type := ENOENT | EEXIST | ENOTDIR | EISDIR | EACCES.

Inductive exn : Type :=
| OSError (code : errno) (message : string)
| BadZipFile (message : string)
| ValueError (message : string)
| CalledProcessError (returncode : Z) (cmd : list string) (stderr : string)
| EOFError
| KeyboardInterrupt
| SystemExit (status : Z).

Definition strerror (code : errno) : string :=
  match code with
  | ENOENT => "[Errno 2] No such file or directory"
  | EEXIST => "[Errno 17] File exists"
  | ENOTDIR => "[Errno 20] Not a directory"
  | EISDIR => "[Errno 21] Is a directory"
  | EACCES => "[Errno 13] Permission denied"
  end.

Definition os_error (code : errno) (p : path) : exn :=
  OSError code (strerror code +:+ ": '" +:+ str p +:+ "'").

(** [str(e)]. *)
Definition str_exn (e : exn) : string :=
  match e with
  | OSError _ message => message
  | BadZipFile message => message
  | ValueError message => message
  | CalledProcessError rc cmd _ =>
      "Command '[" +:+ String.concat ", " cmd
        +:+ "]' returned non-zero exit status " +:+ pretty rc +:+ "."
  | EOFError => "EOF when reading a line"
  | KeyboardInterrupt => ""
  | SystemExit status => pretty status
  end.

(** [except Exception]: every exception but the two that derive from
    [BaseException] only. *)
Definition is_Exception (e : exn) : bool :=
  match e with
  | KeyboardInterrupt | SystemExit _ => false
  | _ => true
  end.

Definition is_CalledProcessError (e : exn) : bool :=
  match e with CalledProcessError _ _ _ => true | _ => false end.

Definition is_KeyboardInterrupt (e : exn) : bool :=
  match e with KeyboardInterrupt => true | _ => false end.

(** ** Tree operations *)

Definition new_file (c : content) (now : nat) : file :=
  {| f_content := c; f_readonly := false; f_locked := false; f_mtime := now |}.

(** [os.mkdir]. *)
Definition tree_mkdir (p : path) (t : tree) : exn + tree :=
  match t !! p with
  | Some _ => inl (os_error EEXIST p)
  | None =>
      match t !! parent p with
      | Some Dir => inr (<[p := Dir]> t)
      | Some (File _) => inl (os_error ENOTDIR p)
      | None => inl (os_error ENOENT p)
      end
  end.

(** [Path.mkdir(parents=True, exist_ok=True)] on [base ++ rest], the
    directory [base] being there: missing directories are created from
    the top, existing ones are accepted, a regular file in the way is an
    error. *)
Fixpoint makedirs (base rest : path) (t : tree) : exn + tree :=
  match rest with
  | [] => inr t
  | c :: rest' =>
      let q := base ++ [c] in
      match t !! q with
      | Some Dir => makedirs q rest' t
      | Some (File _) =>
          inl (os_error (match rest' with [] => EEXIST | _ => ENOTDIR end) q)
      | None => makedirs q rest' (<[q := Dir]> t)
      end
  end.

(** [open(p, "w")], one write of [c], and close. *)
Definition tree_write (now : nat) (p : path) (c : content) (t : tree) : exn + tree :=
  match t !! p with
  | Some Dir => inl (os_error EISDIR p)
  | Some (File f) =>
      if f_readonly f then inl (os_error EACCES p)
      else inr (<[p := File {| f_content := c; f_readonly := false;
                               f_locked := f_locked f; f_mtime := now |}]> t)
  | None =>
      match t !! parent p with
      | Some Dir => inr (<[p := File (new_file c now)]> t)
      | Some (File _) => inl (os_error ENOTDIR p)
      | None => inl (os_error ENOENT p)
      end
  end.

(** [os.chmod(p, stat.S_IWRITE)]: the read-only attribute is cleared. *)
Definition tree_chmod_writable (p : path) (t : tree) : exn + tree :=
  match t !! p with
  | Some (File f) =>
      inr (<[p := File {| f_content := f_content f; f_readonly := false;
                          f_locked := f_locked f; f_mtime := f_mtime f |}]> t)
  | Some Dir => inr t
  | None => inl (os_error ENOENT p)
  end.

(** [Path.unlink]: refused on a directory, on a read-only file and on a
    file whose removal the operating system denies. *)
Definition tree_unlink (p : path) (t : tree) : exn + tree :=
  match t !! p with
  | Some (File f) =>
      if f_readonly f || f_locked f then inl (os_error EACCES p)
      else inr (delete p t)
  | Some Dir => inl (os_error EISDIR p)
  | None => inl (os_error ENOENT p)
  end.

(** [shutil.copy2]: when the destination is a directory the file goes
    inside it under the source's name; content, attributes and times are
    those of the source. *)
Definition copy2_target (t : tree) (src dst : path) : path :=
  if is_dir t dst then dst ++ [name src] else dst.

Definition tree_copy2 (src dst : path) (t : tree) : exn + tree :=
  match t !! src with
  | Some (File f) =>
      let dst' := copy2_target t src dst in
      match t !! dst' with
      | Some Dir => inl (os_error EISDIR dst')
      | Some (File g) =>
          if f_readonly g then inl (os_error EACCES dst')
          else inr (<[dst' := File {| f_content := f_content f;
                                      f_readonly := f_readonly f;
                                      f_locked := f_locked g;
                                      f_mtime := f_mtime f |}]> t)
      | None =>
          match t !! parent dst' with
          | Some Dir =>
              inr (<[dst' := File {| f_content := f_content f;
                                     f_readonly := f_readonly f;
                                     f_locked := false;
                                     f_mtime := f_mtime f |}]> t)
          | Some (File _) => inl (os_error ENOTDIR dst')
          | None => inl (os_error ENOENT dst')
          end
      end
  | Some Dir => inl (os_error EISDIR src)
  | None => inl (os_error ENOENT src)
  end.

(** [shutil.rmtree], as the temporary directory's clean-up runs it:
    the directory and everything under it disappear. *)
Definition tree_rmtree (d : path) (t : tree) : tree :=
  filter (λ kv, ¬ d `prefix_of` kv.1) t.

(** Nothing exists at [d] or under it. *)
Definition vacant (t : tree) (d : path) : bool :=
  forallb (λ p, negb (bool_decide (d `prefix_of` p))) (keys t).

(** A file an external process leaves at [p]: directories above it are
    made as needed; where the file cannot be put the tree stays as it is. *)
Definition tree_put (now : nat) (p : path) (c : content) (t : tree) : tree :=
  match makedirs [] (parent p) t with
  | inr t1 =>
      match tree_write now p c t1 with
      | inr t2 => t2
      | inl _ => t
      end
  | inl _ => t
  end.

Definition emit (now : nat) (out : path) (files : list (path * string)) (t : tree) : tree :=
  foldl (λ acc f, tree_put now (out ++ f.1) (Bytes f.2) acc) t files.

(** ** The world and the monad of the script

    A computation takes the world and either returns a value or raises
    a Python exception; both come with the world as it then is. *)

Inductive key_event : Type :=
| Line (text : string)
| CtrlC.

Record world : Type := World {
  w_fs : tree;
  w_clock : nat;
  w_stdout : list string;
  w_stdin : list key_event
}.

Inductive outcome (A : Type) : Type :=
| Ok (a : A) (w : world)
| Raise (e : exn) (w : world).
Arguments Ok {A} a w.
Arguments Raise {A} e w.

Definition M (A : Type) : Type := world → outcome A.

Definition final {A} (o : outcome A) : world :=
  match o with Ok _ w => w | Raise _ w => w end.

Definition returns {A} (o : outcome A) : bool :=
  match o with Ok _ _ => true | Raise _ _ => false end.

Global Instance M_ret : MRet M := λ A a w, Ok a w.

Global Instance M_bind : MBind M := λ A B k m w,
  match m w with
  | Ok a w' => k a w'
  | Raise e w' => Raise e w'
  end.

Definition raise {A} (e : exn) : M A := λ w, Raise e w.

(** [try: body / except <class> as e: handler e]. *)
Definition try_except {A} (body : M A) (caught : exn → bool) (handler : exn → M A) : M A :=
  λ w, match body w with
       | Ok a w' => Ok a w'
       | Raise e w' => if caught e then handler e w' else Raise e w'
       end.

(** [for x in items: body x]. *)
Fixpoint for_each {A} (items : list A) (body : A → M unit) : M unit :=
  match items with
  | [] => mret tt
  | x :: rest => body x ;; for_each rest body
  end.

(** [if condition: body]. *)
Definition when (condition : bool) (body : M unit) : M unit :=
  if condition then body else mret tt.

Definition set_fs (t : tree) (w : world) : world :=
  {| w_fs := t; w_clock := w_clock w; w_stdout := w_stdout w; w_stdin := w_stdin w |}.

(** A file-system call: it fails without a trace or changes the tree,
    and the clock moves on. *)
Definition on_tree (op : nat → tree → exn + tree) : M unit :=
  λ w, match op (w_clock w) (w_fs w) with
       | inl e => Raise e w
       | inr t =>
           Ok tt {| w_fs := t; w_clock := S (w_clock w);
                    w_stdout := w_stdout w; w_stdin := w_stdin w |}
       end.

Definition print (s : string) : M unit :=
  λ w, Ok tt {| w_fs := w_fs w; w_clock := w_clock w;
                w_stdout := w_stdout w ++ [s]; w_stdin := w_stdin w |}.

(** [input(prompt)]: the prompt is shown, then a line is read; the user
    may press Ctrl-C instead, and the input may be at its end. *)
Definition input (prompt : string) : M string :=
  λ w, let out := w_stdout w ++ [prompt] in
       match w_stdin w with
       | Line text :: rest =>
           Ok text {| w_fs := w_fs w; w_clock := w_clock w;
                      w_stdout := out; w_stdin := rest |}
       | CtrlC :: rest =>
           Raise KeyboardInterrupt
                 {| w_fs := w_fs w; w_clock := w_clock w;
                    w_stdout := out; w_stdin := rest |}
       | [] =>
           Raise EOFError
                 {| w_fs := w_fs w; w_clock := w_clock w;
                    w_stdout := out; w_stdin := [] |}
       end.

Definition sys_exit {A} (status : Z) : M A := raise (SystemExit status).

Definition Path_exists (p : path) : M bool := λ w, Ok (exists_ (w_fs w) p) w.
Definition Path_is_file (p : path) : M bool := λ w, Ok (is_file (w_fs w) p) w.
Definition os_path_isfile (s : string) : M bool := Path_is_file (Path s).

Definition Path_mkdir (p : path) : M unit := on_tree (λ _, makedirs [] p).
Definition os_chmod_S_IWRITE (p : path) : M unit := on_tree (λ _, tree_chmod_writable p).
Definition Path_unlink (p : path) : M unit := on_tree (λ _, tree_unlink p).
Definition open_write (p : path) (c : content) : M unit := on_tree (λ now, tree_write now p c).
Definition shutil_copy2 (src dst : path) : M unit := on_tree (λ _, tree_copy2 src dst).

(** [Path.rglob(pattern)]: every path strictly below the directory whose
    name matches, files and directories alike.  The listing is taken at
    once: while the script goes through it, it only removes listed files
    or writes outside the directory. *)
Definition Path_rglob (directory : path) (pattern : string) : M (list path) :=
  λ w, Ok (List.filter (λ p, bool_decide (below directory p) && fnmatch pattern (name p))
                       (keys (w_fs w))) w.

(** The files [os.walk(top)] hands out, each joined to its directory:
    the script's [Path(root) / file]. *)
Definition os_walk_files (top : path) : M (list path) :=
  λ w, Ok (List.filter (λ p, bool_decide (below top p) && is_file (w_fs w) p)
                       (keys (w_fs w))) w.

(** *** zipfile *)

(** [zipfile.ZipFile(p, 'r')]: the members of the archive. *)
Definition ZipFile_read (p : path) : M (list member) :=
  λ w, match w_fs w !! p with
       | Some (File f) =>
           match f_content f with
           | Zip members => Ok members w
           | Bytes _ => Raise (BadZipFile "File is not a zip file") w
           end
       | Some Dir => Raise (os_error EISDIR p) w
       | None => Raise (os_error ENOENT p) w
       end.

(** One member of [extractall]: the directories above the target are
    made if the parent is missing, then the target is written. *)
Definition extract_member (dest : path) (m : member) : M unit :=
  if m_intact m then
    let target := dest ++ m_name m in
    there ← Path_exists (parent target);
    when (negb there) (Path_mkdir (parent target)) ;;
    open_write target (m_data m)
  else raise (BadZipFile "Bad magic number for file header").

Definition extractall (members : list member) (dest : path) : M unit :=
  for_each members (extract_member dest).

(** [zipfile.ZipFile(p, 'w', ...)]: the file is created or emptied. *)
Definition ZipFile_create (p : path) : M unit := open_write p (Zip []).

(** [zipf.write(filename, arcname)] on the archive being built at [zip]. *)
Definition tree_zip_append (zip filename arcname : path) (now : nat) (t : tree) : exn + tree :=
  match t !! filename with
  | Some (File f) =>
      match t !! zip with
      | Some (File z) =>
          match f_content z with
          | Zip members =>
              inr (<[zip := File {| f_content := Zip (members ++ [Member arcname (f_content f) true]);
                                    f_readonly := f_readonly z;
                                    f_locked := f_locked z;
                                    f_mtime := now |}]> t)
          | Bytes _ => inl (ValueError "Attempt to use ZIP archive that was already closed")
          end
      | _ => inl (ValueError "Attempt to use ZIP archive that was already closed")
      end
  | Some Dir => inl (os_error EISDIR filename)
  | None => inl (os_error ENOENT filename)
  end.

Definition zipf_write (zip filename arcname : path) : M unit :=
  on_tree (tree_zip_append zip filename arcname).

(** *** subprocess

    The decompiler is an external program.  What the script can see of a
    run is whether the program could be started at all, and if so its
    exit status, what it printed on standard error and the files it left
    under its output directory. *)

Record CompletedProcess : Type := {
  returncode : Z;
  stderr_bytes : string;
  emitted : list (path * string)
}.

Inductive launch : Type :=
| Exited (cp : CompletedProcess)
| NotStarted
| Interrupted.

Record CFRDecompiler : Type := { cfr_jar_path : path }.

Definition cfr_path : string := "cfr-0.152.jar".

Definition build_gradle_content : string :=
  "plugins {" +:+ nl +:+ "    id 'java'" +:+ nl +:+ "}" +:+ nl
  +:+ "group = 'com.decompiled'" +:+ nl
  +:+ "version = '1.0-SNAPSHOT'" +:+ nl
  +:+ "repositories {" +:+ nl +:+ "    mavenCentral()" +:+ nl +:+ "}" +:+ nl.

(** [try: body / except K1: h1 / except K2 as e: h2]: the first clause
    that matches handles the exception; what a handler raises is not
    handled by its sibling. *)
Definition try_except2 {A} (body : M A)
    (caught1 : exn → bool) (handler1 : exn → M A)
    (caught2 : exn → bool) (handler2 : exn → M A) : M A :=
  λ w, match body w with
       | Ok a w' => Ok a w'
       | Raise e w' =>
           if caught1 e then handler1 e w'
           else if caught2 e then handler2 e w'
           else Raise e w'
       end.

(** The status the interpreter exits with. *)
Definition exit_status {A} (o : outcome A) : Z :=
  match o with
  | Ok _ _ => 0
  | Raise (SystemExit status) _ => status
  | Raise _ _ => 1
  end.

Section Script.

(** The surroundings of a run: how the [java] command behaves on a
    given command line and file tree, the name [tempfile] picks for the
    temporary directory, and the UTF-8 decoder that drops what it
    cannot decode. *)
Variable java : list string → tree → launch.
Variable tmp_name : string.
Variable decode_utf8_ignore : string → string.

(** [subprocess.run(command, check=True, stdout=PIPE, stderr=PIPE)];
    [outputdir] is where the files the program emits are put. *)
Definition subprocess_run_check (command : list string) (outputdir : path) : M unit :=
  λ w, match java command (w_fs w) with
       | NotStarted =>
           Raise (OSError ENOENT (strerror ENOENT +:+ ": '" +:+ hd "" command +:+ "'")) w
       | Interrupted => Raise KeyboardInterrupt w
       | Exited cp =>
           let w' := {| w_fs := emit (w_clock w) outputdir (emitted cp) (w_fs w);
                        w_clock := S (w_clock w);
                        w_stdout := w_stdout w; w_stdin := w_stdin w |} in
           if (returncode cp =? 0)%Z then Ok tt w'
           else Raise (CalledProcessError (returncode cp) command (stderr_bytes cp)) w'
       end.

(** [tempfile.TemporaryDirectory()] as a context manager: a new, empty
    directory in the system's temporary directory, removed with all
    it holds when the block is left, by return or by exception. *)
Definition tmp_dir : path := ["tmp"; tmp_name].

Definition mkdtemp : M path :=
  λ w, if vacant (w_fs w) tmp_dir
       then (on_tree (λ _, tree_mkdir tmp_dir) ;; mret tmp_dir) w
       else Raise (os_error EEXIST tmp_dir) w.

Definition cleanup (d : path) (w : world) : world :=
  set_fs (tree_rmtree d (w_fs w)) w.

Definition with_TemporaryDirectory {A} (body : path → M A) : M A :=
  λ w, match mkdtemp w with
       | Raise e w1 => Raise e w1
       | Ok d w1 =>
           match body d w1 with
           | Ok a w2 => Ok a (cleanup d w2)
           | Raise e w2 => Raise e (cleanup d w2)
           end
       end.

(** *** class CFRDecompiler

  The methods are given paths; the conversions [Path(jar_path)],
  [Path(output_folder)] and [Path(project_dir)] at their entry are the
  identity on a path. *)

Definition CFRDecompiler_init (cfr_jar : string) : M CFRDecompiler :=
  let self := {| cfr_jar_path := Path cfr_jar |} in
  there ← Path_exists (cfr_jar_path self);
  when (negb there)
    (raise (OSError ENOENT ("CFR jar not found at: " +:+ str (cfr_jar_path self)))) ;;
  mret self.

Definition _run_cfr (self : CFRDecompiler) (jar_path output_dir : path) : M unit :=
  print ("[*] Running CFR for " +:+ name jar_path +:+ "...") ;;
  let command := ["java"; "-jar"; str (cfr_jar_path self);
                  str jar_path;
                  "--outputdir"; str output_dir;
                  "--silent"; "true"] in
  try_except (subprocess_run_check command output_dir)
    is_CalledProcessError
    (λ e, match e with
          | CalledProcessError _ _ stderr =>
              print ("[!] Decompilation error: " +:+ decode_utf8_ignore stderr) ;;
              raise e
          | _ => raise e
          end).

Definition _remove_class_files (self : CFRDecompiler) (directory : path) : M unit :=
  found ← Path_rglob directory "*.class";
  for_each found (λ path,
    try_except
      (os_chmod_S_IWRITE path ;;
       Path_unlink path)
      is_Exception
      (λ e, print ("[!] Could not remove file: " +:+ name path
                   +:+ ". Error: " +:+ str_exn e))).

Definition _extract_jar_contents (self : CFRDecompiler) (jar_path extract_dir : path) : M unit :=
  try_except
    (zip_ref ← ZipFile_read jar_path;
     extractall zip_ref extract_dir)
    is_Exception
    (λ e, print ("[!] Extraction warning: " +:+ str_exn e)).

Definition mode_1_inplace (self : CFRDecompiler) (jar_path : path) : M unit :=
  print ("[*] Mode 1: Updating " +:+ name jar_path +:+ "...") ;;
  with_TemporaryDirectory (λ tmp_path,
    _extract_jar_contents self jar_path tmp_path ;;
    _run_cfr self jar_path tmp_path ;;
    _remove_class_files self tmp_path ;;
    ZipFile_create jar_path ;;
    entries ← Path_rglob tmp_path "*";
    for_each entries (λ file_path,
      regular ← Path_is_file file_path;
      when regular
        (let arcname := relative_to file_path tmp_path in
         zipf_write jar_path file_path arcname))) ;;
  print ("[+] Done! " +:+ name jar_path +:+ " updated with sources.").

Definition mode_2_to_folder (self : CFRDecompiler) (jar_path output_folder : path) : M unit :=
  let output_dir := output_folder in
  Path_mkdir output_dir ;;
  print ("[*] Mode 2: Exporting to " +:+ name output_dir +:+ "...") ;;
  _extract_jar_contents self jar_path output_dir ;;
  _run_cfr self jar_path output_dir ;;
  _remove_class_files self output_dir ;;
  print ("[+] Done! Files saved to '" +:+ str output_dir +:+ "'.").

Definition mode_3_gradle_project (self : CFRDecompiler) (jar_path project_dir : path) : M unit :=
  let proj_dir := project_dir in
  let java_dir := proj_dir ++ ["src"; "main"; "java"] in
  let res_dir := proj_dir ++ ["src"; "main"; "resources"] in
  Path_mkdir java_dir ;;
  Path_mkdir res_dir ;;
  print ("[*] Mode 3: Creating Gradle project in " +:+ name proj_dir +:+ "...") ;;
  _run_cfr self jar_path java_dir ;;
  with_TemporaryDirectory (λ tmp_path,
    _extract_jar_contents self jar_path tmp_path ;;
    _remove_class_files self tmp_path ;;
    files ← os_walk_files tmp_path;
    for_each files (λ src_file,
      let rel_path := relative_to src_file tmp_path in
      let dst_file := res_dir ++ rel_path in
      Path_mkdir (parent dst_file) ;;
      shutil_copy2 src_file dst_file)) ;;
  open_write (proj_dir ++ ["build.gradle"]) (Bytes build_gradle_content) ;;
  print ("[+] Done! Project ready at '" +:+ str proj_dir +:+ "'.").

(** *** The interactive entry point *)

Definition interactive_mode : M unit :=
  print "=== JAR Decompiler Helper ===" ;;
  answer ← input "Target .jar path: ";
  let jar_path := strip answer in
  cfr_there ← os_path_isfile cfr_path;
  when (negb cfr_there)
    (print "[-] Error: CFR jar not found." ;;
     sys_exit 1) ;;
  jar_there ← os_path_isfile jar_path;
  when (negb jar_there)
    (print "[-] Error: Target jar not found." ;;
     sys_exit 1) ;;
  decompiler ← try_except (CFRDecompiler_init cfr_path)
                 is_Exception
                 (λ e, print ("[-] " +:+ str_exn e) ;;
                       sys_exit 1);
  print (nl +:+ "Available modes:") ;;
  print "1 - Inplace (replace .class with .java inside jar)" ;;
  print "2 - Unpack all (sources + resources to folder)" ;;
  print "3 - IDE Ready (create Gradle project structure)" ;;
  answer ← input (nl +:+ "Select mode (1/2/3): ");
  let mode := strip answer in
  if String.eqb mode "1" then
    mode_1_inplace decompiler (Path jar_path)
  else if String.eqb mode "2" then
    answer ← input "Output folder name: ";
    let out_folder :=
      if String.eqb (strip answer) "" then stem (Path jar_path) +:+ "_extracted"
      else strip answer in
    mode_2_to_folder decompiler (Path jar_path) (Path out_folder)
  else if String.eqb mode "3" then
    answer ← input "Project folder name: ";
    let out_folder :=
      if String.eqb (strip answer) "" then stem (Path jar_path) +:+ "_project"
      else strip answer in
    mode_3_gradle_project decompiler (Path jar_path) (Path out_folder)
  else
    print "[-] Unknown mode. Exiting.".

(** The [if __name__ == "__main__":] block. *)
Definition main : M unit :=
  try_except2 interactive_mode
    is_KeyboardInterrupt
    (λ _, print (nl +:+ "[*] Aborted by user.") ;;
          sys_exit 0)
    is_Exception
    (λ e, print (nl +:+ "[!] Unexpected error: " +:+ str_exn e) ;;
          sys_exit 1).

End Script.

Global Arguments tmp_dir : simpl never.

(** ** Vocabulary of the properties *)

(** A pattern without wildcard. *)
Fixpoint literal (pattern : string) : bool :=
  match pattern with
  | EmptyString => true
  | String c pattern' => negb (Ascii.eqb c "*") && literal pattern'
  end.

(** The line the cleaner prints when it could not remove a path. *)
Definition removal_warning (p : path) (e : exn) : string :=
  "[!] Could not remove file: " +:+ name p +:+ ". Error: " +:+ str_exn e.

Definition is_removal_warning (line : string) : bool :=
  String.prefix "[!] Could not remove file: " line.

(** What the cleaner leaves at a path it visits: a regular file is gone
    unless the operating system denies the removal, and then it has lost
    its read-only attribute; a directory stays. *)
Definition after_removal (n : option node) : option node :=
  match n with
  | Some (File f) =>
      if f_locked f
      then Some (File {| f_content := f_content f; f_readonly := false;
                         f_locked := f_locked f; f_mtime := f_mtime f |})
      else None
  | other => other
  end.

(** The lines the visit of a path adds to the console. *)
Definition removal_failure (p : path) (n : option node) : list string :=
  match n with
  | Some (File f) =>
      if f_locked f then [removal_warning p (os_error EACCES p)] else []
  | Some Dir => [removal_warning p (os_error EISDIR p)]
  | None => [removal_warning p (os_error ENOENT p)]
  end.

(** The paths the cleaner visits in a directory. *)
Definition class_paths (directory : path) (t : tree) : list path :=
  List.filter (λ p, bool_decide (below directory p) && fnmatch "*.class" (name p)) (keys t).

(** The command line [_run_cfr] builds. *)
Definition cfr_command (self : CFRDecompiler) (jar_path output_dir : path) : list string :=
  ["java"; "-jar"; str (cfr_jar_path self);
   str jar_path;
   "--outputdir"; str output_dir;
   "--silent"; "true"].

(** *** Stages of the pipelines

    The properties speak of the world at a point inside a pipeline: when
    the decompiler is called, when the cleaner is done.  Each stage below
    is the beginning of the body of a mode, up to that point, made of the
    same calls. *)

Section Stages.

Variable java : list string → tree → launch.
Variable tmp_name : string.
Variable decode_utf8_ignore : string → string.

(** Inplace, until the decompiler is called. *)
Definition inplace_unpacked (self : CFRDecompiler) (jar_path : path) : M unit :=
print ("[*] Mode 1: Updating " +:+ name jar_path +:+ "...") ;;
tmp_path ← mkdtemp tmp_name;
_extract_jar_contents self jar_path tmp_path.

(** Inplace, until the cleaner is done. *)
Definition inplace_pruned (self : CFRDecompiler) (jar_path : path) : M unit :=
inplace_unpacked self jar_path ;;
_run_cfr java decode_utf8_ignore self jar_path (tmp_dir tmp_name) ;;
_remove_class_files self (tmp_dir tmp_name).

(** Inplace, the repackaging step. *)
Definition inplace_repack (jar_path tmp_path : path) : M unit :=
ZipFile_create jar_path ;;
entries ← Path_rglob tmp_path "*";
for_each entries (λ file_path,
  regular ← Path_is_file file_path;
  when regular
    (let arcname := relative_to file_path tmp_path in
     zipf_write jar_path file_path arcname)).

(** Export, until the decompiler is called. *)
Definition export_unpacked (self : CFRDecompiler) (jar_path output_dir : path) : M unit :=
Path_mkdir output_dir ;;
print ("[*] Mode 2: Exporting to " +:+ name output_dir +:+ "...") ;;
_extract_jar_contents self jar_path output_dir.

(** Export, until the cleaner is done. *)
Definition export_pruned (self : CFRDecompiler) (jar_path output_dir : path) : M unit :=
export_unpacked self jar_path output_dir ;;
_run_cfr java decode_utf8_ignore self jar_path output_dir ;;
_remove_class_files self output_dir.

(** ProjectScaffold, until the decompiler is called. *)
Definition scaffold_prepared (proj_dir : path) : M unit :=
Path_mkdir (proj_dir ++ ["src"; "main"; "java"]) ;;
Path_mkdir (proj_dir ++ ["src"; "main"; "resources"]) ;;
print ("[*] Mode 3: Creating Gradle project in " +:+ name proj_dir +:+ "...").

(** ProjectScaffold, until the cleaner is done in the temporary tree. *)
Definition scaffold_pruned (self : CFRDecompiler) (jar_path proj_dir : path) : M unit :=
scaffold_prepared proj_dir ;;
_run_cfr java decode_utf8_ignore self jar_path (proj_dir ++ ["src"; "main"; "java"]) ;;
tmp_path ← mkdtemp tmp_name;
_extract_jar_contents self jar_path tmp_path ;;
_remove_class_files self tmp_path.

(** ProjectScaffold, the copy of the temporary tree into the resources. *)
Definition scaffold_copy (proj_dir tmp_path : path) : M unit :=
files ← os_walk_files tmp_path;
for_each files (λ src_file,
  let rel_path := relative_to src_file tmp_path in
  let dst_file := (proj_dir ++ ["src"; "main"; "resources"]) ++ rel_path in
  Path_mkdir (parent dst_file) ;;
  shutil_copy2 src_file dst_file).

End Stages.

(** The node at a path is still there, unchanged. *)
Definition keeps (p : path) : relation world :=
  λ w w', ∀ n, w_fs w !! p = Some n → w_fs w' !! p = Some n.

(** C3 as the specification words it: the invoker raises exactly when
    the decompiler process exits with a status other than zero. *)
Definition raises_iff_nonzero_exit
    (java : list string → tree → launch) (decode_utf8_ignore : string → string)
    (self : CFRDecompiler) (jar_path output_dir : path) (w : world) : Prop :=
  (∃ e w', _run_cfr java decode_utf8_ignore self jar_path output_dir w = Raise e w')
  ↔ (∃ cp, java (cfr_command self jar_path output_dir) (w_fs w) = Exited cp
           ∧ returncode cp ≠ 0%Z).

(** The line [_run_cfr] prints before it starts the decompiler. *)
Definition running_line (jar_path : path) : string :=
  "[*] Running CFR for " +:+ name jar_path +:+ "...".

(** The members [zipf.write] makes out of the paths of a listing: one
    for each regular file, named by its path relative to [base]. *)
Definition archived (base : path) (t : tree) (entries : list path) : list member :=
  flat_map (λ p, match t !! p with
                 | Some (File f) => [Member (relative_to p base) (f_content f) true]
                 | _ => []
                 end) entries.

(** No regular file strictly below [d] has a compiled-class name. *)
Definition no_class_file_below (d : path) (t : tree) : Prop :=
  ∀ p, below d p → is_file t p = true → is_class_name (name p) = false.

(** No member of the archive at [jar] has a compiled-class name. *)
Definition no_class_member (jar : path) (t : tree) : Prop :=
  ∀ z members m,
    t !! jar = Some (File z) → f_content z = Zip members → m ∈ members →
    is_class_name (name (m_name m)) = false.

(** Below [d] the tree is a tree: what exists has a directory as parent. *)
Definition sound_below (d : path) (t : tree) : Prop :=
  ∀ q, below d q → is_Some (t !! q) → t !! parent q = Some Dir.

(** Every compiled-class file of the later world was a regular file in the
    earlier one, or lies in the region [Z]. *)
Definition class_files_from (Z : path → Prop) : relation world :=
  λ w w', ∀ p, is_file (w_fs w') p = true → is_class_name (name p) = true →
               is_file (w_fs w) p = true ∨ Z p.

(** C1 as the specification words it, mode by mode: after a run that
    ends normally the output location holds no compiled-class file. *)
Definition inplace_output_free_of_classes
    (java : list string → tree → launch) (tmp_name : string)
    (decode_utf8_ignore : string → string)
    (self : CFRDecompiler) (jar_path : path) (w : world) : Prop :=
  ∀ w', mode_1_inplace java tmp_name decode_utf8_ignore self jar_path w = Ok tt w' →
        no_class_member jar_path (w_fs w').

Definition export_output_free_of_classes
    (java : list string → tree → launch) (decode_utf8_ignore : string → string)
    (self : CFRDecompiler) (jar_path output_folder : path) (w : world) : Prop :=
  ∀ w', mode_2_to_folder java decode_utf8_ignore self jar_path output_folder w = Ok tt w' →
        no_class_file_below output_folder (w_fs w').

Definition scaffold_output_free_of_classes
    (java : list string → tree → launch) (tmp_name : string)
    (decode_utf8_ignore : string → string)
    (self : CFRDecompiler) (jar_path project_dir : path) (w : world) : Prop :=
  ∀ w', mode_3_gradle_project java tmp_name decode_utf8_ignore self jar_path project_dir w
        = Ok tt w' →
        no_class_file_below project_dir (w_fs w').

(** The console shows no line of the cleaner about a failed removal. *)
Definition no_removal_warning (w : world) : Prop :=
  ∀ line, line ∈ w_stdout w → is_removal_warning line = false.

(** ** Relations between the world before and after a computation *)

(** Every run of [m] takes a world to one related to it by [R], whether
    it returns or raises. *)
Definition respects (R : relation world) {A} (m : M A) : Prop :=
  ∀ w, R w (final (m w)).

(** The console only grows. *)
Definition stdout_grows : relation world :=
  λ w w', w_stdout w `prefix_of` w_stdout w'.

(** A relation on trees seen as a relation on worlds. *)
Definition fs_rel (Rt : relation tree) : relation world :=
  λ w w', Rt (w_fs w) (w_fs w').

(** How the tree changes.  Every mutation the model performs is a
    sequence of four kinds of steps: a directory appears where nothing
    was, a regular file is put, a path is removed, a whole directory is
    removed.  The last three only happen at paths of the region [W]. *)
Inductive tree_step (W : path → Prop) : relation tree :=
| step_dir p t : t !! p = None → tree_step W t (<[p := Dir]> t)
| step_file p f t : W p → tree_step W t (<[p := File f]> t)
| step_delete p t : W p → tree_step W t (delete p t)
| step_rmtree d t : (∀ p, d `prefix_of` p → W p) → tree_step W t (tree_rmtree d t).

Definition changes (W : path → Prop) : relation tree := rtc (tree_step W).

Definition alters (W : path → Prop) : relation world := fs_rel (changes W).

(** The exceptions a computation can raise are all of a kind. *)
Definition raises_only (caught : exn → bool) {A} (m : M A) : Prop :=
  ∀ w e w', m w = Raise e w' → caught e = true.

(** Soundness below [d] is not lost. *)
Definition stays_sound (d : path) : relation world :=
  fs_rel (λ t t', sound_below d t → sound_below d t').

(** C5 as the specification words it: every file the cleaner left in the
    temporary tree is found at the same relative path under the
    resources directory, with its content and modification time. *)
Definition resources_mirror_tmp
    (java : list string → tree → launch) (tmp_name : string)
    (decode_utf8_ignore : string → string)
    (self : CFRDecompiler) (jar_path project_dir : path) (w : world) : Prop :=
  ∀ w' w3,
    mode_3_gradle_project java tmp_name decode_utf8_ignore self jar_path project_dir w
    = Ok tt w' →
    scaffold_pruned java tmp_name decode_utf8_ignore self jar_path project_dir w
    = Ok tt w3 →
    ∀ rel f,
      rel ≠ [] →
      w_fs w3 !! (tmp_dir tmp_name ++ rel) = Some (File f) →
      ∃ g, w_fs w' !! ((project_dir ++ ["src"; "main"; "resources"]) ++ rel)
           = Some (File g)
           ∧ f_content g = f_content f
           ∧ f_mtime g = f_mtime f.

(** C9 as the specification words it: the pipeline leaves the archive
    as it was. *)
Definition archive_untouched (pipeline : M unit) (jar_path : path) (w : world) : Prop :=
  w_fs (final (pipeline w)) !! jar_path = w_fs w !! jar_path.

(** ** Sample runs *)

(** A stand-in for the decompiler: for every member [X.class] of the
    archive named on the command line it emits [X.java]; it fails when
    it is not given an archive. *)
Definition java_source_of (m : member) : list (path * string) :=
  match rsplit_dot (name (m_name m)) with
  | Some (base, "class") =>
      [(parent (m_name m) ++ [base +:+ ".java"], "class " +:+ base +:+ " {}")]
  | _ => []
  end.

Definition sample_java (command : list string) (t : tree) : launch :=
  match t !! Path (nth 3 command "") with
  | Some (File {| f_content := Zip members |}) =>
      Exited {| returncode := 0; stderr_bytes := "";
                emitted := flat_map java_source_of members |}
  | _ =>
      Exited {| returncode := 1; stderr_bytes := "cannot read the archive";
                emitted := [] |}
  end.

(** A decompiler that always fails, and a system without [java]. *)
Definition failing_java (command : list string) (t : tree) : launch :=
  Exited {| returncode := 1; stderr_bytes := "boom"; emitted := [] |}.

Definition missing_java (command : list string) (t : tree) : launch := NotStarted.

Definition sample_tmp : string := "tmpk3x".

Definition sample_self : CFRDecompiler := {| cfr_jar_path := ["cfr-0.152.jar"] |}.

Definition plain (c : content) : node := File (new_file c 0).

Definition App_jar : content :=
  Zip [Member ["com"; "x"; "A.class"] (Bytes "cafebabe") true;
       Member ["res"; "a.txt"] (Bytes "hello") true].

(** The working directory holds the decompiler and the archive. *)
Definition sample_tree : tree :=
  list_to_map [([], Dir); (["tmp"], Dir);
               (["cfr-0.152.jar"], plain (Bytes "cfr"));
               (["App.jar"], plain App_jar)].

Definition sample_world (keyboard : list key_event) : world :=
  {| w_fs := sample_tree; w_clock := 1; w_stdout := []; w_stdin := keyboard |}.

(** The folder [out] is there already and holds a compiled class that
    another process keeps open. *)
Definition held_class : file :=
  {| f_content := Bytes "cafebabe"; f_readonly := true; f_locked := true; f_mtime := 0 |}.

Definition busy_world : world :=
  {| w_fs := <[["out"; "old"; "B.class"] := File held_class]>
             (<[["out"; "old"] := Dir]> (<[["out"] := Dir]> sample_tree));
     w_clock := 1; w_stdout := []; w_stdin := [] |}.

(** The project folder [proj] is there already, and in its resources a
    directory has the name of a file of the archive. *)
Definition crowded_world : world :=
  {| w_fs := <[["proj"; "src"; "main"; "resources"; "res"; "a.txt"] := Dir]>
             (<[["proj"; "src"; "main"; "resources"; "res"] := Dir]>
              (<[["proj"; "src"; "main"; "resources"] := Dir]>
               (<[["proj"; "src"; "main"] := Dir]>
                (<[["proj"; "src"] := Dir]>
                 (<[["proj"] := Dir]> sample_tree)))));
     w_clock := 1; w_stdout := []; w_stdin := [] |}.

(** The archive lies in the folder it is exported to, and has a member
    with its own name. *)
Definition Nested_jar : content :=
  Zip [Member ["App.jar"] (Bytes "an older build") true;
       Member ["res"; "a.txt"] (Bytes "hello") true].

Definition nested_world : world :=
  {| w_fs := <[["out"; "App.jar"] := plain Nested_jar]>
             (<[["out"] := Dir]> sample_tree);
     w_clock := 1; w_stdout := []; w_stdin := [] |}.

(** A tree for the cleaner alone: a read-only class, a class held by
    another process, a text file and a directory. *)
Definition classes_tree : tree :=
  list_to_map
    [([], Dir); (["d"], Dir); (["d"; "sub"], Dir);
     (["d"; "A.class"],
      File {| f_content := Bytes "a"; f_readonly := true; f_locked := false; f_mtime := 0 |});
     (["d"; "sub"; "B.class"], File held_class);
     (["d"; "notes.txt"], plain (Bytes "n"))].

Definition classes_world : world :=
  {| w_fs := classes_tree; w_clock := 1; w_stdout := []; w_stdin := [] |}.

(** A file that is not an archive, under the archive's name. *)
Definition broken_world : world :=
  {| w_fs := <[["App.jar"] := plain (Bytes "not a zip")]> sample_tree;
     w_clock := 1; w_stdout := []; w_stdin := [] |}.

(** ** A finer account of how the tree changes

    Three regions of paths bound what a computation does to the tree: a
    directory appears only at a path of [D] where nothing was, a regular
    file is put or removed only at a path of [F] and never in the place
    of a directory, and whole directories are removed only inside [X]. *)

(** [p] is [d], lies below it or is one of the directories above it; the
    root of the tree is nobody's to make. *)
Definition around (d p : path) : Prop :=
  p ≠ [] ∧ (p `prefix_of` d ∨ d `prefix_of` p).

Inductive tree_move (X F D : path → Prop) : relation tree :=
| move_dir p t : D p → t !! p = None → tree_move X F D t (<[p := Dir]> t)
| move_file p f t : F p → t !! p ≠ Some Dir → tree_move X F D t (<[p := File f]> t)
| move_delete p t : F p → t !! p ≠ Some Dir → tree_move X F D t (delete p t)
| move_rmtree d t : (∀ p, d `prefix_of` p → X p) → tree_move X F D t (tree_rmtree d t).

Definition moves (X F D : path → Prop) : relation tree := rtc (tree_move X F D).

Definition reshapes (X F D : path → Prop) : relation world := fs_rel (moves X F D).

(** Nothing is at [d] or under it afterwards if nothing was before. *)
Definition stays_vacant (d : path) : relation world :=
  fs_rel (λ t t', vacant t d = true → vacant t' d = true).

(** ** Vocabulary of the archive's members *)

(** The member at position [i] is the last one of its name in the
    archive: the one whose data extraction leaves. *)
Definition last_of_its_name (members : list member) (i : nat) (m : member) : Prop :=
  members !! i = Some m
  ∧ ∀ j m', i < j → members !! j = Some m' → m_name m' ≠ m_name m.

(** The line the unpacker prints when it gives up. *)
Definition is_extraction_warning (line : string) : bool :=
  String.prefix "[!] Extraction warning: " line.

(** The console shows no line of the unpacker about a failed extraction. *)
Definition no_extraction_warning (w : world) : Prop :=
  ∀ line, line ∈ w_stdout w → is_extraction_warning line = false.

(** ** Vocabulary of the session *)

(** What the session shows before it asks for the mode. *)
Definition greeting : list string :=
  ["=== JAR Decompiler Helper ===";
   "Target .jar path: ";
   nl +:+ "Available modes:";
   "1 - Inplace (replace .class with .java inside jar)";
   "2 - Unpack all (sources + resources to folder)";
   "3 - IDE Ready (create Gradle project structure)"].

Definition mode_prompt : string := nl +:+ "Select mode (1/2/3): ".

(** The world when the session has shown [lines] and the keys that are
    left to read are [keyboard]. *)
Definition shown (lines : list string) (keyboard : list key_event) (w : world) : world :=
  {| w_fs := w_fs w; w_clock := w_clock w;
     w_stdout := w_stdout w ++ lines; w_stdin := keyboard |}.

(** A name without a path separator. *)
Fixpoint slashless (s : string) : bool :=
  match s with
  | EmptyString => true
  | String c s' => negb (Ascii.eqb c "/") && slashless s'
  end.

(** An archive that cannot be written. *)
Definition locked_world : world :=
  {| w_fs := <[["App.jar"] := File {| f_content := App_jar; f_readonly := true;
                                      f_locked := false; f_mtime := 0 |}]> sample_tree;
     w_clock := 1; w_stdout := []; w_stdin := [] |}.

(** A regular file at [p] that the operating system lets go is still
    one afterwards. *)
Definition stays_removable (p : path) : relation world :=
  λ w w', (∃ f, w_fs w !! p = Some (File f) ∧ f_locked f = false) →
          ∃ f', w_fs w' !! p = Some (File f') ∧ f_locked f' = false.

(** An archive whose second member cannot be read. *)
Definition Damaged_jar : content :=
  Zip [Member ["res"; "a.txt"] (Bytes "hello") true;
       Member ["com"; "x"; "A.class"] (Bytes "cafebabe") false;
       Member ["res"; "b.txt"] (Bytes "world") true].

Definition damaged_world : world :=
  {| w_fs := <[["App.jar"] := plain Damaged_jar]> sample_tree;
     w_clock := 1; w_stdout := []; w_stdin := [] |}.

(** The folder [out] is there already and holds a compiled class that
    did not come from the archive. *)
Definition stale_world : world :=
  {| w_fs := <[["out"; "old"; "B.class"] := plain (Bytes "cafebabe")]>
             (<[["out"; "old"] := Dir]> (<[["out"] := Dir]> sample_tree));
     w_clock := 1; w_stdout := []; w_stdin := [] |}.

(** ** The model at work *)

Example fnmatch_class_yes : is_class_name "A.class" = true.
Proof. reflexivity. Qed.

Example fnmatch_class_no : is_class_name "A.java" = false.
Proof. reflexivity. Qed.

Example fnmatch_class_inner : is_class_name "A.class.txt" = false.
Proof. reflexivity. Qed.

Example fnmatch_class_bare : is_class_name ".class" = true.
Proof. reflexivity. Qed.

Example Path_parse : Path "out/./com//x" = ["out"; "com"; "x"].
Proof. reflexivity. Qed.

Example stem_jar : stem (Path "libs/App.v2.jar") = "App.v2".
Proof. reflexivity. Qed.

Example stem_hidden : stem [".bashrc"] = ".bashrc".
Proof. reflexivity. Qed.

Example strip_both : strip "  2 " = "2".
Proof. reflexivity. Qed.

(** The example of the specification: [App.jar] holds [com/x/A.class]
    and [res/a.txt]; after mode 2 with the folder [out], that folder holds
    [com/x/A.java] and [res/a.txt] and no class file, and the program
    ends with status 0. *)
Example export_of_the_sample :
  let o := main sample_java sample_tmp id
                (sample_world [Line "App.jar"; Line "2"; Line "out"]) in
  exit_status o = 0%Z
  ∧ is_file (w_fs (final o)) ["out"; "com"; "x"; "A.java"] = true
  ∧ is_file (w_fs (final o)) ["out"; "res"; "a.txt"] = true
  ∧ is_file (w_fs (final o)) ["out"; "com"; "x"; "A.class"] = false
  ∧ class_paths ["out"] (w_fs (final o)) = [].
Proof. vm_compute. by repeat split. Qed.

(** Inplace on the sample: the archive now holds the resource and the
    decompiled source, and the temporary directory is gone. *)
Example inplace_of_the_sample :
  let o := main sample_java sample_tmp id (sample_world [Line "App.jar"; Line "1"]) in
  exit_status o = 0%Z
  ∧ (∃ z, w_fs (final o) !! ["App.jar"] = Some (File z)
          ∧ f_content z = Zip [Member ["res"; "a.txt"] (Bytes "hello") true;
                               Member ["com"; "x"; "A.java"] (Bytes "class A {}") true])
  ∧ exists_ (w_fs (final o)) (tmp_dir sample_tmp) = false.
Proof. vm_compute. split; [done|]. split; [|done]. by eexists. Qed.

(** The default folder of mode 3 is named after the archive. *)
Example scaffold_of_the_sample :
  let o := main sample_java sample_tmp id
                (sample_world [Line "App.jar"; Line "3"; Line ""]) in
  exit_status o = 0%Z
  ∧ is_file (w_fs (final o)) ["App_project"; "build.gradle"] = true
  ∧ is_file (w_fs (final o)) ["App_project"; "src"; "main"; "java"; "com"; "x"; "A.java"]
    = true
  ∧ is_file (w_fs (final o)) ["App_project"; "src"; "main"; "resources"; "res"; "a.txt"]
    = true.
Proof. vm_compute. by repeat split. Qed.

(** Ctrl-C at the first prompt: status 0 and the farewell line. *)
Example interrupted_session :
  let o := main sample_java sample_tmp id (sample_world [CtrlC]) in
  exit_status o = 0%Z
  ∧ List.last (w_stdout (final o)) "" = nl +:+ "[*] Aborted by user.".
Proof. vm_compute. by split. Qed.

(** Without [java] the run of a mode ends with status 1. *)
Example session_without_java :
  exit_status (main missing_java sample_tmp id
                    (sample_world [Line "App.jar"; Line "2"; Line "out"])) = 1%Z.
Proof. reflexivity. Qed.

(** ** Paths *)

Lemma name_snoc (p : path) (c : string) : name (p ++ [c]) = c.
Proof. unfold name. apply last_last. Qed.

Lemma parent_snoc (p : path) (c : string) : parent (p ++ [c]) = p.
Proof. unfold parent. apply removelast_last. Qed.

Lemma path_snoc_inv (p : path) : p ≠ [] → p = parent p ++ [name p].
Proof. intros Hp. unfold parent, name. by apply app_removelast_last. Qed.

Lemma name_app (d rel : path) : rel ≠ [] → name (d ++ rel) = name rel.
Proof.
  intros Hrel. rewrite (path_snoc_inv rel Hrel) at 1.
  by rewrite app_assoc, name_snoc.
Qed.

Lemma parent_app (d rel : path) : rel ≠ [] → parent (d ++ rel) = d ++ parent rel.
Proof. intros Hrel. unfold parent. by apply removelast_app. Qed.

Lemma parent_prefix (p : path) : parent p `prefix_of` p.
Proof.
  destruct (decide (p = [])) as [->|Hp]; [done|].
  rewrite (path_snoc_inv p Hp) at 2. by apply prefix_app_r.
Qed.

Lemma below_inv (d p : path) : below d p → ∃ c rest, p = d ++ c :: rest.
Proof.
  intros [[k ->] Hne]. destruct k as [|c rest]; [|by eauto].
  by rewrite app_nil_r in Hne.
Qed.

Lemma below_intro (d : path) c rest : below d (d ++ c :: rest).
Proof.
  split; [by apply prefix_app_r|].
  intros Heq. apply (f_equal length) in Heq. rewrite length_app in Heq. simpl in Heq. lia.
Qed.

Lemma below_prefix (d p : path) : below d p → d `prefix_of` p.
Proof. by intros [? _]. Qed.

Lemma relative_to_app (d rel : path) : relative_to (d ++ rel) d = rel.
Proof. unfold relative_to. by rewrite drop_app_length. Qed.

Lemma below_relative (d p : path) :
  below d p → p = d ++ relative_to p d ∧ relative_to p d ≠ [].
Proof.
  intros (c & rest & ->)%below_inv. by rewrite relative_to_app.
Qed.

Lemma prefix_parent (d p : path) : d `prefix_of` p → p ≠ d → d `prefix_of` parent p.
Proof.
  intros Hpre Hne. destruct (below_inv d p) as (c & rest & ->); [done|].
  rewrite parent_app by done. by apply prefix_app_r.
Qed.

(** ** Keys of a tree *)

Lemma elem_of_keys (t : tree) (p : path) : p ∈ keys t ↔ is_Some (t !! p).
Proof.
  unfold keys. rewrite list_elem_of_fmap. split.
  - intros ([q n] & -> & Hin). apply elem_of_map_to_list in Hin. by eexists.
  - intros [n Hn]. exists (p, n). split; [done|]. by apply elem_of_map_to_list.
Qed.

Lemma NoDup_keys (t : tree) : NoDup (keys t).
Proof. apply NoDup_fst_map_to_list. Qed.

Lemma elem_of_filter_keys (f : path → bool) (t : tree) (p : path) :
  p ∈ List.filter f (keys t) ↔ is_Some (t !! p) ∧ f p = true.
Proof.
  rewrite list_elem_of_In, filter_In, <- list_elem_of_In, elem_of_keys. tauto.
Qed.

Lemma NoDup_filter_keys (f : path → bool) (t : tree) : NoDup (List.filter f (keys t)).
Proof. apply NoDup_ListNoDup, List.NoDup_filter, NoDup_ListNoDup, NoDup_keys. Qed.

Lemma vacant_spec (t : tree) (d : path) :
  vacant t d = true ↔ ∀ p, d `prefix_of` p → t !! p = None.
Proof.
  unfold vacant. rewrite forallb_forall. split.
  - intros H p Hpre. destruct (t !! p) as [n|] eqn:Hp; [|done].
    assert (In p (keys t)) as Hin.
    { apply list_elem_of_In, elem_of_keys. by eexists. }
    apply H in Hin. rewrite bool_decide_eq_true_2 in Hin; done.
  - intros H p Hin%list_elem_of_In%elem_of_keys.
    apply negb_true_iff, bool_decide_eq_false. intros Hpre.
    apply H in Hpre. rewrite Hpre in Hin. by destruct Hin.
Qed.

Lemma lookup_rmtree (d : path) (t : tree) (p : path) :
  tree_rmtree d t !! p = if decide (d `prefix_of` p) then None else t !! p.
Proof.
  unfold tree_rmtree. case_decide as Hpre.
  - apply map_lookup_filter_None. right. intros n _. simpl. tauto.
  - destruct (t !! p) as [n|] eqn:Hp.
    + apply map_lookup_filter_Some. done.
    + apply map_lookup_filter_None. by left.
Qed.

(** ** Running computations *)

Lemma bind_run {A B} (m : M A) (k : A → M B) (w : world) :
  (m ≫= k) w = match m w with Ok a w' => k a w' | Raise e w' => Raise e w' end.
Proof. reflexivity. Qed.

Lemma bind_Ok {A B} (m : M A) (k : A → M B) (w : world) b w' :
  (m ≫= k) w = Ok b w' ↔ ∃ a w1, m w = Ok a w1 ∧ k a w1 = Ok b w'.
Proof.
  rewrite bind_run. destruct (m w) as [a w1|e w1]; split.
  - intros H. by exists a, w1.
  - by intros (a' & w1' & [= -> ->] & H).
  - done.
  - by intros (a' & w1' & [=] & _).
Qed.

Lemma bind_Raise {A B} (m : M A) (k : A → M B) (w : world) e w' :
  (m ≫= k) w = Raise e w' ↔
  m w = Raise e w' ∨ ∃ a w1, m w = Ok a w1 ∧ k a w1 = Raise e w'.
Proof.
  rewrite bind_run. destruct (m w) as [a w1|e1 w1]; split.
  - intros H. right. by exists a, w1.
  - by intros [[=]|(a' & w1' & [= -> ->] & H)].
  - intros [= -> ->]. by left.
  - by intros [[= -> ->]|(a' & w1' & [=] & _)].
Qed.

Lemma on_tree_Ok op (w w' : world) :
  on_tree op w = Ok tt w' ↔
  ∃ t, op (w_clock w) (w_fs w) = inr t
       ∧ w' = {| w_fs := t; w_clock := S (w_clock w);
                 w_stdout := w_stdout w; w_stdin := w_stdin w |}.
Proof.
  unfold on_tree. destruct (op _ _) as [e|t]; split.
  - done.
  - by intros (t & ? & _).
  - intros [= <-]. by exists t.
  - by intros (t' & [= ->] & ->).
Qed.

Lemma on_tree_Raise op (w w' : world) e :
  on_tree op w = Raise e w' ↔ op (w_clock w) (w_fs w) = inl e ∧ w' = w.
Proof.
  unfold on_tree. destruct (op _ _) as [e1|t]; split.
  - by intros [= -> ->].
  - by intros [[= ->] ->].
  - done.
  - by intros [? _].
Qed.

Lemma for_each_cons {A} (x : A) (rest : list A) (body : A → M unit) :
  for_each (x :: rest) body = (body x ;; for_each rest body).
Proof. reflexivity. Qed.

(** ** Relations every step of a computation respects *)

Section respects.
Context (R : relation world) `{!PreOrder R}.

Lemma respects_ret {A} (a : A) : respects R (mret a : M A).
Proof. intros w. simpl. reflexivity. Qed.

Lemma respects_raise {A} (e : exn) : respects R (raise e : M A).
Proof. intros w. simpl. reflexivity. Qed.

Lemma respects_bind_dep {A B} (m : M A) (k : A → M B) :
  respects R m →
  (∀ a w w1, m w = Ok a w1 → respects R (k a)) →
  respects R (m ≫= k).
Proof.
  intros Hm Hk w. rewrite bind_run. specialize (Hm w).
  destruct (m w) as [a w1|e w1] eqn:Hrun; simpl in *; [|done].
  etrans; [done|]. by eapply Hk.
Qed.

Lemma respects_bind {A B} (m : M A) (k : A → M B) :
  respects R m → (∀ a, respects R (k a)) → respects R (m ≫= k).
Proof. intros Hm Hk. apply respects_bind_dep; [done|]. intros; apply Hk. Qed.

Lemma respects_try_except {A} (body : M A) caught handler :
  respects R body → (∀ e, respects R (handler e)) →
  respects R (try_except body caught handler).
Proof.
  intros Hb Hh w. unfold try_except. specialize (Hb w).
  destruct (body w) as [a w1|e w1]; simpl in *; [done|].
  destruct (caught e); simpl; [|done].
  etrans; [done|]. apply Hh.
Qed.

Lemma respects_try_except2 {A} (body : M A) c1 h1 c2 h2 :
  respects R body → (∀ e, respects R (h1 e)) → (∀ e, respects R (h2 e)) →
  respects R (try_except2 body c1 h1 c2 h2).
Proof.
  intros Hb H1 H2 w. unfold try_except2. specialize (Hb w).
  destruct (body w) as [a w1|e w1]; simpl in *; [done|].
  destruct (c1 e); [etrans; [done|]; apply H1|].
  destruct (c2 e); [etrans; [done|]; apply H2|done].
Qed.

Lemma respects_for_each {A} (items : list A) (body : A → M unit) :
  (∀ x, x ∈ items → respects R (body x)) →
  respects R (for_each items body).
Proof.
  induction items as [|x rest IH]; intros Hbody.
  - apply respects_ret.
  - rewrite for_each_cons. apply respects_bind.
    + apply Hbody. by left.
    + intros _. apply IH. intros y Hy. apply Hbody. by right.
Qed.

Lemma respects_when (b : bool) (body : M unit) :
  respects R body → respects R (when b body).
Proof. intros Hb. destruct b; [done|apply respects_ret]. Qed.

Lemma respects_Ok {A} (m : M A) w a w' : respects R m → m w = Ok a w' → R w w'.
Proof. intros Hm Hrun. specialize (Hm w). by rewrite Hrun in Hm. Qed.

Lemma respects_Raise {A} (m : M A) w e w' : respects R m → m w = Raise e w' → R w w'.
Proof. intros Hm Hrun. specialize (Hm w). by rewrite Hrun in Hm. Qed.
End respects.

Global Instance stdout_grows_po : PreOrder stdout_grows.
Proof.
  split.
  - intros w. unfold stdout_grows. done.
  - intros w1 w2 w3. unfold stdout_grows. by etrans.
Qed.

Global Instance fs_rel_po Rt `{!PreOrder Rt} : PreOrder (fs_rel Rt).
Proof.
  split.
  - intros w. unfold fs_rel. reflexivity.
  - intros w1 w2 w3. unfold fs_rel. by etrans.
Qed.

Lemma respects_on_tree_fs Rt `{!Reflexive Rt} op :
  (∀ now t t', op now t = inr t' → Rt t t') → respects (fs_rel Rt) (on_tree op).
Proof.
  intros Hop w. unfold on_tree, fs_rel.
  destruct (op _ _) as [e|t] eqn:Hrun; simpl; [reflexivity|]. by eapply Hop.
Qed.

Lemma respects_on_tree_stdout op : respects stdout_grows (on_tree op).
Proof. intros w. unfold on_tree, stdout_grows. by destruct (op _ _). Qed.

Lemma respects_print_stdout s : respects stdout_grows (print s).
Proof. intros w. unfold stdout_grows. simpl. by apply prefix_app_r. Qed.

Lemma respects_print_fs Rt `{!Reflexive Rt} s : respects (fs_rel Rt) (print s).
Proof. intros w. unfold fs_rel. simpl. reflexivity. Qed.

Lemma respects_input_stdout s : respects stdout_grows (input s).
Proof.
  intros w. unfold stdout_grows, input.
  destruct (w_stdin w) as [|[text|] rest]; simpl; by apply prefix_app_r.
Qed.

Lemma respects_input_fs Rt `{!Reflexive Rt} s : respects (fs_rel Rt) (input s).
Proof.
  intros w. unfold fs_rel, input.
  destruct (w_stdin w) as [|[text|] rest]; simpl; reflexivity.
Qed.

(** ** How the tree changes *)

Global Instance changes_po W : PreOrder (changes W).
Proof. unfold changes. apply _. Qed.

Lemma changes_step W t t' : tree_step W t t' → changes W t t'.
Proof. apply rtc_once. Qed.

Lemma changes_mono (W W' : path → Prop) t t' :
  (∀ p, W p → W' p) → changes W t t' → changes W' t t'.
Proof.
  intros Hsub. induction 1 as [|t1 t2 t3 Hstep _ IH]; [done|].
  eapply rtc_l; [|done].
  destruct Hstep; constructor; auto.
Qed.

(** A node outside the region stays as it is. *)
Lemma changes_keeps W t t' p n :
  changes W t t' → ¬ W p → t !! p = Some n → t' !! p = Some n.
Proof.
  intros Hch HW. induction Hch as [|t1 t2 t3 Hstep _ IH]; [done|].
  intros Hp. apply IH. destruct Hstep as [q t Hq|q f t Hq|q t Hq|d t Hd].
  - rewrite lookup_insert_ne; [done|]. intros ->. congruence.
  - rewrite lookup_insert_ne; [done|]. by intros ->.
  - rewrite lookup_delete_ne; [done|]. by intros ->.
  - rewrite lookup_rmtree. case_decide as Hpre; [|done]. by apply Hd in Hpre.
Qed.

(** A regular file found afterwards was one before, or lies in the region. *)
Lemma changes_files W t t' p :
  changes W t t' → is_file t' p = true → is_file t p = true ∨ W p.
Proof.
  intros Hch Hfile. induction Hch as [|t1 t2 t3 Hstep _ IH]; [by left|].
  destruct (IH Hfile) as [Hf|?]; [|by right].
  unfold is_file in *.
  destruct Hstep as [q t Hq|q f t Hq|q t Hq|d t Hd].
  - destruct (decide (q = p)) as [->|Hne].
    + by rewrite lookup_insert_eq in Hf.
    + rewrite lookup_insert_ne in Hf by done. by left.
  - destruct (decide (q = p)) as [->|Hne]; [by right|].
    rewrite lookup_insert_ne in Hf by done. by left.
  - destruct (decide (q = p)) as [->|Hne]; [by right|].
    rewrite lookup_delete_ne in Hf by done. by left.
  - rewrite lookup_rmtree in Hf. case_decide; [done|by left].
Qed.

(** Outside the region nothing disappears and nothing but directories
    appears. *)
Lemma changes_outside W t t' p :
  changes W t t' → ¬ W p →
  t' !! p = t !! p ∨ (t !! p = None ∧ t' !! p = Some Dir).
Proof.
  intros Hch HW. destruct (t !! p) as [n|] eqn:Hp.
  - left. by eapply changes_keeps.
  - destruct (t' !! p) as [[f|]|] eqn:Hp'; [|by right|by left].
    exfalso. destruct (changes_files W t t' p Hch) as [Hf|?]; [|by unfold is_file in *; rewrite ?Hp in *|done].
    by unfold is_file; rewrite Hp'.
Qed.

(** *** The operations *)

Lemma makedirs_changes W rest : ∀ base t t',
  makedirs base rest t = inr t' → changes W t t'.
Proof.
  induction rest as [|c rest IH]; intros base t t'; simpl.
  - by intros [= ->].
  - destruct (t !! (base ++ [c])) as [[f|]|] eqn:Hq; [done| |].
    + apply IH.
    + intros Hrun. etrans; [|by eapply IH].
      by apply changes_step, step_dir.
Qed.

Lemma tree_mkdir_changes W p t t' : tree_mkdir p t = inr t' → changes W t t'.
Proof.
  unfold tree_mkdir. destruct (t !! p) eqn:Hp; [done|].
  destruct (t !! parent p) as [[f|]|]; [done| |done].
  intros [= <-]. by apply changes_step, step_dir.
Qed.

Lemma tree_write_changes (W : path → Prop) now p c t t' :
  W p → tree_write now p c t = inr t' → changes W t t'.
Proof.
  intros HW. unfold tree_write. destruct (t !! p) as [[f|]|].
  - destruct (f_readonly f); [done|]. intros [= <-]. by apply changes_step, step_file.
  - done.
  - destruct (t !! parent p) as [[f|]|]; [done| |done].
    intros [= <-]. by apply changes_step, step_file.
Qed.

Lemma tree_chmod_changes (W : path → Prop) p t t' :
  W p → tree_chmod_writable p t = inr t' → changes W t t'.
Proof.
  intros HW. unfold tree_chmod_writable. destruct (t !! p) as [[f|]|]; [| |done].
  - intros [= <-]. by apply changes_step, step_file.
  - by intros [= <-].
Qed.

Lemma tree_unlink_changes (W : path → Prop) p t t' :
  W p → tree_unlink p t = inr t' → changes W t t'.
Proof.
  intros HW. unfold tree_unlink. destruct (t !! p) as [[f|]|]; [|done|done].
  destruct (_ || _); [done|]. intros [= <-]. by apply changes_step, step_delete.
Qed.

Lemma tree_copy2_changes (W : path → Prop) src dst t t' :
  W dst → W (dst ++ [name src]) → tree_copy2 src dst t = inr t' → changes W t t'.
Proof.
  intros HW1 HW2. unfold tree_copy2. destruct (t !! src) as [[f|]|]; [|done|done].
  assert (W (copy2_target t src dst)) as HW.
  { unfold copy2_target. by destruct (is_dir t dst). }
  destruct (t !! copy2_target t src dst) as [[g|]|].
  - destruct (f_readonly g); [done|]. intros [= <-]. by apply changes_step, step_file.
  - done.
  - destruct (t !! parent _) as [[g|]|]; [done| |done].
    intros [= <-]. by apply changes_step, step_file.
Qed.

Lemma tree_zip_append_changes (W : path → Prop) zip filename arcname now t t' :
  W zip → tree_zip_append zip filename arcname now t = inr t' → changes W t t'.
Proof.
  intros HW. unfold tree_zip_append.
  destruct (t !! filename) as [[f|]|]; [|done|done].
  destruct (t !! zip) as [[z|]|]; [|done|done].
  destruct (f_content z); [done|]. intros [= <-]. by apply changes_step, step_file.
Qed.

Lemma tree_rmtree_changes (W : path → Prop) d t :
  (∀ p, d `prefix_of` p → W p) → changes W t (tree_rmtree d t).
Proof. intros HW. by apply changes_step, step_rmtree. Qed.

Lemma tree_put_changes (W : path → Prop) now p c t :
  W p → changes W t (tree_put now p c t).
Proof.
  intros HW. unfold tree_put.
  destruct (makedirs [] (parent p) t) as [e|t1] eqn:Hdirs; [done|].
  destruct (tree_write now p c t1) as [e|t2] eqn:Hwrite; [done|].
  etrans; [by eapply makedirs_changes|by eapply tree_write_changes].
Qed.

Lemma emit_changes (W : path → Prop) now out files t :
  (∀ p, out `prefix_of` p → W p) → changes W t (emit now out files t).
Proof.
  intros HW. unfold emit. revert t.
  induction files as [|[rel data] files IH]; intros t; simpl; [done|].
  etrans; [|apply IH]. apply tree_put_changes, HW. by apply prefix_app_r.
Qed.

(** ** What the library calls and the script's functions change *)

Lemma respects_intact R `{!Reflexive R} {A} (m : M A) :
  (∀ w, final (m w) = w) → respects R m.
Proof. intros Hm w. rewrite Hm. reflexivity. Qed.

Lemma ZipFile_read_intact p w : final (ZipFile_read p w) = w.
Proof.
  unfold ZipFile_read. destruct (w_fs w !! p) as [[f|]|]; [|done|done].
  by destruct (f_content f).
Qed.

Lemma Path_rglob_Ok d pat w found w' :
  Path_rglob d pat w = Ok found w' →
  w' = w ∧ NoDup found ∧
  ∀ p, p ∈ found ↔ is_Some (w_fs w !! p) ∧ below d p ∧ fnmatch pat (name p) = true.
Proof.
  unfold Path_rglob. intros [= <- <-]. split; [done|]. split.
  - apply NoDup_filter_keys.
  - intros p. rewrite elem_of_filter_keys, andb_true_iff, bool_decide_eq_true. tauto.
Qed.

Lemma os_walk_files_Ok d w found w' :
  os_walk_files d w = Ok found w' →
  w' = w ∧ NoDup found ∧
  ∀ p, p ∈ found ↔ below d p ∧ is_file (w_fs w) p = true.
Proof.
  unfold os_walk_files. intros [= <- <-]. split; [done|]. split.
  - apply NoDup_filter_keys.
  - intros p. rewrite elem_of_filter_keys, andb_true_iff, bool_decide_eq_true.
    unfold is_file. destruct (w_fs w !! p) as [[f|]|].
    + split; [tauto|]. intros [? _]. eauto.
    + split; [intros (_ & _ & [=])|intros [_ [=]]].
    + split; [intros (_ & _ & [=])|intros [_ [=]]].
Qed.

Section primitives.
Context (R : relation world) `{!PreOrder R}.

Lemma respects_sys_exit {A} s : respects R (sys_exit s : M A).
Proof. apply respects_raise; apply _. Qed.
Lemma respects_Path_exists p : respects R (Path_exists p).
Proof. by apply respects_intact; [apply _|]. Qed.
Lemma respects_Path_is_file p : respects R (Path_is_file p).
Proof. by apply respects_intact; [apply _|]. Qed.
Lemma respects_os_path_isfile s : respects R (os_path_isfile s).
Proof. by apply respects_intact; [apply _|]. Qed.
Lemma respects_Path_rglob d pat : respects R (Path_rglob d pat).
Proof. by apply respects_intact; [apply _|]. Qed.
Lemma respects_os_walk_files d : respects R (os_walk_files d).
Proof. by apply respects_intact; [apply _|]. Qed.
Lemma respects_ZipFile_read p : respects R (ZipFile_read p).
Proof. apply respects_intact; [apply _|]. apply ZipFile_read_intact. Qed.
End primitives.

Section alters.
Context (W : path → Prop).

Lemma alters_print s : respects (alters W) (print s).
Proof. apply respects_print_fs; apply _. Qed.
Lemma alters_input s : respects (alters W) (input s).
Proof. apply respects_input_fs; apply _. Qed.

Lemma alters_Path_mkdir p : respects (alters W) (Path_mkdir p).
Proof.
  apply respects_on_tree_fs; [apply _|]. intros _ t t'. apply makedirs_changes.
Qed.

Lemma alters_open_write p c : W p → respects (alters W) (open_write p c).
Proof.
  intros HW. apply respects_on_tree_fs; [apply _|].
  intros now t t'. by apply tree_write_changes.
Qed.

Lemma alters_os_chmod p : W p → respects (alters W) (os_chmod_S_IWRITE p).
Proof.
  intros HW. apply respects_on_tree_fs; [apply _|].
  intros now t t'. by apply tree_chmod_changes.
Qed.

Lemma alters_Path_unlink p : W p → respects (alters W) (Path_unlink p).
Proof.
  intros HW. apply respects_on_tree_fs; [apply _|].
  intros now t t'. by apply tree_unlink_changes.
Qed.

Lemma alters_shutil_copy2 src dst :
  W dst → W (dst ++ [name src]) → respects (alters W) (shutil_copy2 src dst).
Proof.
  intros HW1 HW2. apply respects_on_tree_fs; [apply _|].
  intros now t t'. by apply tree_copy2_changes.
Qed.

Lemma alters_zipf_write zip filename arcname :
  W zip → respects (alters W) (zipf_write zip filename arcname).
Proof.
  intros HW. apply respects_on_tree_fs; [apply _|].
  intros now t t'. by apply tree_zip_append_changes.
Qed.

Lemma alters_ZipFile_create p : W p → respects (alters W) (ZipFile_create p).
Proof. apply alters_open_write. Qed.

Lemma alters_extractall members dest :
  (∀ p, dest `prefix_of` p → W p) → respects (alters W) (extractall members dest).
Proof.
  intros HW. apply respects_for_each; [apply _|]. intros m _.
  unfold extract_member. destruct (m_intact m); [|apply respects_raise; apply _].
  apply respects_bind; [apply _|apply respects_Path_exists; apply _|]. intros there.
  apply respects_bind; [apply _| |].
  - apply respects_when; [apply _|]. apply alters_Path_mkdir.
  - intros _. apply alters_open_write, HW. by apply prefix_app_r.
Qed.
End alters.

Section script.
Context (java : list string → tree → launch) (tmp_name : string)
        (decode_utf8_ignore : string → string).

Local Abbreviation tmp := (tmp_dir tmp_name).

Lemma alters_subprocess_run_check W command out :
  (∀ p, out `prefix_of` p → W p) →
  respects (alters W) (subprocess_run_check java command out).
Proof.
  intros HW w. unfold subprocess_run_check, alters, fs_rel.
  destruct (java command (w_fs w)) as [cp| |]; simpl; [|done|done].
  destruct (returncode cp =? 0)%Z; simpl; by apply emit_changes.
Qed.

Lemma alters_run_cfr W self jar out :
  (∀ p, out `prefix_of` p → W p) →
  respects (alters W) (_run_cfr java decode_utf8_ignore self jar out).
Proof.
  intros HW. unfold _run_cfr.
  apply respects_bind; [apply _|apply alters_print|]. intros _.
  apply respects_try_except; [apply _|by apply alters_subprocess_run_check|].
  intros [| | |rc cmd err| | |]; try (apply respects_raise; apply _).
  apply respects_bind; [apply _|apply alters_print|]. intros _.
  apply respects_raise; apply _.
Qed.

Lemma alters_extract_jar_contents W self jar dest :
  (∀ p, dest `prefix_of` p → W p) →
  respects (alters W) (_extract_jar_contents self jar dest).
Proof.
  intros HW. unfold _extract_jar_contents.
  apply respects_try_except; [apply _| |intros e; apply alters_print].
  apply respects_bind; [apply _|apply respects_ZipFile_read; apply _|].
  intros members. by apply alters_extractall.
Qed.

Lemma alters_remove_class_files W self directory :
  (∀ p, below directory p → is_class_name (name p) = true → W p) →
  respects (alters W) (_remove_class_files self directory).
Proof.
  intros HW. unfold _remove_class_files.
  apply respects_bind_dep; [apply _|apply respects_Path_rglob; apply _|].
  intros found w w1 (_ & _ & Hfound)%Path_rglob_Ok.
  apply respects_for_each; [apply _|]. intros p (_ & Hbelow & Hname)%Hfound.
  assert (W p) by by apply HW.
  apply respects_try_except; [apply _| |intros e; apply alters_print].
  apply respects_bind; [apply _|by apply alters_os_chmod|].
  intros _. by apply alters_Path_unlink.
Qed.

Lemma alters_mkdtemp W : respects (alters W) (mkdtemp tmp_name).
Proof.
  intros w. unfold mkdtemp. destruct (vacant _ _); [|reflexivity].
  revert w. apply respects_bind; [apply _| |intros; apply respects_ret; apply _].
  apply respects_on_tree_fs; [apply _|]. intros _ t t'. apply tree_mkdir_changes.
Qed.

Lemma mkdtemp_Ok d w w' :
  mkdtemp tmp_name w = Ok d w' →
  d = tmp ∧ vacant (w_fs w) tmp = true
  ∧ w' = {| w_fs := <[tmp := Dir]> (w_fs w); w_clock := S (w_clock w);
            w_stdout := w_stdout w; w_stdin := w_stdin w |}.
Proof.
  unfold mkdtemp. destruct (vacant _ _) eqn:Hvac; [|done].
  intros ([] & w1 & (t & Hmk & ->)%on_tree_Ok & [= <- <-])%bind_Ok.
  split; [done|]. split; [done|]. f_equal.
  unfold tree_mkdir in Hmk. destruct (w_fs w !! tmp); [done|].
  destruct (w_fs w !! parent tmp) as [[f|]|]; [done| |done]. by injection Hmk as <-.
Qed.

Lemma mkdtemp_Raise e w w' : mkdtemp tmp_name w = Raise e w' → w' = w.
Proof.
  unfold mkdtemp. destruct (vacant _ _); [|by intros [= _ <-]].
  intros [(_ & ->)%on_tree_Raise|(? & w1 & _ & [=])]%bind_Raise. done.
Qed.

Lemma alters_cleanup (W : path → Prop) d w :
  (∀ p, d `prefix_of` p → W p) → alters W w (cleanup d w).
Proof. intros HW. unfold alters, fs_rel, cleanup. simpl. by apply tree_rmtree_changes. Qed.

Lemma with_TemporaryDirectory_run {A} (body : path → M A) w :
  with_TemporaryDirectory tmp_name body w =
  match mkdtemp tmp_name w with
  | Raise e w1 => Raise e w1
  | Ok d w1 =>
      match body d w1 with
      | Ok a w2 => Ok a (cleanup d w2)
      | Raise e w2 => Raise e (cleanup d w2)
      end
  end.
Proof. reflexivity. Qed.

Lemma alters_with_TemporaryDirectory (W : path → Prop) {A} (body : path → M A) :
  (∀ p, tmp `prefix_of` p → W p) →
  respects (alters W) (body tmp) →
  respects (alters W) (with_TemporaryDirectory tmp_name body).
Proof.
  intros HW Hbody w. rewrite with_TemporaryDirectory_run.
  pose proof (alters_mkdtemp W w) as Hmk.
  destruct (mkdtemp tmp_name w) as [d w1|e w1] eqn:Hrun; simpl in *; [|done].
  apply mkdtemp_Ok in Hrun as (-> & _ & _).
  specialize (Hbody w1).
  destruct (body tmp w1) as [a w2|e w2]; simpl in *;
    (etrans; [done|]; etrans; [done|]; by apply alters_cleanup).
Qed.
End script.

(** ** The class-file pattern *)

Lemma append_empty_l s : "" +:+ s = s.
Proof. reflexivity. Qed.

Lemma append_String c a s : String c a +:+ s = String c (a +:+ s).
Proof. reflexivity. Qed.

Lemma fnmatch_literal pattern : literal pattern = true →
  ∀ s, fnmatch pattern s = true ↔ s = pattern.
Proof.
  induction pattern as [|c pattern IH]; simpl.
  - intros _ [|d s]; split; done.
  - intros [Hc Hlit]%andb_true_iff. apply negb_true_iff in Hc. rewrite Hc.
    intros [|d s]; [split; done|].
    rewrite andb_true_iff, (IH Hlit), Ascii.eqb_eq. split.
    + by intros [-> ->].
    + by intros [= -> ->].
Qed.

Lemma fnmatch_star pattern s :
  fnmatch (String "*" pattern) s = true ↔
  ∃ a b, s = a +:+ b ∧ fnmatch pattern b = true.
Proof.
  change (fnmatch (String "*" pattern)) with
    (fix star (s : string) : bool :=
       fnmatch pattern s
       || match s with EmptyString => false | String _ s' => star s' end).
  induction s as [|d s IH].
  - rewrite orb_false_r. split.
    + intros H. by exists EmptyString, EmptyString.
    + intros (a & b & Heq & H). destruct a; [by rewrite append_empty_l in Heq; subst|done].
  - rewrite orb_true_iff, IH. split.
    + intros [H|(a & b & -> & H)].
      * by exists EmptyString, (String d s).
      * by exists (String d a), b.
    + intros (a & b & Heq & H). destruct a as [|d' a].
      * left. rewrite append_empty_l in Heq. by subst.
      * right. rewrite append_String in Heq. injection Heq as -> ->. by exists a, b.
Qed.

Lemma is_class_name_spec s :
  is_class_name s = true ↔ ∃ base, s = base +:+ ".class".
Proof.
  unfold is_class_name. rewrite fnmatch_star. split.
  - intros (a & b & -> & H). apply fnmatch_literal in H; [|done]. subst. by exists a.
  - intros [base ->]. exists base, ".class". split; [done|]. by apply fnmatch_literal.
Qed.

Lemma fnmatch_any s : fnmatch "*" s = true.
Proof.
  apply fnmatch_star. exists s, EmptyString. split; [|done].
  induction s as [|c s IH]; [done|]. by rewrite append_String, <- IH.
Qed.

Lemma prefix_append a b : String.prefix a (a +:+ b) = true.
Proof.
  induction a as [|c a IH]; [by destruct b|].
  rewrite append_String. simpl. rewrite IH. by destruct (ascii_dec c c).
Qed.

Lemma is_removal_warning_yes p e : is_removal_warning (removal_warning p e) = true.
Proof. unfold is_removal_warning, removal_warning. apply prefix_append. Qed.

Lemma flat_map_ext_elem {A B} (f g : A → list B) (l : list A) :
  (∀ x, x ∈ l → f x = g x) → flat_map f l = flat_map g l.
Proof.
  induction l as [|x l IH]; intros Hfg; simpl; [done|].
  rewrite Hfg by by left. rewrite IH; [done|]. intros y Hy. apply Hfg. by right.
Qed.

(** ** The cleaner *)

Section cleaner.
Abbreviation remove_one p :=
  (try_except (os_chmod_S_IWRITE p ;; Path_unlink p) is_Exception
              (λ e, print (removal_warning p e))).

Lemma remove_one_run p w :
  ∃ w', remove_one p w = Ok tt w'
        ∧ (∀ q, w_fs w' !! q =
                if decide (q = p) then after_removal (w_fs w !! p) else w_fs w !! q)
        ∧ w_stdout w' = w_stdout w ++ removal_failure p (w_fs w !! p)
        ∧ w_stdin w' = w_stdin w.
Proof.
  unfold try_except. rewrite bind_run.
  unfold os_chmod_S_IWRITE, Path_unlink, on_tree, tree_chmod_writable; simpl.
  destruct (w_fs w !! p) as [[f|]|] eqn:Hp; simpl.
  - unfold tree_unlink. rewrite lookup_insert_eq. simpl.
    destruct (f_locked f) eqn:Hlock; simpl.
    + eexists. split; [done|]. simpl. split; [|done].
      intros q. case_decide as Hq; [subst; by rewrite lookup_insert_eq|].
      by rewrite lookup_insert_ne.
    + eexists. split; [done|]. simpl. split; [|by rewrite app_nil_r].
      intros q. case_decide as Hq.
      * subst. by rewrite lookup_delete_eq.
      * rewrite lookup_delete_ne by done. by rewrite lookup_insert_ne.
  - unfold tree_unlink. rewrite Hp. simpl.
    eexists. split; [done|]. simpl. split; [|done].
    intros q. by case_decide; subst.
  - eexists. split; [done|]. simpl. split; [|done].
    intros q. by case_decide; subst.
Qed.

Lemma remove_loop_run found : NoDup found → ∀ w,
  ∃ w', for_each found (λ p, remove_one p) w = Ok tt w'
        ∧ (∀ q, w_fs w' !! q =
                if decide (q ∈ found) then after_removal (w_fs w !! q) else w_fs w !! q)
        ∧ w_stdout w' = w_stdout w ++ flat_map (λ p, removal_failure p (w_fs w !! p)) found
        ∧ w_stdin w' = w_stdin w.
Proof.
  induction 1 as [|p rest Hp _ IH]; intros w.
  - exists w. split; [done|]. split; [|by rewrite app_nil_r].
    intros q. case_decide as Hq; [|done]. by apply elem_of_nil in Hq.
  - destruct (remove_one_run p w) as (w1 & Hrun1 & Hfs1 & Hout1 & Hin1).
    destruct (IH w1) as (w' & Hrun & Hfs & Hout & Hin).
    exists w'. split; [by rewrite for_each_cons, bind_run, Hrun1|].
    assert (∀ q, q ∈ rest → w_fs w1 !! q = w_fs w !! q) as Hsame.
    { intros q Hq. rewrite Hfs1. case_decide; [by subst|done]. }
    split; [|split; [|congruence]].
    + intros q. rewrite Hfs. case_decide as Hq.
      * rewrite Hsame by done. rewrite decide_True; [done|by right].
      * rewrite Hfs1. case_decide as Hqp.
        -- subst. rewrite decide_True; [done|by left].
        -- rewrite decide_False; [done|]. by intros [?|?]%elem_of_cons.
    + rewrite Hout, Hout1. simpl. rewrite <- app_assoc. do 2 f_equal.
      apply flat_map_ext_elem. intros q Hq. by rewrite Hsame.
Qed.

Lemma elem_of_class_paths d t p :
  p ∈ class_paths d t ↔
  is_Some (t !! p) ∧ below d p ∧ is_class_name (name p) = true.
Proof.
  unfold class_paths, is_class_name.
  rewrite elem_of_filter_keys, andb_true_iff, bool_decide_eq_true. tauto.
Qed.

Lemma remove_class_files_run self d w :
  ∃ w', _remove_class_files self d w = Ok tt w'
        ∧ (∀ q, w_fs w' !! q =
                if decide (below d q ∧ is_class_name (name q) = true)
                then after_removal (w_fs w !! q) else w_fs w !! q)
        ∧ w_stdout w' =
            w_stdout w ++ flat_map (λ p, removal_failure p (w_fs w !! p))
                                   (class_paths d (w_fs w))
        ∧ w_stdin w' = w_stdin w.
Proof.
  unfold _remove_class_files. rewrite bind_run. simpl.
  destruct (remove_loop_run (class_paths d (w_fs w)) (NoDup_filter_keys _ _) w)
    as (w' & Hrun & Hfs & Hout & Hin).
  exists w'. split; [exact Hrun|]. split; [|done].
  intros q. rewrite Hfs. case_decide as Hq.
  - apply elem_of_class_paths in Hq as (_ & ? & ?). by rewrite decide_True.
  - case_decide as Hm; [|done].
    destruct (w_fs w !! q) as [n|] eqn:Hlook; [|done].
    exfalso. apply Hq, elem_of_class_paths. by destruct Hm.
Qed.
End cleaner.

(** ** Which exceptions a computation can raise *)

Lemma raises_only_bind caught {A B} (m : M A) (k : A → M B) :
  raises_only caught m → (∀ a, raises_only caught (k a)) →
  raises_only caught (m ≫= k).
Proof.
  intros Hm Hk w e w' [?|(a & w1 & _ & ?)]%bind_Raise; [by eapply Hm|by eapply Hk].
Qed.

Lemma raises_only_for_each caught {A} (items : list A) (body : A → M unit) :
  (∀ x, raises_only caught (body x)) → raises_only caught (for_each items body).
Proof.
  intros Hbody. induction items as [|x rest IH]; [done|].
  rewrite for_each_cons. apply raises_only_bind; [apply Hbody|done].
Qed.

Lemma raises_only_when caught b (body : M unit) :
  raises_only caught body → raises_only caught (when b body).
Proof. by destruct b. Qed.

Lemma raises_only_on_tree caught op :
  (∀ now t e, op now t = inl e → caught e = true) → raises_only caught (on_tree op).
Proof. intros Hop w e w' [? _]%on_tree_Raise. by eapply Hop. Qed.

Lemma makedirs_error rest : ∀ base t e,
  makedirs base rest t = inl e → is_Exception e = true.
Proof.
  induction rest as [|c rest IH]; intros base t e; simpl; [done|].
  destruct (t !! (base ++ [c])) as [[f|]|]; [by intros [= <-]|apply IH|apply IH].
Qed.

Lemma tree_write_error now p c t e :
  tree_write now p c t = inl e → is_Exception e = true.
Proof.
  unfold tree_write. destruct (t !! p) as [[f|]|].
  - destruct (f_readonly f); [by intros [= <-]|done].
  - by intros [= <-].
  - destruct (t !! parent p) as [[f|]|]; [|done|]; by intros [= <-].
Qed.

Lemma ZipFile_read_error p : raises_only is_Exception (ZipFile_read p).
Proof.
  intros w e w'. unfold ZipFile_read.
  destruct (w_fs w !! p) as [[f|]|]; [|by intros [= <- _]|by intros [= <- _]].
  destruct (f_content f); [by intros [= <- _]|done].
Qed.

Lemma extractall_error members dest : raises_only is_Exception (extractall members dest).
Proof.
  apply raises_only_for_each. intros m. unfold extract_member.
  destruct (m_intact m); [|by intros w e w' [= <- _]].
  apply raises_only_bind; [done|]. intros there.
  apply raises_only_bind.
  - apply raises_only_when, raises_only_on_tree. intros _ t e. apply makedirs_error.
  - intros _. apply raises_only_on_tree. intros now t e. apply tree_write_error.
Qed.

(** ** The cleaner: claims C6 and C10 *)



(** ** The unpacker: claim C7 *)

(** C7.  The unpacker returns normally whatever the archive is.  When
    reading the archive or extracting one of its members fails, the
    exception is not passed on: a warning with its text is printed and
    what had been extracted until then stays. *)
Theorem unpacker_never_raises (self : CFRDecompiler) (jar_path extract_dir : path) (w : world) :
  ∃ w', _extract_jar_contents self jar_path extract_dir w = Ok tt w'
        ∧ (∀ e w1,
             (zip_ref ← ZipFile_read jar_path; extractall zip_ref extract_dir) w = Raise e w1 →
             w_fs w' = w_fs w1
             ∧ w_stdout w' = w_stdout w1 ++ ["[!] Extraction warning: " +:+ str_exn e])
        ∧ (∀ w1,
             (zip_ref ← ZipFile_read jar_path; extractall zip_ref extract_dir) w = Ok tt w1 →
             w' = w1).
Proof.
  unfold _extract_jar_contents, try_except.
  destruct ((zip_ref ← ZipFile_read jar_path; extractall zip_ref extract_dir) w)
    as [[] w1|e w1] eqn:Hrun.
  - exists w1. split; [done|]. split; [done|]. by intros ? [= <-].
  - assert (is_Exception e = true) as ->.
    { revert Hrun. apply raises_only_bind; [apply ZipFile_read_error|].
      intros members. apply extractall_error. }
    eexists. split; [done|]. split; [|done]. by intros ? ? [= <- <-].
Qed.

(** ** The entry point: claim C8 *)

Section entry.
Context (java : list string → tree → launch) (tmp_name : string)
        (decode_utf8_ignore : string → string).

Local Abbreviation interactive := (interactive_mode java tmp_name decode_utf8_ignore).
Local Abbreviation run_main := (main java tmp_name decode_utf8_ignore).

Lemma main_exit_status w :
  exit_status (run_main w) =
  match interactive w with
  | Ok _ _ => 0%Z
  | Raise KeyboardInterrupt _ => 0%Z
  | Raise (SystemExit status) _ => status
  | Raise _ _ => 1%Z
  end.
Proof.
  unfold main, try_except2. destruct (interactive w) as [[] w1|e w1]; [done|].
  by destruct e.
Qed.

Lemma input_Line prompt w text rest :
  w_stdin w = Line text :: rest →
  input prompt w = Ok text {| w_fs := w_fs w; w_clock := w_clock w;
                             w_stdout := w_stdout w ++ [prompt]; w_stdin := rest |}.
Proof. unfold input. by intros ->. Qed.

Lemma interactive_cfr_missing w text rest :
  w_stdin w = Line text :: rest →
  is_file (w_fs w) (Path cfr_path) = false →
  ∃ w', interactive w = Raise (SystemExit 1) w' ∧ w_fs w' = w_fs w.
Proof.
  intros Hin Hcfr. unfold interactive_mode.
  rewrite bind_run. simpl. rewrite bind_run.
  erewrite input_Line by done. rewrite bind_run.
  unfold os_path_isfile at 1, Path_is_file at 1. simpl. rewrite Hcfr. simpl.
  by eexists.
Qed.

Lemma interactive_target_missing w text rest :
  w_stdin w = Line text :: rest →
  is_file (w_fs w) (Path cfr_path) = true →
  is_file (w_fs w) (Path (strip text)) = false →
  ∃ w', interactive w = Raise (SystemExit 1) w' ∧ w_fs w' = w_fs w.
Proof.
  intros Hin Hcfr Hjar. unfold interactive_mode.
  rewrite bind_run. simpl. rewrite bind_run.
  erewrite input_Line by done. rewrite bind_run.
  unfold os_path_isfile at 1, Path_is_file at 1. simpl. rewrite Hcfr. simpl.
  rewrite bind_run. simpl. rewrite bind_run.
  unfold os_path_isfile at 1, Path_is_file at 1. simpl. rewrite Hjar. simpl.
  by eexists.
Qed.

Lemma interactive_unknown_mode w text choice rest :
  w_stdin w = Line text :: Line choice :: rest →
  is_file (w_fs w) (Path cfr_path) = true →
  is_file (w_fs w) (Path (strip text)) = true →
  strip choice ≠ "1" → strip choice ≠ "2" → strip choice ≠ "3" →
  ∃ w', interactive w = Ok tt w'
        ∧ w_fs w' = w_fs w
        ∧ List.last (w_stdout w') "" = "[-] Unknown mode. Exiting.".
Proof.
  intros Hin Hcfr Hjar H1 H2 H3. unfold interactive_mode.
  rewrite bind_run. simpl. rewrite bind_run.
  erewrite input_Line by done. rewrite bind_run.
  unfold os_path_isfile at 1, Path_is_file at 1. simpl. rewrite Hcfr. simpl.
  rewrite bind_run. simpl. rewrite bind_run.
  unfold os_path_isfile at 1, Path_is_file at 1. simpl. rewrite Hjar. simpl.
  rewrite bind_run. simpl. rewrite bind_run.
  unfold try_except, CFRDecompiler_init. rewrite bind_run. simpl.
  assert (exists_ (w_fs w) (Path cfr_path) = true) as ->.
  { unfold is_file, exists_ in *. by destruct (w_fs w !! Path cfr_path) as [[f|]|]. }
  simpl. do 4 (rewrite bind_run; simpl). rewrite bind_run.
  erewrite input_Line by done.
  apply String.eqb_neq in H1, H2, H3. rewrite H1, H2, H3.
  eexists. split; [done|]. simpl. split; [done|]. by rewrite last_last.
Qed.
End entry.


(** ** The pipelines, stage by stage *)

Lemma bind_Ok_intro {A B} (m : M A) (k : A → M B) w a w1 b w' :
  m w = Ok a w1 → k a w1 = Ok b w' → (m ≫= k) w = Ok b w'.
Proof. intros Hm Hk. apply bind_Ok. by exists a, w1. Qed.

Lemma bind_Raise_later {A B} (m : M A) (k : A → M B) w a w1 e w' :
  m w = Ok a w1 → k a w1 = Raise e w' → (m ≫= k) w = Raise e w'.
Proof. intros Hm Hk. apply bind_Raise. right. by exists a, w1. Qed.

Lemma print_run s w :
  print s w = Ok tt {| w_fs := w_fs w; w_clock := w_clock w;
                       w_stdout := w_stdout w ++ [s]; w_stdin := w_stdin w |}.
Proof. reflexivity. Qed.

Section stages.
Context (java : list string → tree → launch) (tmp_name : string)
        (decode_utf8_ignore : string → string).

Local Abbreviation tmp := (tmp_dir tmp_name).
Local Abbreviation mode_1 := (mode_1_inplace java tmp_name decode_utf8_ignore).
Local Abbreviation mode_2 := (mode_2_to_folder java decode_utf8_ignore).
Local Abbreviation mode_3 := (mode_3_gradle_project java tmp_name decode_utf8_ignore).
Local Abbreviation run_cfr := (_run_cfr java decode_utf8_ignore).

Lemma inplace_unpacked_Ok self jar w w1 :
  inplace_unpacked tmp_name self jar w = Ok tt w1 →
  ∃ w0 wt, print ("[*] Mode 1: Updating " +:+ name jar +:+ "...") w = Ok tt w0
           ∧ mkdtemp tmp_name w0 = Ok tmp wt
           ∧ _extract_jar_contents self jar tmp wt = Ok tt w1.
Proof.
  unfold inplace_unpacked.
  intros ([] & w0 & Hp & (d & wt & Hmk & Hex)%bind_Ok)%bind_Ok.
  pose proof Hmk as Hmk0. apply mkdtemp_Ok in Hmk0 as (-> & _). by exists w0, wt.
Qed.

(** Inplace: a decompiler failure leaves the block at once. *)
Lemma mode_1_decompiler_raises self jar w w1 e w2 :
  inplace_unpacked tmp_name self jar w = Ok tt w1 →
  run_cfr self jar tmp w1 = Raise e w2 →
  mode_1 self jar w = Raise e (cleanup tmp w2).
Proof.
  intros (w0 & wt & Hp & Hmk & Hex)%inplace_unpacked_Ok Hcfr.
  unfold mode_1_inplace. eapply bind_Raise_later; [exact Hp|].
  apply bind_Raise. left. rewrite with_TemporaryDirectory_run, Hmk.
  rewrite bind_run, Hex, bind_run, Hcfr. done.
Qed.

Lemma mode_1_Ok self jar w w' :
  mode_1 self jar w = Ok tt w' →
  ∃ w3 w4, inplace_pruned java tmp_name decode_utf8_ignore self jar w = Ok tt w3
           ∧ inplace_repack jar tmp w3 = Ok tt w4
           ∧ print ("[+] Done! " +:+ name jar +:+ " updated with sources.")
                   (cleanup tmp w4) = Ok tt w'.
Proof.
  unfold mode_1_inplace.
  intros ([] & w0 & Hp & ([] & wc & Htd & Hdone)%bind_Ok)%bind_Ok.
  rewrite with_TemporaryDirectory_run in Htd.
  destruct (mkdtemp tmp_name w0) as [d wt|] eqn:Hmk; [|done].
  pose proof Hmk as Hmk0. apply mkdtemp_Ok in Hmk0 as (-> & _).
  match type of Htd with match ?body with _ => _ end = _ =>
    destruct body as [[] w4|] eqn:Hbody; [|done] end.
  injection Htd as <-.
  apply bind_Ok in Hbody as ([] & w1 & Hex & Hbody).
  apply bind_Ok in Hbody as ([] & w2 & Hcfr & Hbody).
  apply bind_Ok in Hbody as ([] & w3 & Hrm & Hbody).
  exists w3, w4. split; [|by split].
  unfold inplace_pruned, inplace_unpacked.
  eapply bind_Ok_intro; [|eapply bind_Ok_intro; [exact Hcfr|exact Hrm]].
  eapply bind_Ok_intro; [exact Hp|]. eapply bind_Ok_intro; [exact Hmk|exact Hex].
Qed.

Lemma mode_2_decompiler_raises self jar out w w1 e w2 :
  export_unpacked self jar out w = Ok tt w1 →
  run_cfr self jar out w1 = Raise e w2 →
  mode_2 self jar out w = Raise e w2.
Proof.
  unfold export_unpacked.
  intros ([] & wa & Hmk & ([] & wb & Hp & Hex)%bind_Ok)%bind_Ok Hcfr.
  unfold mode_2_to_folder.
  eapply bind_Raise_later; [exact Hmk|]. eapply bind_Raise_later; [exact Hp|].
  eapply bind_Raise_later; [exact Hex|]. apply bind_Raise. by left.
Qed.

Lemma mode_2_Ok self jar out w w' :
  mode_2 self jar out w = Ok tt w' →
  ∃ w3, export_pruned java decode_utf8_ignore self jar out w = Ok tt w3
        ∧ print ("[+] Done! Files saved to '" +:+ str out +:+ "'.") w3 = Ok tt w'.
Proof.
  unfold mode_2_to_folder.
  intros ([] & wa & Hmk & ([] & wb & Hp & ([] & w1 & Hex
          & ([] & w2 & Hcfr & ([] & w3 & Hrm & Hdone)%bind_Ok)%bind_Ok)%bind_Ok)%bind_Ok)%bind_Ok.
  exists w3. split; [|done].
  unfold export_pruned, export_unpacked.
  eapply bind_Ok_intro; [|eapply bind_Ok_intro; [exact Hcfr|exact Hrm]].
  eapply bind_Ok_intro; [exact Hmk|]. eapply bind_Ok_intro; [exact Hp|exact Hex].
Qed.

Lemma mode_3_decompiler_raises self jar proj w w1 e w2 :
  scaffold_prepared proj w = Ok tt w1 →
  run_cfr self jar (proj ++ ["src"; "main"; "java"]) w1 = Raise e w2 →
  mode_3 self jar proj w = Raise e w2.
Proof.
  unfold scaffold_prepared.
  intros ([] & wa & Hmk & ([] & wb & Hmk' & Hp)%bind_Ok)%bind_Ok Hcfr.
  unfold mode_3_gradle_project.
  eapply bind_Raise_later; [exact Hmk|]. eapply bind_Raise_later; [exact Hmk'|].
  eapply bind_Raise_later; [exact Hp|]. apply bind_Raise. by left.
Qed.

Lemma mode_3_Ok self jar proj w w' :
  mode_3 self jar proj w = Ok tt w' →
  ∃ w3 w4 w5,
    scaffold_pruned java tmp_name decode_utf8_ignore self jar proj w = Ok tt w3
    ∧ scaffold_copy proj tmp w3 = Ok tt w4
    ∧ open_write (proj ++ ["build.gradle"]) (Bytes build_gradle_content)
                 (cleanup tmp w4) = Ok tt w5
    ∧ print ("[+] Done! Project ready at '" +:+ str proj +:+ "'.") w5 = Ok tt w'.
Proof.
  unfold mode_3_gradle_project.
  intros ([] & wa & Hmk & ([] & wb & Hmk' & ([] & w1 & Hp
          & ([] & w2 & Hcfr & ([] & wc & Htd & ([] & w5 & Hgradle & Hdone)
             %bind_Ok)%bind_Ok)%bind_Ok)%bind_Ok)%bind_Ok)%bind_Ok.
  rewrite with_TemporaryDirectory_run in Htd.
  destruct (mkdtemp tmp_name w2) as [d wt|] eqn:Htmp; [|done].
  pose proof Htmp as Htmp0. apply mkdtemp_Ok in Htmp0 as (-> & _).
  match type of Htd with match ?body with _ => _ end = _ =>
    destruct body as [[] w4|] eqn:Hbody; [|done] end.
  injection Htd as <-.
  apply bind_Ok in Hbody as ([] & wx & Hex & Hbody).
  apply bind_Ok in Hbody as ([] & w3 & Hrm & Hbody).
  exists w3, w4, w5. split; [|by repeat split].
  unfold scaffold_pruned, scaffold_prepared.
  eapply bind_Ok_intro.
  { eapply bind_Ok_intro; [exact Hmk|]. eapply bind_Ok_intro; [exact Hmk'|exact Hp]. }
  eapply bind_Ok_intro; [exact Hcfr|]. eapply bind_Ok_intro; [exact Htmp|].
  eapply bind_Ok_intro; [exact Hex|exact Hrm].
Qed.
End stages.

(** ** The decompiler invoker: claims C3 and C2 *)

Global Instance keeps_po p : PreOrder (keeps p).
Proof.
  split.
  - by intros w n.
  - intros w1 w2 w3 H12 H23 n Hn. by apply H23, H12.
Qed.

Lemma alters_keeps (W : path → Prop) p w w' : ¬ W p → alters W w w' → keeps p w w'.
Proof. intros HW Hch n Hn. by eapply changes_keeps. Qed.

Section invoker.
Context (java : list string → tree → launch) (decode_utf8_ignore : string → string).

Local Abbreviation run_cfr := (_run_cfr java decode_utf8_ignore).

Lemma run_cfr_run self jar out w :
  run_cfr self jar out w =
  let w0 := {| w_fs := w_fs w; w_clock := w_clock w;
               w_stdout := w_stdout w ++ [running_line jar];
               w_stdin := w_stdin w |} in
  match java (cfr_command self jar out) (w_fs w) with
  | NotStarted => Raise (OSError ENOENT (strerror ENOENT +:+ ": 'java'")) w0
  | Interrupted => Raise KeyboardInterrupt w0
  | Exited cp =>
      let t := emit (w_clock w) out (emitted cp) (w_fs w) in
      if (returncode cp =? 0)%Z
      then Ok tt {| w_fs := t; w_clock := S (w_clock w);
                    w_stdout := w_stdout w ++ [running_line jar];
                    w_stdin := w_stdin w |}
      else Raise (CalledProcessError (returncode cp) (cfr_command self jar out)
                                     (stderr_bytes cp))
                 {| w_fs := t; w_clock := S (w_clock w);
                    w_stdout := (w_stdout w ++ [running_line jar])
                                ++ ["[!] Decompilation error: "
                                    +:+ decode_utf8_ignore (stderr_bytes cp)];
                    w_stdin := w_stdin w |}
  end.
Proof.
  unfold _run_cfr. rewrite bind_run, print_run.
  unfold try_except, subprocess_run_check. simpl.
  fold (cfr_command self jar out).
  destruct (java (cfr_command self jar out) (w_fs w)) as [cp| |]; [|done|done].
  by destruct (returncode cp =? 0)%Z.
Qed.
End invoker.

(** C3, amended.  The invoker returns normally exactly when the
    decompiler process was started and exited with status zero.  When
    the process exits with another status, [CalledProcessError] is raised
    after the captured standard error, decoded, has been printed.  When
    the process cannot be started, or the wait for it is interrupted, the
    exception of [subprocess.run] passes through and nothing more is
    printed.  In every mode, an exception of the invoker ends the pipeline
    with that exception. *)
Theorem invoker_raises_unless_exit_zero
    (java : list string → tree → launch) (tmp_name : string)
    (decode_utf8_ignore : string → string) (self : CFRDecompiler) (jar_path : path) :
  let run_cfr := _run_cfr java decode_utf8_ignore self jar_path in
  (∀ out w,
     returns (run_cfr out w) = false
     ↔ ¬ ∃ cp, java (cfr_command self jar_path out) (w_fs w) = Exited cp
               ∧ returncode cp = 0%Z)
  ∧ (∀ out w cp,
       java (cfr_command self jar_path out) (w_fs w) = Exited cp →
       returncode cp ≠ 0%Z →
       ∃ w', run_cfr out w
             = Raise (CalledProcessError (returncode cp) (cfr_command self jar_path out)
                                         (stderr_bytes cp)) w'
             ∧ List.last (w_stdout w') ""
               = "[!] Decompilation error: " +:+ decode_utf8_ignore (stderr_bytes cp))
  ∧ (∀ out w,
       java (cfr_command self jar_path out) (w_fs w) = NotStarted
       ∨ java (cfr_command self jar_path out) (w_fs w) = Interrupted →
       ∃ e w', run_cfr out w = Raise e w'
               ∧ is_CalledProcessError e = false
               ∧ w_fs w' = w_fs w
               ∧ w_stdout w' = w_stdout w ++ [running_line jar_path])
  ∧ (∀ w w1 e w2,
       inplace_unpacked tmp_name self jar_path w = Ok tt w1 →
       run_cfr (tmp_dir tmp_name) w1 = Raise e w2 →
       mode_1_inplace java tmp_name decode_utf8_ignore self jar_path w
       = Raise e (cleanup (tmp_dir tmp_name) w2))
  ∧ (∀ out w w1 e w2,
       export_unpacked self jar_path out w = Ok tt w1 →
       run_cfr out w1 = Raise e w2 →
       mode_2_to_folder java decode_utf8_ignore self jar_path out w = Raise e w2)
  ∧ (∀ proj w w1 e w2,
       scaffold_prepared proj w = Ok tt w1 →
       run_cfr (proj ++ ["src"; "main"; "java"]) w1 = Raise e w2 →
       mode_3_gradle_project java tmp_name decode_utf8_ignore self jar_path proj w
       = Raise e w2).
Proof.
  intros run_cfr. subst run_cfr.
  split; [|split; [|split; [|split; [|split]]]].
  - intros out w. rewrite run_cfr_run. simpl.
    destruct (java _ _) as [cp| |] eqn:Hjava.
    + destruct (returncode cp =? 0)%Z eqn:Hrc; simpl.
      * apply Z.eqb_eq in Hrc. split; [done|]. intros []. by exists cp.
      * apply Z.eqb_neq in Hrc. split; [|done]. intros _ (cp' & [= <-] & ?). done.
    + simpl. split; [|done]. by intros _ (cp' & [=] & _).
    + simpl. split; [|done]. by intros _ (cp' & [=] & _).
  - intros out w cp Hjava Hrc. rewrite run_cfr_run. simpl. rewrite Hjava.
    apply Z.eqb_neq in Hrc. rewrite Hrc. eexists. split; [done|]. simpl.
    by rewrite last_last.
  - intros out w Hjava. rewrite run_cfr_run. simpl.
    destruct Hjava as [->| ->]; by eexists _, _.
  - intros w w1 e w2. apply mode_1_decompiler_raises.
  - intros out w w1 e w2. apply mode_2_decompiler_raises.
  - intros proj w w1 e w2. apply mode_3_decompiler_raises.
Qed.

(** C2.  In Inplace mode the archive is not touched before the
    repackaging step.  When the decompiler invocation raises, the
    pipeline ends with that exception once the temporary directory is
    removed, and the archive is the file it was: same content, same
    attributes, same modification time.  And in a run that gets as far as
    the end of the cleaner, the archive is still that file then. *)
Theorem inplace_failure_leaves_archive
    (java : list string → tree → launch) (tmp_name : string)
    (decode_utf8_ignore : string → string) (self : CFRDecompiler) (jar_path : path)
    (w : world) (archive : file) :
  w_fs w !! jar_path = Some (File archive) →
  (∀ w1 e w2,
     inplace_unpacked tmp_name self jar_path w = Ok tt w1 →
     _run_cfr java decode_utf8_ignore self jar_path (tmp_dir tmp_name) w1 = Raise e w2 →
     ∃ w', mode_1_inplace java tmp_name decode_utf8_ignore self jar_path w = Raise e w'
           ∧ w_fs w' !! jar_path = Some (File archive))
  ∧ (∀ w3,
       inplace_pruned java tmp_name decode_utf8_ignore self jar_path w = Ok tt w3 →
       w_fs w3 !! jar_path = Some (File archive)).
Proof.
  intros Hjar.
  set (W := λ p : path, tmp_dir tmp_name `prefix_of` p).
  assert (∀ w1, inplace_unpacked tmp_name self jar_path w = Ok tt w1 →
                ¬ W jar_path ∧ keeps jar_path w w1) as Hunpacked.
  { intros w1 (w0 & wt & Hp & Hmk & Hex)%inplace_unpacked_Ok.
    injection Hp as <-. apply mkdtemp_Ok in Hmk as (_ & Hvac & ->).
    cbn [w_fs] in Hvac.
    assert (¬ W jar_path) as Hout.
    { intros Hpre. rewrite vacant_spec in Hvac. apply Hvac in Hpre. congruence. }
    split; [done|].
    etrans; [|eapply (alters_keeps W); [done|];
                eapply respects_Ok; [apply _|by apply alters_extract_jar_contents|done]].
    intros n Hn. cbn [w_fs]. rewrite lookup_insert_ne; [done|].
    intros Heq. apply Hout. unfold W. by rewrite Heq. }
  split.
  - intros w1 e w2 Hstage Hcfr.
    eexists. split; [by eapply mode_1_decompiler_raises|].
    destruct (Hunpacked w1 Hstage) as [Hout H1].
    assert (keeps jar_path w1 w2) as H2.
    { eapply (alters_keeps W); [done|].
      eapply respects_Raise; [apply _|by apply alters_run_cfr|done]. }
    assert (keeps jar_path w2 (cleanup (tmp_dir tmp_name) w2)) as H3.
    { eapply (alters_keeps W); [done|]. by apply alters_cleanup. }
    by apply H3, H2, H1.
  - intros w3. unfold inplace_pruned.
    intros ([] & w1 & Hstage & ([] & w2 & Hcfr & Hrm)%bind_Ok)%bind_Ok.
    destruct (Hunpacked w1 Hstage) as [Hout H1].
    assert (keeps jar_path w1 w2) as H2.
    { eapply (alters_keeps W); [done|].
      eapply respects_Ok; [apply _|by apply alters_run_cfr|done]. }
    assert (keeps jar_path w2 w3) as H3.
    { eapply (alters_keeps W); [done|].
      eapply respects_Ok; [apply _| |done].
      apply alters_remove_class_files. by intros p [? _] _. }
    by apply H3, H2, H1.
Qed.

(** ** The archive under Export and ProjectScaffold: claim C9 *)

Lemma respects_keeps (W : path → Prop) p {A} (m : M A) :
  ¬ W p → respects (alters W) m → respects (keeps p) m.
Proof. intros HW Hm w. by eapply alters_keeps. Qed.

Section archive.
Context (java : list string → tree → launch) (tmp_name : string)
        (decode_utf8_ignore : string → string).

Local Abbreviation tmp := (tmp_dir tmp_name).

Lemma alters_mode_2 (W : path → Prop) self jar out :
  (∀ p, out `prefix_of` p → W p) →
  respects (alters W) (mode_2_to_folder java decode_utf8_ignore self jar out).
Proof.
  intros HW. unfold mode_2_to_folder.
  apply respects_bind; [apply _|apply alters_Path_mkdir|]. intros _.
  apply respects_bind; [apply _|apply alters_print|]. intros _.
  apply respects_bind; [apply _|by apply alters_extract_jar_contents|]. intros _.
  apply respects_bind; [apply _|by apply alters_run_cfr|]. intros _.
  apply respects_bind; [apply _| |intros _; apply alters_print].
  apply alters_remove_class_files. intros p [Hpre _] _. by apply HW.
Qed.

Lemma keeps_with_TemporaryDirectory jar {A} (body : path → M A) :
  (¬ tmp `prefix_of` jar → respects (keeps jar) (body tmp)) →
  respects (keeps jar) (with_TemporaryDirectory tmp_name body).
Proof.
  intros Hbody w n Hn. rewrite with_TemporaryDirectory_run.
  destruct (mkdtemp tmp_name w) as [d w1|e w1] eqn:Hmk; simpl.
  - apply mkdtemp_Ok in Hmk as (-> & Hvac & ->).
    assert (¬ tmp `prefix_of` jar) as Hout.
    { intros Hpre. rewrite vacant_spec in Hvac. apply Hvac in Hpre. congruence. }
    specialize (Hbody Hout).
    match goal with |- context [body tmp ?w1] =>
      specialize (Hbody w1 n); destruct (body tmp w1) as [a w2|e w2] end;
      simpl in *; rewrite lookup_rmtree, decide_False by done;
      apply Hbody; rewrite lookup_insert_ne; [done| |done|];
      intros Heq; apply Hout; by rewrite <- Heq.
  - apply mkdtemp_Raise in Hmk as ->. done.
Qed.

Lemma keeps_mode_3 self jar proj :
  ¬ proj `prefix_of` jar →
  respects (keeps jar) (mode_3_gradle_project java tmp_name decode_utf8_ignore self jar proj).
Proof.
  intros Hout. unfold mode_3_gradle_project.
  set (W := λ p : path, proj `prefix_of` p).
  assert (∀ rest p, proj ++ rest `prefix_of` p → W p) as Hsub.
  { intros rest p Hp. by eapply prefix_app_l. }
  apply respects_bind; [apply _| |intros _].
  { apply (respects_keeps W); [done|apply alters_Path_mkdir]. }
  apply respects_bind; [apply _| |intros _].
  { apply (respects_keeps W); [done|apply alters_Path_mkdir]. }
  apply respects_bind; [apply _| |intros _].
  { apply (respects_keeps W); [done|apply alters_print]. }
  apply respects_bind; [apply _| |intros _].
  { apply (respects_keeps W); [done|]. apply alters_run_cfr. apply Hsub. }
  apply respects_bind; [apply _| |intros _].
  - apply keeps_with_TemporaryDirectory. intros Htmp.
    set (W' := λ p : path, tmp `prefix_of` p ∨ proj `prefix_of` p).
    apply (respects_keeps W'); [by intros [?|?]|].
    apply respects_bind; [apply _| |intros _].
    { apply alters_extract_jar_contents. by left. }
    apply respects_bind; [apply _| |intros _].
    { apply alters_remove_class_files. intros p [? _] _. by left. }
    apply respects_bind_dep; [apply _|apply respects_os_walk_files; apply _|].
    intros files w w1 _. apply respects_for_each; [apply _|]. intros src _.
    apply respects_bind; [apply _|apply alters_Path_mkdir|intros _].
    apply alters_shutil_copy2; right.
    + rewrite <- app_assoc. by apply prefix_app_r.
    + rewrite <- !app_assoc. by apply prefix_app_r.
  - apply respects_bind; [apply _| |intros _].
    + apply (respects_keeps W); [done|]. apply alters_open_write.
      by apply prefix_app_r.
    + apply (respects_keeps W); [done|apply alters_print].
Qed.
End archive.


(** ** Inplace repackaging: claim C4 *)

Lemma elem_of_archived base t entries m :
  m ∈ archived base t entries ↔
  ∃ p f, p ∈ entries ∧ t !! p = Some (File f)
         ∧ m = Member (relative_to p base) (f_content f) true.
Proof.
  unfold archived. rewrite list_elem_of_In, in_flat_map. split.
  - intros (p & Hp%list_elem_of_In & Hm). destruct (t !! p) as [[f|]|] eqn:Hlook; try done.
    destruct Hm as [<-|[]]. by exists p, f.
  - intros (p & f & Hp & Hlook & ->). exists p. split; [by apply list_elem_of_In|].
    rewrite Hlook. by left.
Qed.

Lemma NoDup_archived_names base t entries :
  NoDup entries → (∀ p, p ∈ entries → below base p) →
  NoDup (m_name <$> archived base t entries).
Proof.
  induction 1 as [|p rest Hp _ IH]; intros Hbelow; [constructor|].
  assert (NoDup (m_name <$> archived base t rest)) as Hrest.
  { apply IH. intros q Hq. apply Hbelow. by right. }
  unfold archived in *. simpl. destruct (t !! p) as [[f|]|]; [|done|done].
  simpl. constructor; [|done].
  intros (m & Hname & Hm)%list_elem_of_fmap.
  apply (elem_of_archived base t rest) in Hm as (q & g & Hq & _ & ->). simpl in Hname.
  apply Hp.
  destruct (below_relative base p) as [-> _]; [apply Hbelow; by left|].
  destruct (below_relative base q) as [Eq _]; [apply Hbelow; by right|].
  by rewrite Hname, <- Eq.
Qed.

Section repack.
Context (jar base : path).

Local Abbreviation add_entry :=
  (λ file_path : path,
     regular ← Path_is_file file_path;
     when regular
       (let arcname := relative_to file_path base in
        zipf_write jar file_path arcname)).

Lemma add_entry_run p w z members :
  p ≠ jar →
  w_fs w !! jar = Some (File z) → f_content z = Zip members →
  ∃ w' z', add_entry p w = Ok tt w'
           ∧ w_fs w' !! jar = Some (File z')
           ∧ f_content z' = Zip (members ++ archived base (w_fs w) [p])
           ∧ (∀ q, q ≠ jar → w_fs w' !! q = w_fs w !! q)
           ∧ w_stdout w' = w_stdout w.
Proof.
  intros Hne Hjar Hzip. cbv beta. rewrite bind_run.
  unfold Path_is_file, is_file, archived. simpl.
  destruct (w_fs w !! p) as [[f|]|] eqn:Hp; simpl.
  - unfold zipf_write, on_tree, tree_zip_append. rewrite Hp, Hjar, Hzip.
    eexists _, _. split; [done|]. simpl. rewrite lookup_insert_eq.
    split; [done|]. split; [done|]. split; [|done].
    intros q Hq. by rewrite lookup_insert_ne.
  - exists w, z. rewrite app_nil_r. by repeat split.
  - exists w, z. rewrite app_nil_r. by repeat split.
Qed.

Lemma add_entries_run entries : ∀ w z members,
  jar ∉ entries →
  w_fs w !! jar = Some (File z) → f_content z = Zip members →
  ∃ w' z', for_each entries add_entry w = Ok tt w'
           ∧ w_fs w' !! jar = Some (File z')
           ∧ f_content z' = Zip (members ++ archived base (w_fs w) entries)
           ∧ (∀ q, q ≠ jar → w_fs w' !! q = w_fs w !! q)
           ∧ w_stdout w' = w_stdout w.
Proof.
  induction entries as [|p rest IH]; intros w z members Hnotin Hjar Hzip.
  - exists w, z. rewrite app_nil_r. by repeat split.
  - apply not_elem_of_cons in Hnotin as [Hne Hrest].
    destruct (add_entry_run p w z members) as (w1 & z1 & Hrun1 & Hjar1 & Hzip1 & Hfs1 & Hout1);
      [done..|].
    destruct (IH w1 z1 _ Hrest Hjar1 Hzip1) as (w' & z' & Hrun & Hjar' & Hzip' & Hfs & Hout).
    exists w', z'. split; [by rewrite for_each_cons, bind_run, Hrun1|].
    split; [done|]. split; [|split; [|congruence]].
    + rewrite Hzip'. unfold archived. simpl. rewrite app_nil_r, <- app_assoc.
      do 3 f_equal. apply flat_map_ext_elem. intros q Hq. rewrite Hfs1; [done|].
      intros ->. done.
    + intros q Hq. by rewrite Hfs, Hfs1.
Qed.

Lemma inplace_repack_Ok w w' :
  ¬ base `prefix_of` jar →
  inplace_repack jar base w = Ok tt w' →
  ∃ z' members,
    w_fs w' !! jar = Some (File z') ∧ f_content z' = Zip members
    ∧ (∀ q, q ≠ jar → w_fs w' !! q = w_fs w !! q)
    ∧ w_stdout w' = w_stdout w
    ∧ NoDup (m_name <$> members)
    ∧ ∀ m, m ∈ members ↔
           ∃ p f, below base p ∧ w_fs w !! p = Some (File f)
                  ∧ m = Member (relative_to p base) (f_content f) true.
Proof.
  intros Hout. unfold inplace_repack, ZipFile_create, open_write.
  intros ([] & w1 & (t & Hcreate & ->)%on_tree_Ok
          & (entries & w2 & (-> & Hnodup & Hentries)%Path_rglob_Ok & Hloop)%bind_Ok)%bind_Ok.
  cbn [w_fs] in Hentries.
  assert (∃ z0, t = <[jar := File z0]> (w_fs w) ∧ f_content z0 = Zip []) as (z0 & -> & Hz0).
  { unfold tree_write in Hcreate. destruct (w_fs w !! jar) as [[f|]|].
    - destruct (f_readonly f); [done|]. injection Hcreate as <-. by eexists.
    - done.
    - destruct (w_fs w !! parent jar) as [[f|]|]; [done| |done].
      injection Hcreate as <-. by eexists. }
  assert (jar ∉ entries) as Hnotin.
  { intros (_ & [Hpre _] & _)%Hentries. done. }
  match type of Hloop with for_each _ _ ?w1 = _ =>
    destruct (add_entries_run entries w1 z0 [] Hnotin)
      as (w'' & z' & Hrun & Hjar' & Hzip' & Hfs & Hstd);
      [apply lookup_insert_eq|exact Hz0|] end.
  pose proof (eq_trans (eq_sym Hrun) Hloop) as [= ->]. clear Hrun.
  exists z', (archived base (<[jar:=File z0]> (w_fs w)) entries). cbn [w_fs w_stdout] in *.
  split; [done|]. split; [done|]. split; [|split; [done|split]].
  { intros q Hq. rewrite Hfs by done. by rewrite lookup_insert_ne. }
  { apply NoDup_archived_names; [done|]. by intros p (_ & ? & _)%Hentries. }
  intros m. rewrite elem_of_archived. split.
  - intros (p & f & (_ & Hbelow & _)%Hentries & Hlook & ->).
    assert (p ≠ jar) by (intros ->; by destruct Hbelow).
    rewrite lookup_insert_ne in Hlook by done. by exists p, f.
  - intros (p & f & Hbelow & Hlook & ->).
    assert (p ≠ jar) by (intros ->; by destruct Hbelow).
    exists p, f. split; [|split; [by rewrite lookup_insert_ne|done]].
    apply Hentries. rewrite lookup_insert_ne by done. rewrite Hlook.
    split; [by eexists|]. split; [done|]. apply fnmatch_any.
Qed.
End repack.

Section inplace.
Context (java : list string → tree → launch) (tmp_name : string)
        (decode_utf8_ignore : string → string).

Local Abbreviation tmp := (tmp_dir tmp_name).

Lemma inplace_pruned_Ok self jar w w3 :
  inplace_pruned java tmp_name decode_utf8_ignore self jar w = Ok tt w3 →
  ∃ w1 w2, inplace_unpacked tmp_name self jar w = Ok tt w1
           ∧ _run_cfr java decode_utf8_ignore self jar tmp w1 = Ok tt w2
           ∧ _remove_class_files self tmp w2 = Ok tt w3.
Proof.
  unfold inplace_pruned.
  intros ([] & w1 & H1 & ([] & w2 & H2 & H3)%bind_Ok)%bind_Ok. by exists w1, w2.
Qed.

(** The temporary directory is new: what exists before the run is
    not inside it. *)
Lemma inplace_unpacked_outside self jar w w1 p :
  inplace_unpacked tmp_name self jar w = Ok tt w1 →
  is_Some (w_fs w !! p) → ¬ tmp `prefix_of` p.
Proof.
  intros (w0 & wt & [= <-] & (_ & Hvac & _)%mkdtemp_Ok & _)%inplace_unpacked_Ok [n Hn] Hpre.
  rewrite vacant_spec in Hvac. apply Hvac in Hpre. simpl in Hpre. congruence.
Qed.
End inplace.


(** ** No compiled class left: claim C1 *)

Global Instance class_files_from_po : PreOrder (class_files_from (λ _, False)).
Proof.
  split.
  - intros w p Hp _. by left.
  - intros w1 w2 w3 H12 H23 p Hp Hc.
    destruct (H23 p Hp Hc) as [Hp2|[]]. by apply H12.
Qed.

Lemma alters_class_files_from (W Z : path → Prop) w w' :
  (∀ p, W p → is_class_name (name p) = true → Z p) →
  alters W w w' → class_files_from Z w w'.
Proof.
  intros HWZ Hch p Hp Hc.
  destruct (changes_files W _ _ p Hch Hp) as [?|HW]; [by left|right; by apply HWZ].
Qed.

Lemma no_removal_warning_earlier w w' :
  stdout_grows w w' → no_removal_warning w' → no_removal_warning w.
Proof.
  intros [k Hk] Hno line Hline. apply Hno. rewrite Hk. apply elem_of_app. by left.
Qed.

(** When the cleaner has printed no warning, no compiled-class file is
    left below its directory. *)
Lemma pruned_no_class_file self d w w' :
  _remove_class_files self d w = Ok tt w' →
  no_removal_warning w' →
  no_class_file_below d (w_fs w').
Proof.
  intros Hrun Hno p Hbelow Hfile.
  destruct (remove_class_files_run self d w) as (w'' & Hrun' & Hfs & Hout & _).
  rewrite Hrun in Hrun'. injection Hrun' as <-.
  destruct (is_class_name (name p)) eqn:Hname; [exfalso|done].
  unfold is_file in Hfile. rewrite Hfs, decide_True in Hfile by done.
  destruct (w_fs w !! p) as [[f|]|] eqn:Hp; simpl in Hfile; [|done|done].
  destruct (f_locked f) eqn:Hlock; [|done].
  assert (removal_warning p (os_error EACCES p) ∈ w_stdout w') as Hin.
  { rewrite Hout. apply elem_of_app. right.
    apply list_elem_of_In, in_flat_map. exists p. split.
    - apply list_elem_of_In, elem_of_class_paths. by eauto.
    - rewrite Hp. simpl. rewrite Hlock. by left. }
  apply Hno in Hin. by rewrite is_removal_warning_yes in Hin.
Qed.

Lemma stdout_grows_on_tree_Ok op w w' : on_tree op w = Ok tt w' → w_stdout w' = w_stdout w.
Proof. by intros (t & _ & ->)%on_tree_Ok. Qed.

Lemma stdout_grows_scaffold_copy proj base : respects stdout_grows (scaffold_copy proj base).
Proof.
  unfold scaffold_copy.
  apply respects_bind; [apply _|apply respects_os_walk_files; apply _|]. intros files.
  apply respects_for_each; [apply _|]. intros src _.
  apply respects_bind; [apply _|apply respects_on_tree_stdout|]. intros _.
  apply respects_on_tree_stdout.
Qed.

Section outputs.
Context (java : list string → tree → launch) (tmp_name : string)
        (decode_utf8_ignore : string → string).

Local Abbreviation tmp := (tmp_dir tmp_name).

Lemma inplace_no_class_member self jar w w' :
  mode_1_inplace java tmp_name decode_utf8_ignore self jar w = Ok tt w' →
  no_removal_warning w' →
  no_class_member jar (w_fs w').
Proof.
  intros (w3 & w4 & Hpruned & Hrepack & [= <-])%mode_1_Ok Hno z members m Hz Hzip Hm.
  simpl in Hz. rewrite lookup_rmtree in Hz. case_decide as Hout; [done|].
  apply inplace_repack_Ok in Hrepack
    as (z' & members' & Hz' & Hzip' & _ & Hstd & _ & Hmembers);
    [|done].
  assert (members' = members) as -> by congruence.
  apply Hmembers in Hm as (p & f & Hbelow & Hp & ->). simpl.
  apply inplace_pruned_Ok in Hpruned as (w1 & w2 & _ & _ & Hrm).
  apply below_relative in Hbelow as Hrel. destruct Hrel as [Heq Hne].
  rewrite <- (name_app tmp) by done. rewrite <- Heq.
  eapply pruned_no_class_file; [exact Hrm| |done|by unfold is_file; rewrite Hp].
  intros line Hline. apply Hno. simpl. rewrite Hstd. apply elem_of_app. by left.
Qed.

Lemma export_pruned_Ok self jar out w w3 :
  export_pruned java decode_utf8_ignore self jar out w = Ok tt w3 →
  ∃ w1 w2, export_unpacked self jar out w = Ok tt w1
           ∧ _run_cfr java decode_utf8_ignore self jar out w1 = Ok tt w2
           ∧ _remove_class_files self out w2 = Ok tt w3.
Proof.
  unfold export_pruned.
  intros ([] & w1 & H1 & ([] & w2 & H2 & H3)%bind_Ok)%bind_Ok. by exists w1, w2.
Qed.

Lemma export_no_class_file self jar out w w' :
  mode_2_to_folder java decode_utf8_ignore self jar out w = Ok tt w' →
  no_removal_warning w' →
  no_class_file_below out (w_fs w').
Proof.
  intros (w3 & (w1 & w2 & _ & _ & Hrm)%export_pruned_Ok & [= <-])%mode_2_Ok Hno.
  simpl. eapply pruned_no_class_file; [exact Hrm|].
  intros line Hline. apply Hno. simpl. apply elem_of_app. by left.
Qed.

Lemma scaffold_pruned_Ok self jar proj w w3 :
  scaffold_pruned java tmp_name decode_utf8_ignore self jar proj w = Ok tt w3 →
  ∃ w1 w2 wt wx,
    scaffold_prepared proj w = Ok tt w1
    ∧ _run_cfr java decode_utf8_ignore self jar (proj ++ ["src"; "main"; "java"]) w1
      = Ok tt w2
    ∧ mkdtemp tmp_name w2 = Ok tmp wt
    ∧ _extract_jar_contents self jar tmp wt = Ok tt wx
    ∧ _remove_class_files self tmp wx = Ok tt w3.
Proof.
  unfold scaffold_pruned.
  intros ([] & w1 & H1 & ([] & w2 & H2 & (d & wt & Hmk & ([] & wx & Hex & Hrm)
          %bind_Ok)%bind_Ok)%bind_Ok)%bind_Ok.
  pose proof Hmk as (-> & _)%mkdtemp_Ok. by exists w1, w2, wt, wx.
Qed.

Lemma alters_scaffold_prepared W proj : respects (alters W) (scaffold_prepared proj).
Proof.
  unfold scaffold_prepared.
  apply respects_bind; [apply _|apply alters_Path_mkdir|]. intros _.
  apply respects_bind; [apply _|apply alters_Path_mkdir|]. intros _.
  apply alters_print.
Qed.

Lemma alters_scaffold_pruned (W : path → Prop) self jar proj w w3 :
  (∀ p, proj ++ ["src"; "main"; "java"] `prefix_of` p → W p) →
  (∀ p, tmp `prefix_of` p → W p) →
  scaffold_pruned java tmp_name decode_utf8_ignore self jar proj w = Ok tt w3 →
  alters W w w3.
Proof.
  intros Hjava Htmp (w1 & w2 & wt & wx & H1 & H2 & Hmk & Hex & Hrm)%scaffold_pruned_Ok.
  etrans; [eapply respects_Ok; [apply _|apply alters_scaffold_prepared|exact H1]|].
  etrans; [eapply respects_Ok;
             [apply _|apply (alters_run_cfr java decode_utf8_ignore W self jar _ Hjava)
             |exact H2]|].
  etrans; [eapply respects_Ok; [apply _|apply alters_mkdtemp|exact Hmk]|].
  etrans; [eapply respects_Ok;
             [apply _|apply (alters_extract_jar_contents W self jar _ Htmp)|exact Hex]|].
  eapply respects_Ok; [apply _| |exact Hrm].
  apply alters_remove_class_files. intros p [? _] _. by apply Htmp.
Qed.

Lemma scaffold_copy_class_files proj w3 w4 :
  no_class_file_below tmp (w_fs w3) →
  scaffold_copy proj tmp w3 = Ok tt w4 →
  class_files_from (λ _, False) w3 w4.
Proof.
  intros Hnone. unfold scaffold_copy.
  intros (files & w & (-> & _ & Hfiles)%os_walk_files_Ok & Hloop)%bind_Ok.
  eapply (alters_class_files_from (λ p, is_class_name (name p) = false)).
  { intros p Hp Hc. congruence. }
  eapply respects_Ok; [apply _| |exact Hloop].
  apply respects_for_each; [apply _|]. intros src [Hbelow Hfile]%Hfiles.
  apply below_relative in Hbelow as Hrel. destruct Hrel as [Heq Hne].
  assert (is_class_name (name src) = false) as Hsrc by by apply Hnone.
  apply respects_bind; [apply _|apply alters_Path_mkdir|]. intros _.
  apply alters_shutil_copy2.
  - rewrite name_app by done. rewrite <- (name_app tmp), <- Heq by done. done.
  - by rewrite name_snoc.
Qed.

Lemma scaffold_class_files self jar proj w w' :
  mode_3_gradle_project java tmp_name decode_utf8_ignore self jar proj w = Ok tt w' →
  no_removal_warning w' →
  class_files_from (λ p, proj ++ ["src"; "main"; "java"] `prefix_of` p) w w'.
Proof.
  intros (w3 & w4 & w5 & Hpruned & Hcopy & Hgradle & [= <-])%mode_3_Ok Hno.
  assert (no_removal_warning w3) as Hno3.
  { eapply no_removal_warning_earlier; [|exact Hno].
    etrans; [eapply respects_Ok; [apply _|apply stdout_grows_scaffold_copy|exact Hcopy]|].
    pose proof (stdout_grows_on_tree_Ok _ _ _ Hgradle) as Hstd.
    unfold stdout_grows. simpl. rewrite Hstd. simpl. by apply prefix_app_r. }
  assert (no_class_file_below tmp (w_fs w3)) as Hnone.
  { pose proof Hpruned as (w1 & w2 & wt & wx & _ & _ & _ & _ & Hrm)%scaffold_pruned_Ok.
    by eapply pruned_no_class_file. }
  intros p Hfile Hclass. simpl in Hfile.
  (* the build descriptor *)
  unfold open_write in Hgradle. apply on_tree_Ok in Hgradle as (t5 & Hwrite & ->).
  simpl in *.
  assert (is_file (tree_rmtree tmp (w_fs w4)) p = true) as Hfile4.
  { destruct (changes_files (λ q, q = proj ++ ["build.gradle"]) _ _ p
                (tree_write_changes _ _ _ _ _ _ eq_refl Hwrite) Hfile) as [?| ->]; [done|].
    by rewrite name_snoc in Hclass. }
  (* the temporary directory is gone *)
  unfold is_file in Hfile4. rewrite lookup_rmtree in Hfile4.
  case_decide as Htmp; [done|]. fold (is_file (w_fs w4) p) in Hfile4.
  (* the copies have the names of what the cleaner left *)
  destruct (scaffold_copy_class_files proj w3 w4 Hnone Hcopy p Hfile4 Hclass)
    as [Hfile3|[]].
  (* before the copy: the decompiler's output and the temporary tree *)
  destruct (alters_class_files_from
              (λ q, proj ++ ["src"; "main"; "java"] `prefix_of` q ∨ tmp `prefix_of` q)
              (λ q, proj ++ ["src"; "main"; "java"] `prefix_of` q ∨ tmp `prefix_of` q)
              w w3 (λ _ H _, H)
              (alters_scaffold_pruned _ self jar proj w w3
                 (λ _ H, or_introl H) (λ _ H, or_intror H) Hpruned)
              p Hfile3 Hclass) as [?|[?|?]]; [by left|by right|done].
Qed.
End outputs.


(** ** The temporary tree is a tree *)

Lemma parent_ne (p : path) : p ≠ [] → parent p ≠ p.
Proof.
  intros Hp Heq. rewrite (path_snoc_inv p Hp) in Heq at 2.
  apply (f_equal length) in Heq. rewrite length_app in Heq. simpl in Heq. lia.
Qed.

Lemma below_nonempty (d q : path) : below d q → q ≠ [].
Proof. intros (c & rest & ->)%below_inv. by destruct d. Qed.

Lemma sound_below_insert_dir d t q :
  sound_below d t → t !! q = None → (below d q → t !! parent q = Some Dir) →
  sound_below d (<[q := Dir]> t).
Proof.
  intros Hs Hq Hpar r Hr [n Hn].
  destruct (decide (r = q)) as [->|Hne].
  - rewrite lookup_insert_ne; [by apply Hpar|].
    intros Heq. apply Hpar in Hr. congruence.
  - rewrite lookup_insert_ne in Hn by done.
    destruct (decide (q = parent r)) as [->|Hne'].
    + by rewrite lookup_insert_eq.
    + rewrite lookup_insert_ne by done. apply Hs; [done|by eexists].
Qed.

Lemma sound_below_insert_file d t q f :
  sound_below d t →
  (is_file t q = true ∨ (t !! q = None ∧ t !! parent q = Some Dir)) →
  sound_below d (<[q := File f]> t).
Proof.
  intros Hs Hq r Hr [n Hn].
  destruct (decide (r = q)) as [->|Hne].
  - assert (t !! parent q = Some Dir) as Hpar.
    { destruct Hq as [Hq|[_ ?]]; [|done]. apply Hs; [done|].
      unfold is_file in Hq. destruct (t !! q); [by eexists|done]. }
    rewrite lookup_insert_ne; [done|]. intros Heq. rewrite <- Heq in Hpar.
    destruct Hq as [Hq|[Hq _]]; [|congruence].
    unfold is_file in Hq. by rewrite Hpar in Hq.
  - rewrite lookup_insert_ne in Hn by done.
    assert (t !! parent r = Some Dir) as Hpar by (apply Hs; [done|by eexists]).
    rewrite lookup_insert_ne; [done|]. intros Heq. rewrite <- Heq in Hpar.
    destruct Hq as [Hq|[Hq _]]; [|congruence].
    unfold is_file in Hq. by rewrite Hpar in Hq.
Qed.

Lemma sound_below_delete_file d t q :
  sound_below d t → is_file t q = true → sound_below d (delete q t).
Proof.
  intros Hs Hq r Hr [n Hn].
  destruct (decide (r = q)) as [->|Hne]; [by rewrite lookup_delete_eq in Hn|].
  rewrite lookup_delete_ne in Hn by done.
  assert (t !! parent r = Some Dir) as Hpar by (apply Hs; [done|by eexists]).
  rewrite lookup_delete_ne; [done|]. intros Heq. rewrite <- Heq in Hpar.
  unfold is_file in Hq. by rewrite Hpar in Hq.
Qed.

Lemma makedirs_sound d rest : ∀ base t t',
  makedirs base rest t = inr t' →
  sound_below d t →
  (∀ c, below d (base ++ [c]) → t !! base = Some Dir) →
  sound_below d t'.
Proof.
  induction rest as [|c rest IH]; intros base t t'; simpl.
  - by intros [= <-].
  - destruct (t !! (base ++ [c])) as [[f|]|] eqn:Hq; [done| |].
    + intros Hrun Hs _. eapply IH; [done..|]. by intros.
    + intros Hrun Hs Hbase. eapply IH; [done| |].
      * apply sound_below_insert_dir; [done..|].
        intros Hb. rewrite parent_snoc. by eapply Hbase.
      * intros c' _. by rewrite lookup_insert_eq.
Qed.

Lemma makedirs_top_sound d p t t' :
  d ≠ [] → makedirs [] p t = inr t' → sound_below d t → sound_below d t'.
Proof.
  intros Hd Hrun Hs. eapply makedirs_sound; [done..|].
  intros c [[k Hk] Hne]. destruct d as [|a d]; [done|].
  simpl in Hk. injection Hk as -> Hk. destruct d; [done|done].
Qed.

Global Instance stays_sound_po d : PreOrder (stays_sound d).
Proof.
  split.
  - by intros w Hs.
  - intros w1 w2 w3 H12 H23 Hs. by apply H23, H12.
Qed.

Lemma tree_write_sound d now p c t t' :
  tree_write now p c t = inr t' → sound_below d t → sound_below d t'.
Proof.
  unfold tree_write. intros Hrun Hs.
  destruct (t !! p) as [[f|]|] eqn:Hp; [|done|].
  - destruct (f_readonly f); [done|]. injection Hrun as <-.
    apply sound_below_insert_file; [done|]. left. by unfold is_file; rewrite Hp.
  - destruct (t !! parent p) as [[f|]|] eqn:Hpar; [done| |done]. injection Hrun as <-.
    apply sound_below_insert_file; [done|]. by right.
Qed.

Lemma tree_chmod_sound d p t t' :
  tree_chmod_writable p t = inr t' → sound_below d t → sound_below d t'.
Proof.
  unfold tree_chmod_writable. intros Hrun Hs.
  destruct (t !! p) as [[f|]|] eqn:Hp; [| |done].
  - injection Hrun as <-. apply sound_below_insert_file; [done|].
    left. by unfold is_file; rewrite Hp.
  - by injection Hrun as <-.
Qed.

Lemma tree_unlink_sound d p t t' :
  tree_unlink p t = inr t' → sound_below d t → sound_below d t'.
Proof.
  unfold tree_unlink. intros Hrun Hs.
  destruct (t !! p) as [[f|]|] eqn:Hp; [|done|done].
  destruct (_ || _); [done|]. injection Hrun as <-.
  apply sound_below_delete_file; [done|]. by unfold is_file; rewrite Hp.
Qed.

Lemma stays_sound_extract_jar_contents d self jar dest :
  d ≠ [] → respects (stays_sound d) (_extract_jar_contents self jar dest).
Proof.
  intros Hd. unfold _extract_jar_contents.
  apply respects_try_except; [apply _| |intros e; apply respects_print_fs; by intros t].
  apply respects_bind; [apply _|apply respects_ZipFile_read; apply _|]. intros members.
  apply respects_for_each; [apply _|]. intros m _.
  unfold extract_member. destruct (m_intact m); [|apply respects_raise; apply _].
  apply respects_bind; [apply _|apply respects_Path_exists; apply _|]. intros there.
  apply respects_bind; [apply _| |intros _].
  - apply respects_when; [apply _|].
    apply respects_on_tree_fs; [by intros t|]. intros _ t t'. by apply makedirs_top_sound.
  - apply respects_on_tree_fs; [by intros t|]. intros now t t'. apply tree_write_sound.
Qed.

Lemma stays_sound_remove_class_files d self directory :
  respects (stays_sound d) (_remove_class_files self directory).
Proof.
  unfold _remove_class_files.
  apply respects_bind; [apply _|apply respects_Path_rglob; apply _|]. intros found.
  apply respects_for_each; [apply _|]. intros p _.
  apply respects_try_except; [apply _| |intros e; apply respects_print_fs; by intros t].
  apply respects_bind; [apply _| |intros _].
  - apply respects_on_tree_fs; [by intros t|]. intros _ t t'. apply tree_chmod_sound.
  - apply respects_on_tree_fs; [by intros t|]. intros _ t t'. apply tree_unlink_sound.
Qed.

(** A new, empty directory is sound. *)
Lemma vacant_sound d t :
  vacant t d = true → sound_below d (<[d := Dir]> t).
Proof.
  rewrite vacant_spec. intros Hvac q Hq [n Hn].
  rewrite lookup_insert_ne in Hn by (intros ->; by destruct Hq).
  rewrite Hvac in Hn; [done|]. by destruct Hq.
Qed.

(** In a sound tree nothing exists below a regular file. *)
Lemma sound_file_is_leaf d t p f ext :
  sound_below d t → d `prefix_of` p → t !! p = Some (File f) → ext ≠ [] →
  t !! (p ++ ext) = None.
Proof.
  intros Hs Hd Hp. induction ext as [|c ext IH] using rev_ind; [done|]. intros _.
  destruct (t !! (p ++ ext ++ [c])) as [n|] eqn:Hq; [exfalso|done].
  assert (t !! (p ++ ext) = Some Dir) as Hpar.
  { rewrite app_assoc in Hq. rewrite <- (parent_snoc (p ++ ext) c).
    apply Hs; [|by eexists]. split.
    - by do 2 apply prefix_app_r.
    - intros Heq. destruct Hd as [k ->]. apply (f_equal length) in Heq.
      rewrite !length_app in Heq. simpl in Heq. lia. }
  destruct ext as [|c' ext']; [rewrite app_nil_r in Hpar; congruence|].
  rewrite IH in Hpar; done.
Qed.

(** ** What [makedirs], [open] and [copy2] leave behind *)

Lemma makedirs_lookup rest : ∀ base t t' q,
  makedirs base rest t = inr t' →
  t' !! q = t !! q
  ∨ (t !! q = None ∧ t' !! q = Some Dir ∧ q `prefix_of` base ++ rest).
Proof.
  induction rest as [|c rest IH]; intros base t t' q; simpl.
  - intros [= <-]. by left.
  - destruct (t !! (base ++ [c])) as [[f|]|] eqn:Hc; [done| |]; intros Hrun.
    + destruct (IH _ _ _ q Hrun) as [?|(? & ? & Hpre)]; [by left|right].
      by rewrite <- app_assoc in Hpre.
    + destruct (IH _ _ _ q Hrun) as [Heq|(Hnone & Hdir & Hpre)].
      * destruct (decide (q = base ++ [c])) as [->|Hne].
        -- right. rewrite Heq, lookup_insert_eq. split; [done|]. split; [done|].
           rewrite (cons_middle c base rest), app_assoc. by apply prefix_app_r.
        -- left. by rewrite Heq, lookup_insert_ne.
      * right. rewrite <- app_assoc in Hpre. split; [|done].
        destruct (decide (q = base ++ [c])) as [->|Hne]; [done|].
        by rewrite lookup_insert_ne in Hnone.
Qed.

Lemma makedirs_keeps rest base t t' q n :
  makedirs base rest t = inr t' → t !! q = Some n → t' !! q = Some n.
Proof.
  intros Hrun Hq. destruct (makedirs_lookup rest base t t' q Hrun) as [->|(? & _)];
    [done|congruence].
Qed.

Lemma makedirs_is_dir rest : ∀ base t t',
  makedirs base rest t = inr t' → rest ≠ [] → t' !! (base ++ rest) = Some Dir.
Proof.
  induction rest as [|c rest IH]; intros base t t'; [done|]. simpl.
  intros Hrun _. rewrite (cons_middle c base rest), app_assoc.
  destruct rest as [|c' rest].
  - rewrite app_nil_r. destruct (t !! (base ++ [c])) as [[f|]|] eqn:Hc; [done| |].
    + simpl in Hrun. by injection Hrun as <-.
    + simpl in Hrun. injection Hrun as <-. by rewrite lookup_insert_eq.
  - destruct (t !! (base ++ [c])) as [[f|]|] eqn:Hc; [done| |]; by eapply IH.
Qed.

Lemma tree_write_inr now p c t t' :
  tree_write now p c t = inr t' →
  ∃ f, t' = <[p := File f]> t ∧ f_content f = c.
Proof.
  unfold tree_write. destruct (t !! p) as [[f|]|].
  - destruct (f_readonly f); [done|]. intros [= <-]. by eexists.
  - done.
  - destruct (t !! parent p) as [[f|]|]; [done| |done]. intros [= <-]. by eexists.
Qed.

Lemma tree_copy2_inr src dst t t' :
  tree_copy2 src dst t = inr t' →
  ∃ f g, t !! src = Some (File f)
         ∧ t' = <[copy2_target t src dst := File g]> t
         ∧ t !! copy2_target t src dst ≠ Some Dir
         ∧ f_content g = f_content f ∧ f_mtime g = f_mtime f
         ∧ f_readonly g = f_readonly f.
Proof.
  unfold tree_copy2. destruct (t !! src) as [[f|]|]; [|done|done].
  destruct (t !! copy2_target t src dst) as [[g|]|] eqn:Hdst.
  - destruct (f_readonly g); [done|]. intros [= <-]. eexists f, _. by repeat split.
  - done.
  - destruct (t !! parent _) as [[g|]|]; [done| |done].
    intros [= <-]. eexists f, _. by repeat split.
Qed.

(** ** The copy into the resources *)

Section copy.
Context (res tmp : path) (t3 : tree).
Hypothesis Hsound : sound_below tmp t3.
Hypothesis Hres : ∀ x, ¬ tmp `prefix_of` res ++ x.

Local Abbreviation target s := (copy2_target t3 s (res ++ relative_to s tmp)).
Local Abbreviation copy_one :=
  (λ src_file : path,
     Path_mkdir (parent (res ++ relative_to src_file tmp)) ;;
     shutil_copy2 src_file (res ++ relative_to src_file tmp)).

Lemma target_outside s : ¬ tmp `prefix_of` target s.
Proof using Hsound Hres.
  unfold copy2_target. destruct (is_dir _ _); [rewrite <- app_assoc|]; apply Hres.
Qed.

Lemma target_cases s :
  below tmp s →
  target s = res ++ relative_to s tmp
  ∨ target s = res ++ relative_to s tmp ++ [name (relative_to s tmp)].
Proof using Hsound Hres.
  intros [Heq Hne]%below_relative. unfold copy2_target.
  destruct (is_dir _ _); [right|by left].
  rewrite <- app_assoc. do 2 f_equal. rewrite Heq at 1. by rewrite name_app.
Qed.

Lemma target_inj s s' f f' :
  below tmp s → below tmp s' →
  t3 !! s = Some (File f) → t3 !! s' = Some (File f') →
  target s = target s' → s = s'.
Proof using Hsound Hres.
  intros Hs Hs' Hf Hf' Heq.
  pose proof (below_relative _ _ Hs) as [Es _].
  pose proof (below_relative _ _ Hs') as [Es' _].
  destruct (target_cases s Hs) as [Ht|Ht], (target_cases s' Hs') as [Ht'|Ht'];
    rewrite Ht, Ht' in Heq; apply app_inv_head in Heq.
  - by rewrite Es, Es', Heq.
  - exfalso. rewrite Es, Heq, app_assoc, <- Es' in Hf.
    rewrite (sound_file_is_leaf tmp t3 s' f') in Hf; [done..|by destruct Hs'|done|done].
  - exfalso. rewrite Es', <- Heq, app_assoc, <- Es in Hf'.
    rewrite (sound_file_is_leaf tmp t3 s f) in Hf'; [done..|by destruct Hs|done|done].
  - apply app_inj_tail in Heq as [Heq _]. by rewrite Es, Es', Heq.
Qed.

Lemma copy_one_Ok s f w w1 :
  below tmp s → t3 !! s = Some (File f) →
  (∀ q, tmp `prefix_of` q → w_fs w !! q = t3 !! q) →
  is_dir (w_fs w) (res ++ relative_to s tmp) = is_dir t3 (res ++ relative_to s tmp) →
  copy_one s w = Ok tt w1 →
  ∃ ta g, makedirs [] (parent (res ++ relative_to s tmp)) (w_fs w) = inr ta
          ∧ w_fs w1 = <[target s := File g]> ta
          ∧ ta !! target s ≠ Some Dir
          ∧ f_content g = f_content f ∧ f_mtime g = f_mtime f
          ∧ f_readonly g = f_readonly f.
Proof using Hsound Hres.
  intros Hs Hf Hsame Hdir. cbv beta. unfold Path_mkdir, shutil_copy2.
  intros ([] & wa & (ta & Hmk & ->)%on_tree_Ok & (tb & Hcp & ->)%on_tree_Ok)%bind_Ok.
  simpl in *. apply tree_copy2_inr in Hcp as (f0 & g & Hsrc & -> & Hnd & Hc & Hm & Hr).
  assert (ta !! s = Some (File f)) as Hsrc'.
  { eapply makedirs_keeps; [done|]. rewrite Hsame; [done|by destruct Hs]. }
  assert (f0 = f) as -> by congruence.
  assert (copy2_target ta s (res ++ relative_to s tmp) = target s) as Htarget.
  { unfold copy2_target. rewrite <- Hdir.
    assert (is_dir ta (res ++ relative_to s tmp)
            = is_dir (w_fs w) (res ++ relative_to s tmp)) as ->; [|done].
    unfold is_dir.
    destruct (makedirs_lookup _ _ _ _ (res ++ relative_to s tmp) Hmk)
      as [->|(_ & _ & Hpre)]; [done|exfalso].
    simpl in Hpre. apply below_relative in Hs as [_ Hne].
    rewrite (path_snoc_inv _ Hne), app_assoc, parent_snoc in Hpre.
    by apply prefix_snoc_not in Hpre. }
  rewrite Htarget in *. by exists ta, g.
Qed.

Lemma copy_loop files : NoDup files →
  (∀ s, s ∈ files → below tmp s ∧ is_file t3 s = true) →
  ∀ w w',
    (∀ q, tmp `prefix_of` q → w_fs w !! q = t3 !! q) →
    (∀ s, s ∈ files →
          is_dir (w_fs w) (res ++ relative_to s tmp)
          = is_dir t3 (res ++ relative_to s tmp)) →
    for_each files copy_one w = Ok tt w' →
    (∀ s f, s ∈ files → t3 !! s = Some (File f) →
            ∃ g, w_fs w' !! target s = Some (File g)
                 ∧ f_content g = f_content f ∧ f_mtime g = f_mtime f
                 ∧ f_readonly g = f_readonly f)
    ∧ (∀ q n, w_fs w !! q = Some n → (∀ s, s ∈ files → q ≠ target s) →
              w_fs w' !! q = Some n).
Proof using Hsound Hres.
  induction 1 as [|s rest Hnotin Hnodup IH]; intros Hfiles w w' Hsame Hdirs Hrun.
  - injection Hrun as <-. split; [|done]. by intros s f Hin%elem_of_nil.
  - rewrite for_each_cons in Hrun. apply bind_Ok in Hrun as ([] & w1 & Hone & Hrest).
    destruct (Hfiles s) as [Hs Hsfile]; [by left|].
    unfold is_file in Hsfile. destruct (t3 !! s) as [[f|]|] eqn:Hf; try done.
    destruct (copy_one_Ok s f w w1 Hs Hf Hsame) as (ta & g & Hmk & Hw1 & Hnd & Hc & Hm & Hr);
      [apply Hdirs; by left|done|].
    assert (∀ q n, w_fs w !! q = Some n → q ≠ target s → w_fs w1 !! q = Some n) as Hkeep1.
    { intros q n Hq Hne. rewrite Hw1, lookup_insert_ne by done.
      by eapply makedirs_keeps. }
    assert (∀ s', s' ∈ rest → target s' ≠ target s) as Hdistinct.
    { intros s' Hin Heq. destruct (Hfiles s') as [Hs' Hs'file]; [by right|].
      unfold is_file in Hs'file. destruct (t3 !! s') as [[f'|]|] eqn:Hf'; try done.
      assert (s' = s) as -> by by eapply target_inj. done. }
    destruct (IH (λ s' Hin, Hfiles s' (list_elem_of_further _ _ _ Hin)) w1 w')
      as [Hcopied Hframe].
    + (* the temporary tree is as it was *)
      intros q Hq. rewrite Hw1. rewrite lookup_insert_ne.
      * rewrite <- Hsame by done.
        destruct (makedirs_lookup _ _ _ _ q Hmk) as [->|(_ & _ & Hpre)]; [done|exfalso].
        simpl in Hpre. apply below_relative in Hs as [_ Hne].
        rewrite parent_app in Hpre by done.
        destruct Hpre as [k Hk]. apply (Hres (parent (relative_to s tmp))).
        rewrite Hk. by apply prefix_app_r.
      * intros <-. by apply target_outside in Hq.
    + (* no destination has become a directory, or stopped being one *)
      intros s' Hin. rewrite <- Hdirs by by right.
      unfold is_dir. rewrite Hw1.
      destruct (decide (target s = res ++ relative_to s' tmp)) as [Heq|Hne].
      * rewrite Heq, lookup_insert_eq.
        destruct (w_fs w !! (res ++ relative_to s' tmp)) as [[h|]|] eqn:Hd; try done.
        exfalso. apply Hnd. rewrite Heq. by eapply makedirs_keeps.
      * rewrite lookup_insert_ne by done.
        destruct (makedirs_lookup _ _ _ _ (res ++ relative_to s' tmp) Hmk)
          as [->|(_ & _ & Hpre)]; [done|exfalso].
        simpl in Hpre. destruct (Hfiles s') as [Hs' Hs'file]; [by right|].
        pose proof (below_relative _ _ Hs) as [Es Hne_s].
        pose proof (below_relative _ _ Hs') as [Es' _].
        rewrite parent_app in Hpre by done. apply prefix_app_inv in Hpre as [k Hk].
        unfold is_file in Hs'file. destruct (t3 !! s') as [[f'|]|] eqn:Hf'; try done.
        assert (s = s' ++ k ++ [name (relative_to s tmp)]) as Hext.
        { rewrite Es'.
          rewrite <- app_assoc, (app_assoc _ k), <- Hk, <- (path_snoc_inv _ Hne_s).
          exact Es. }
        rewrite Hext in Hf.
        rewrite (sound_file_is_leaf tmp t3 s' f') in Hf;
          [done|done|by destruct Hs'|done|by destruct k].
    + done.
    + split.
      * intros s0 f0 [->|Hin]%elem_of_cons Hf0.
        -- assert (f0 = f) as -> by congruence. exists g. split; [|done].
           apply Hframe; [by rewrite Hw1, lookup_insert_eq|].
           intros s' Hin Heq. by eapply Hdistinct.
        -- by apply Hcopied.
      * intros q n Hq Hne. apply Hframe.
        -- apply Hkeep1; [done|]. apply Hne. by left.
        -- intros s' Hin. apply Hne. by right.
Qed.
End copy.

(** ** ProjectScaffold: claim C5 *)

Section scaffold.
Context (java : list string → tree → launch) (tmp_name : string)
        (decode_utf8_ignore : string → string).

Local Abbreviation tmp := (tmp_dir tmp_name).

(** The resources directory exists when the temporary directory is
    created, so neither lies inside the other. *)
Lemma resources_outside_tmp self jar proj w w3 :
  scaffold_pruned java tmp_name decode_utf8_ignore self jar proj w = Ok tt w3 →
  ∀ x, ¬ tmp `prefix_of` (proj ++ ["src"; "main"; "resources"]) ++ x.
Proof.
  intros (w1 & w2 & wt & wx & H1 & H2 & Hmk & _)%scaffold_pruned_Ok.
  set (res := proj ++ ["src"; "main"; "resources"]).
  assert (w_fs w1 !! res = Some Dir) as Hres1.
  { unfold scaffold_prepared, Path_mkdir in H1.
    apply bind_Ok in H1 as ([] & wa & _ & ([] & wb & (tb & Hmkres & ->)%on_tree_Ok
                                            & [= <-])%bind_Ok).
    simpl. apply (makedirs_is_dir res [] _ _ Hmkres). by destruct proj. }
  assert (w_fs w2 !! res = Some Dir) as Hres2.
  { apply (alters_keeps (λ p, proj ++ ["src"; "main"; "java"] `prefix_of` p) res w1 w2);
      [| |exact Hres1].
    - intros Hpre. by apply prefix_app_inv in Hpre as [k [=]].
    - eapply respects_Ok; [apply _| |exact H2]. by apply alters_run_cfr. }
  apply mkdtemp_Ok in Hmk as (_ & Hvac & _). rewrite vacant_spec in Hvac.
  intros x Hpre.
  destruct (prefix_weak_total tmp res (res ++ x)) as [Htr|Hrt];
    [done|by apply prefix_app_r| |].
  - apply Hvac in Htr. congruence.
  - apply prefix_length in Hrt. unfold res in Hrt. rewrite length_app in Hrt.
    simpl in Hrt. lia.
Qed.

Lemma scaffold_pruned_sound self jar proj w w3 :
  scaffold_pruned java tmp_name decode_utf8_ignore self jar proj w = Ok tt w3 →
  sound_below tmp (w_fs w3).
Proof.
  intros (w1 & w2 & wt & wx & _ & _ & Hmk & Hex & Hrm)%scaffold_pruned_Ok.
  apply mkdtemp_Ok in Hmk as (_ & Hvac & ->).
  pose proof (respects_Ok (stays_sound tmp) _ _ _ _
                (stays_sound_remove_class_files tmp self tmp) Hrm) as S2.
  pose proof (respects_Ok (stays_sound tmp) _ _ _ _
                (stays_sound_extract_jar_contents tmp self jar tmp ltac:(done)) Hex) as S1.
  apply S2, S1. simpl. by apply vacant_sound.
Qed.
End scaffold.


(** ** The properties on the sample runs *)

Lemma no_removal_warning_check w :
  forallb (λ line, negb (is_removal_warning line)) (w_stdout w) = true →
  no_removal_warning w.
Proof.
  rewrite forallb_forall. intros Hall line Hin%list_elem_of_In.
  apply Hall in Hin. by apply negb_true_iff.
Defined.



Lemma unpacker_never_raises_witness :
  ∃ w', _extract_jar_contents sample_self ["App.jar"] ["x"] broken_world = Ok tt w'
        ∧ w_fs w' = w_fs broken_world
        ∧ w_stdout w' = ["[!] Extraction warning: File is not a zip file"].
Proof.
  destruct (unpacker_never_raises sample_self ["App.jar"] ["x"] broken_world)
    as (w' & Hrun & Hraise & _).
  exists w'. split; [exact Hrun|].
  apply (Hraise (BadZipFile "File is not a zip file") broken_world).
  vm_compute. reflexivity.
Defined.


Lemma invoker_raises_unless_exit_zero_witness :
  (∃ w', _run_cfr failing_java id sample_self ["App.jar"] ["out"] (sample_world [])
         = Raise (CalledProcessError 1 (cfr_command sample_self ["App.jar"] ["out"]) "boom") w'
         ∧ List.last (w_stdout w') "" = "[!] Decompilation error: boom")
  ∧ returns (mode_2_to_folder failing_java id sample_self ["App.jar"] ["out"] (sample_world []))
    = false.
Proof.
  destruct (invoker_raises_unless_exit_zero failing_java sample_tmp id sample_self ["App.jar"])
    as (_ & Hnonzero & _ & _ & Hexport & _).
  split.
  - apply (Hnonzero ["out"] (sample_world [])
             {| returncode := 1; stderr_bytes := "boom"; emitted := [] |}).
    + reflexivity.
    + intros H. discriminate H.
  - rewrite (Hexport ["out"] (sample_world [])
               (final (export_unpacked sample_self ["App.jar"] ["out"] (sample_world [])))
               (CalledProcessError 1 (cfr_command sample_self ["App.jar"] ["out"]) "boom")
               (final (_run_cfr failing_java id sample_self ["App.jar"] ["out"]
                         (final (export_unpacked sample_self ["App.jar"] ["out"]
                                   (sample_world [])))))).
    + reflexivity.
    + vm_compute. reflexivity.
    + vm_compute. reflexivity.
Defined.

Lemma inplace_failure_leaves_archive_witness :
  (∃ w', mode_1_inplace failing_java sample_tmp id sample_self ["App.jar"] (sample_world [])
         = Raise (CalledProcessError 1
                    (cfr_command sample_self ["App.jar"] (tmp_dir sample_tmp)) "boom") w'
         ∧ w_fs w' !! ["App.jar"] = Some (plain App_jar))
  ∧ w_fs (final (inplace_pruned sample_java sample_tmp id sample_self ["App.jar"]
                   (sample_world [])))
      !! ["App.jar"] = Some (plain App_jar).
Proof.
  split.
  - destruct (inplace_failure_leaves_archive failing_java sample_tmp id sample_self
                ["App.jar"] (sample_world []) (new_file App_jar 0) eq_refl) as [Hraise _].
    apply (Hraise
             (final (inplace_unpacked sample_tmp sample_self ["App.jar"] (sample_world [])))
             (CalledProcessError 1 (cfr_command sample_self ["App.jar"] (tmp_dir sample_tmp))
                                 "boom")
             (final (_run_cfr failing_java id sample_self ["App.jar"] (tmp_dir sample_tmp)
                       (final (inplace_unpacked sample_tmp sample_self ["App.jar"]
                                 (sample_world [])))))).
    + vm_compute. reflexivity.
    + vm_compute. reflexivity.
  - destruct (inplace_failure_leaves_archive sample_java sample_tmp id sample_self
                ["App.jar"] (sample_world []) (new_file App_jar 0) eq_refl) as [_ Hstay].
    apply Hstay. vm_compute. reflexivity.
Defined.





(** ** Where the specification's wording fails *)


(** C3 as stated fails.  On a system where [java] cannot be started
    the invoker raises, and no process has exited with any status. *)
Lemma invoker_raises_without_exit_status :
  ¬ raises_iff_nonzero_exit missing_java id sample_self ["App.jar"] ["out"]
      (sample_world []).
Proof.
  intros [Hraises _].
  destruct Hraises as (cp & Hcp & _).
  - eexists _, _. vm_compute. reflexivity.
  - discriminate Hcp.
Qed.



(** ** The finer account of the changes *)

Global Instance moves_po X F D : PreOrder (moves X F D).
Proof. unfold moves. apply _. Qed.

Global Instance stays_vacant_po d : PreOrder (stays_vacant d).
Proof.
  split.
  - intros w Hv. exact Hv.
  - intros w1 w2 w3 H12 H23 Hv. by apply H23, H12.
Qed.

Lemma moves_step X F D t t' : tree_move X F D t t' → moves X F D t t'.
Proof. apply rtc_once. Qed.

Lemma moves_mono (X F D X' F' D' : path → Prop) t t' :
  (∀ p, X p → X' p) → (∀ p, F p → F' p) → (∀ p, D p → D' p) →
  moves X F D t t' → moves X' F' D' t t'.
Proof.
  intros HX HF HD. induction 1 as [|t1 t2 t3 Hstep _ IH]; [done|].
  eapply rtc_l; [|done].
  destruct Hstep; constructor; auto.
Qed.

(** The coarser account follows. *)
Lemma moves_changes (X F D W : path → Prop) t t' :
  (∀ p, X p → W p) → (∀ p, F p → W p) → moves X F D t t' → changes W t t'.
Proof.
  intros HX HF. induction 1 as [|t1 t2 t3 Hstep _ IH]; [done|].
  etrans; [|done]. apply changes_step.
  destruct Hstep; constructor; auto.
Qed.

(** A directory outside the region of removals stays. *)
Lemma moves_dirs X F D t t' p :
  moves X F D t t' → ¬ X p → t !! p = Some Dir → t' !! p = Some Dir.
Proof.
  intros Hm HX. induction Hm as [|t1 t2 t3 Hstep _ IH]; [done|].
  intros Hp. apply IH. destruct Hstep as [q t Hq Hnone|q f t Hq Hnd|q t Hq Hnd|d t Hd].
  - rewrite lookup_insert_ne; [done|]. intros ->. congruence.
  - rewrite lookup_insert_ne; [done|]. intros ->. congruence.
  - rewrite lookup_delete_ne; [done|]. intros ->. congruence.
  - rewrite lookup_rmtree. case_decide as Hpre; [|done]. by apply Hd in Hpre.
Qed.

(** Outside the regions of files and of removals a path keeps its node,
    unless it is a path of [D] where nothing was: then a directory may
    have appeared. *)
Lemma moves_outside X F D t t' p :
  moves X F D t t' → ¬ X p → ¬ F p →
  t' !! p = t !! p ∨ (D p ∧ t !! p = None ∧ t' !! p = Some Dir).
Proof.
  intros Hm HX HF. induction Hm as [|t1 t2 t3 Hstep _ IH]; [by left|].
  destruct Hstep as [q t Hq Hnone|q f t Hq Hnd|q t Hq Hnd|d t Hd].
  - destruct (decide (q = p)) as [->|Hne].
    + right. split; [done|]. split; [done|].
      destruct IH as [->|(_ & Habs & _)]; [by rewrite lookup_insert_eq|].
      by rewrite lookup_insert_eq in Habs.
    + by rewrite lookup_insert_ne in IH.
  - destruct (decide (q = p)) as [->|Hne]; [done|].
    by rewrite lookup_insert_ne in IH.
  - destruct (decide (q = p)) as [->|Hne]; [done|].
    by rewrite lookup_delete_ne in IH.
  - rewrite lookup_rmtree in IH. case_decide as Hpre; [|done]. by apply Hd in Hpre.
Qed.

Lemma moves_untouched X F D t t' p :
  moves X F D t t' → ¬ X p → ¬ F p → ¬ D p → t' !! p = t !! p.
Proof.
  intros Hm HX HF HD. by destruct (moves_outside X F D t t' p Hm HX HF) as [?|[? _]].
Qed.

Lemma moves_vacant X F D t t' d :
  moves X F D t t' →
  (∀ p, d `prefix_of` p → ¬ X p ∧ ¬ F p ∧ ¬ D p) →
  vacant t d = true → vacant t' d = true.
Proof.
  intros Hm Hout. rewrite !vacant_spec. intros Hv p Hp.
  destruct (Hout p Hp) as (HX & HF & HD).
  rewrite (moves_untouched X F D t t' p); auto.
Qed.

(** *** The operations *)

Lemma makedirs_moves X F (D : path → Prop) rest : ∀ base t t',
  (∀ q, q ≠ base → base `prefix_of` q → q `prefix_of` base ++ rest → D q) →
  makedirs base rest t = inr t' → moves X F D t t'.
Proof.
  induction rest as [|c rest IH]; intros base t t' HD; simpl.
  - by intros [= ->].
  - assert (∀ q, q ≠ base ++ [c] → base ++ [c] `prefix_of` q →
                 q `prefix_of` (base ++ [c]) ++ rest → D q) as HD'.
    { intros q Hne Hpre Hq. apply HD.
      - intros ->. apply prefix_length in Hpre. rewrite length_app in Hpre. simpl in Hpre. lia.
      - etrans; [|done]. by apply prefix_app_r.
      - by rewrite <- app_assoc in Hq. }
    assert (D (base ++ [c])) as HDc.
    { apply HD.
      - intros Heq. apply (f_equal length) in Heq. rewrite length_app in Heq. simpl in Heq. lia.
      - by apply prefix_app_r.
      - rewrite (cons_middle c base rest), app_assoc. by apply prefix_app_r. }
    destruct (t !! (base ++ [c])) as [[f|]|] eqn:Hq; [done| |].
    + by apply IH.
    + intros Hrun. etrans; [|by eapply IH].
      by apply moves_step, move_dir.
Qed.

Lemma makedirs_top_moves X F (D : path → Prop) p t t' :
  (∀ q, q ≠ [] → q `prefix_of` p → D q) →
  makedirs [] p t = inr t' → moves X F D t t'.
Proof.
  intros HD. apply makedirs_moves. intros q Hne _ Hq. by apply HD.
Qed.

Lemma tree_mkdir_moves X F (D : path → Prop) p t t' :
  D p → tree_mkdir p t = inr t' → moves X F D t t'.
Proof.
  intros HD. unfold tree_mkdir. destruct (t !! p) eqn:Hp; [done|].
  destruct (t !! parent p) as [[f|]|]; [done| |done].
  intros [= <-]. by apply moves_step, move_dir.
Qed.

Lemma tree_write_moves X (F : path → Prop) D now p c t t' :
  F p → tree_write now p c t = inr t' → moves X F D t t'.
Proof.
  intros HF. unfold tree_write. destruct (t !! p) as [[f|]|] eqn:Hp.
  - destruct (f_readonly f); [done|]. intros [= <-].
    apply moves_step, move_file; [done|congruence].
  - done.
  - destruct (t !! parent p) as [[f|]|]; [done| |done]. intros [= <-].
    apply moves_step, move_file; [done|congruence].
Qed.

Lemma tree_chmod_moves X (F : path → Prop) D p t t' :
  F p → tree_chmod_writable p t = inr t' → moves X F D t t'.
Proof.
  intros HF. unfold tree_chmod_writable. destruct (t !! p) as [[f|]|] eqn:Hp; [| |done].
  - intros [= <-]. apply moves_step, move_file; [done|congruence].
  - by intros [= <-].
Qed.

Lemma tree_unlink_moves X (F : path → Prop) D p t t' :
  F p → tree_unlink p t = inr t' → moves X F D t t'.
Proof.
  intros HF. unfold tree_unlink. destruct (t !! p) as [[f|]|] eqn:Hp; [|done|done].
  destruct (_ || _); [done|]. intros [= <-].
  apply moves_step, move_delete; [done|congruence].
Qed.

Lemma tree_copy2_moves X (F : path → Prop) D src dst t t' :
  F (copy2_target t src dst) → tree_copy2 src dst t = inr t' → moves X F D t t'.
Proof.
  intros HF (f & g & _ & -> & Hnd & _)%tree_copy2_inr.
  by apply moves_step, move_file.
Qed.

Lemma tree_zip_append_moves X (F : path → Prop) D zip filename arcname now t t' :
  F zip → tree_zip_append zip filename arcname now t = inr t' → moves X F D t t'.
Proof.
  intros HF. unfold tree_zip_append.
  destruct (t !! filename) as [[f|]|]; [|done|done].
  destruct (t !! zip) as [[z|]|] eqn:Hz; [|done|done].
  destruct (f_content z); [done|]. intros [= <-].
  apply moves_step, move_file; [done|congruence].
Qed.

Lemma tree_rmtree_moves (X : path → Prop) F D d t :
  (∀ p, d `prefix_of` p → X p) → moves X F D t (tree_rmtree d t).
Proof. intros HX. by apply moves_step, move_rmtree. Qed.

Lemma tree_put_moves X (F D : path → Prop) now p c t :
  F p → (∀ q, q ≠ [] → q `prefix_of` parent p → D q) →
  moves X F D t (tree_put now p c t).
Proof.
  intros HF HD. unfold tree_put.
  destruct (makedirs [] (parent p) t) as [e|t1] eqn:Hdirs; [done|].
  destruct (tree_write now p c t1) as [e|t2] eqn:Hwrite; [done|].
  etrans; [by eapply makedirs_top_moves|by eapply tree_write_moves].
Qed.

Lemma around_prefix d rel q : q ≠ [] → q `prefix_of` d ++ rel → around d q.
Proof.
  intros Hne Hq. split; [done|].
  by apply (prefix_weak_total q d (d ++ rel)); [|apply prefix_app_r].
Qed.

Lemma emit_moves X (F D : path → Prop) now out files t :
  (∀ p, out `prefix_of` p → F p) → (∀ q, around out q → D q) →
  moves X F D t (emit now out files t).
Proof.
  intros HF HD. unfold emit. revert t.
  induction files as [|[rel data] files IH]; intros t; simpl; [done|].
  etrans; [|apply IH]. apply tree_put_moves.
  - apply HF. by apply prefix_app_r.
  - intros q Hne Hq. apply HD. apply (around_prefix out rel); [done|].
    etrans; [done|]. apply parent_prefix.
Qed.

(** ** The finer account, call by call *)

Section reshapes.
Context (X F D : path → Prop).

Lemma reshapes_print s : respects (reshapes X F D) (print s).
Proof. apply respects_print_fs; apply _. Qed.

Lemma reshapes_Path_mkdir p :
  (∀ q, q ≠ [] → q `prefix_of` p → D q) → respects (reshapes X F D) (Path_mkdir p).
Proof.
  intros HD. apply respects_on_tree_fs; [apply _|].
  intros _ t t'. by apply makedirs_top_moves.
Qed.

Lemma reshapes_Path_mkdir_around d rel :
  (∀ q, around d q → D q) → respects (reshapes X F D) (Path_mkdir (d ++ rel)).
Proof.
  intros HD. apply reshapes_Path_mkdir. intros q Hne Hq.
  by apply HD, (around_prefix d rel).
Qed.

Lemma reshapes_open_write p c : F p → respects (reshapes X F D) (open_write p c).
Proof.
  intros HF. apply respects_on_tree_fs; [apply _|].
  intros now t t'. by apply tree_write_moves.
Qed.

Lemma reshapes_os_chmod p : F p → respects (reshapes X F D) (os_chmod_S_IWRITE p).
Proof.
  intros HF. apply respects_on_tree_fs; [apply _|].
  intros now t t'. by apply tree_chmod_moves.
Qed.

Lemma reshapes_Path_unlink p : F p → respects (reshapes X F D) (Path_unlink p).
Proof.
  intros HF. apply respects_on_tree_fs; [apply _|].
  intros now t t'. by apply tree_unlink_moves.
Qed.

Lemma reshapes_shutil_copy2 src dst :
  F dst → F (dst ++ [name src]) → respects (reshapes X F D) (shutil_copy2 src dst).
Proof.
  intros HF1 HF2. apply respects_on_tree_fs; [apply _|].
  intros now t t'. apply tree_copy2_moves.
  unfold copy2_target. by destruct (is_dir t dst).
Qed.

Lemma reshapes_zipf_write zip filename arcname :
  F zip → respects (reshapes X F D) (zipf_write zip filename arcname).
Proof.
  intros HF. apply respects_on_tree_fs; [apply _|].
  intros now t t'. by apply tree_zip_append_moves.
Qed.

Lemma reshapes_ZipFile_create p : F p → respects (reshapes X F D) (ZipFile_create p).
Proof. apply reshapes_open_write. Qed.

Lemma reshapes_extractall members dest :
  (∀ p, dest `prefix_of` p → F p) → (∀ q, around dest q → D q) →
  respects (reshapes X F D) (extractall members dest).
Proof.
  intros HF HD. apply respects_for_each; [apply _|]. intros m _.
  unfold extract_member. destruct (m_intact m); [|apply respects_raise; apply _].
  apply respects_bind; [apply _|apply respects_Path_exists; apply _|]. intros there.
  apply respects_bind; [apply _| |].
  - apply respects_when; [apply _|]. apply reshapes_Path_mkdir.
    intros q Hne Hq. apply HD, (around_prefix dest (m_name m)); [done|].
    etrans; [done|]. apply parent_prefix.
  - intros _. apply reshapes_open_write, HF. by apply prefix_app_r.
Qed.
End reshapes.

Section script.
Context (java : list string → tree → launch) (tmp_name : string)
        (decode_utf8_ignore : string → string).
Context (X F D : path → Prop).

Local Abbreviation tmp := (tmp_dir tmp_name).

Lemma reshapes_run_cfr self jar out :
  (∀ p, out `prefix_of` p → F p) → (∀ q, around out q → D q) →
  respects (reshapes X F D) (_run_cfr java decode_utf8_ignore self jar out).
Proof.
  intros HF HD w. rewrite run_cfr_run. unfold reshapes, fs_rel. simpl.
  destruct (java _ _) as [cp| |]; simpl; [|done|done].
  destruct (returncode cp =? 0)%Z; simpl; by apply emit_moves.
Qed.

Lemma reshapes_extract_jar_contents self jar dest :
  (∀ p, dest `prefix_of` p → F p) → (∀ q, around dest q → D q) →
  respects (reshapes X F D) (_extract_jar_contents self jar dest).
Proof.
  intros HF HD. unfold _extract_jar_contents.
  apply respects_try_except; [apply _| |intros e; apply reshapes_print].
  apply respects_bind; [apply _|apply respects_ZipFile_read; apply _|].
  intros members. by apply reshapes_extractall.
Qed.

Lemma reshapes_remove_class_files self directory :
  (∀ p, below directory p → is_class_name (name p) = true → F p) →
  respects (reshapes X F D) (_remove_class_files self directory).
Proof.
  intros HF. unfold _remove_class_files.
  apply respects_bind_dep; [apply _|apply respects_Path_rglob; apply _|].
  intros found w w1 (_ & _ & Hfound)%Path_rglob_Ok.
  apply respects_for_each; [apply _|]. intros p (_ & Hbelow & Hname)%Hfound.
  assert (F p) by by apply HF.
  apply respects_try_except; [apply _| |intros e; apply reshapes_print].
  apply respects_bind; [apply _|by apply reshapes_os_chmod|].
  intros _. by apply reshapes_Path_unlink.
Qed.

Lemma reshapes_mkdtemp : D tmp → respects (reshapes X F D) (mkdtemp tmp_name).
Proof.
  intros HD w. unfold mkdtemp. destruct (vacant _ _); [|reflexivity].
  revert w. apply respects_bind; [apply _| |intros; apply respects_ret; apply _].
  apply respects_on_tree_fs; [apply _|]. intros _ t t'. by apply tree_mkdir_moves.
Qed.

Lemma reshapes_cleanup d w :
  (∀ p, d `prefix_of` p → X p) → reshapes X F D w (cleanup d w).
Proof. intros HX. unfold reshapes, fs_rel, cleanup. simpl. by apply tree_rmtree_moves. Qed.

Lemma reshapes_with_TemporaryDirectory {A} (body : path → M A) :
  D tmp → (∀ p, tmp `prefix_of` p → X p) →
  respects (reshapes X F D) (body tmp) →
  respects (reshapes X F D) (with_TemporaryDirectory tmp_name body).
Proof.
  intros HD HX Hbody w. rewrite with_TemporaryDirectory_run.
  pose proof (reshapes_mkdtemp HD w) as Hmk.
  destruct (mkdtemp tmp_name w) as [d w1|e w1] eqn:Hrun; simpl in *; [|done].
  apply mkdtemp_Ok in Hrun as (-> & _ & _).
  specialize (Hbody w1).
  destruct (body tmp w1) as [a w2|e w2]; simpl in *;
    (etrans; [done|]; etrans; [done|]; by apply reshapes_cleanup).
Qed.

(** Whatever the block does, the temporary directory is gone when it
    is left. *)
Lemma stays_vacant_with_TemporaryDirectory {A} (body : path → M A) :
  respects (stays_vacant tmp) (with_TemporaryDirectory tmp_name body).
Proof.
  intros w Hv. rewrite with_TemporaryDirectory_run.
  destruct (mkdtemp tmp_name w) as [d w1|e w1] eqn:Hrun; simpl.
  - apply mkdtemp_Ok in Hrun as (-> & _ & _).
    assert (∀ t, vacant (tree_rmtree tmp t) tmp = true) as Hgone.
    { intros t. apply vacant_spec. intros p Hp. rewrite lookup_rmtree. by rewrite decide_True. }
    destruct (body tmp w1) as [a w2|e w2]; simpl; apply Hgone.
  - apply mkdtemp_Raise in Hrun as ->. done.
Qed.

Lemma stays_vacant_reshapes d {A} (m : M A) :
  (∀ p, d `prefix_of` p → ¬ X p ∧ ¬ F p ∧ ¬ D p) →
  respects (reshapes X F D) m → respects (stays_vacant d) m.
Proof.
  intros Hout Hm w. unfold stays_vacant, fs_rel.
  eapply moves_vacant; [apply Hm|done].
Qed.
End script.

(** ** The finer account, pipeline by pipeline *)

Lemma around_self d : d ≠ [] → around d d.
Proof. intros Hne. split; [done|by left]. Qed.

Lemma around_above d q : q ≠ [] → q `prefix_of` d → around d q.
Proof. intros Hne Hq. split; [done|by left]. Qed.

Lemma around_app d rel q : around (d ++ rel) q → around d q.
Proof.
  intros [Hne [Hq|Hq]]; split; try done.
  - by apply (prefix_weak_total q d (d ++ rel)); [|apply prefix_app_r].
  - right. etrans; [|done]. by apply prefix_app_r.
Qed.

(** Outside [d], what is around [d] is above it. *)
Lemma around_outside d p : around d p → ¬ d `prefix_of` p → p ≠ [] ∧ p `prefix_of` d.
Proof. by intros [Hne [?|?]] Hout. Qed.

Section pipelines.
Context (java : list string → tree → launch) (tmp_name : string)
        (decode_utf8_ignore : string → string).

Local Abbreviation tmp := (tmp_dir tmp_name).
Local Abbreviation mode_1 := (mode_1_inplace java tmp_name decode_utf8_ignore).
Local Abbreviation mode_2 := (mode_2_to_folder java decode_utf8_ignore).
Local Abbreviation mode_3 := (mode_3_gradle_project java tmp_name decode_utf8_ignore).
Local Abbreviation run_cfr := (_run_cfr java decode_utf8_ignore).

Lemma tmp_nonempty : tmp ≠ [].
Proof. done. Qed.

Lemma above_tmp p : p ≠ [] → p `prefix_of` tmp → p = ["tmp"] ∨ p = tmp.
Proof.
  intros Hne [k Hk]. unfold tmp_dir in *.
  destruct p as [|a [|b [|c p]]]; [done| | |].
  - injection Hk as <- _. by left.
  - injection Hk as <- <- _. by right.
  - by destruct k.
Qed.

Lemma parent_tmp : parent tmp = ["tmp"].
Proof. done. Qed.

Lemma reshapes_mode_2 self jar out :
  respects (reshapes (λ _, False) (λ p, out `prefix_of` p) (around out))
           (mode_2 self jar out).
Proof.
  unfold mode_2_to_folder.
  apply respects_bind; [apply _| |intros _].
  { apply reshapes_Path_mkdir. intros q Hne Hq. by apply around_above. }
  apply respects_bind; [apply _|apply reshapes_print|intros _].
  apply respects_bind; [apply _|by apply reshapes_extract_jar_contents|intros _].
  apply respects_bind; [apply _|by apply reshapes_run_cfr|intros _].
  apply respects_bind; [apply _| |intros _; apply reshapes_print].
  apply reshapes_remove_class_files. by intros p [Hpre _] _.
Qed.

Lemma reshapes_mode_1 self jar :
  respects (reshapes (λ p, tmp `prefix_of` p)
                     (λ p, tmp `prefix_of` p ∨ p = jar)
                     (around tmp))
           (mode_1 self jar).
Proof.
  unfold mode_1_inplace.
  apply respects_bind; [apply _|apply reshapes_print|intros _].
  apply respects_bind; [apply _| |intros _; apply reshapes_print].
  apply reshapes_with_TemporaryDirectory; [by apply around_self|done|].
  apply respects_bind; [apply _| |intros _].
  { apply reshapes_extract_jar_contents; [by left|done]. }
  apply respects_bind; [apply _| |intros _].
  { apply reshapes_run_cfr; [by left|done]. }
  apply respects_bind; [apply _| |intros _].
  { apply reshapes_remove_class_files. intros p [Hpre _] _. by left. }
  apply respects_bind; [apply _| |intros _].
  { apply reshapes_ZipFile_create. by right. }
  apply respects_bind; [apply _|apply respects_Path_rglob; apply _|intros entries].
  apply respects_for_each; [apply _|]. intros file_path _.
  apply respects_bind; [apply _|apply respects_Path_is_file; apply _|intros regular].
  apply respects_when; [apply _|]. apply reshapes_zipf_write. by right.
Qed.

Lemma reshapes_scaffold_decompiled (X : path → Prop) self jar proj :
  respects (reshapes X (λ p, proj `prefix_of` p) (around proj))
           (scaffold_prepared proj ;;
            run_cfr self jar (proj ++ ["src"; "main"; "java"])).
Proof.
  unfold scaffold_prepared.
  apply respects_bind; [apply _| |intros _].
  { apply respects_bind; [apply _| |intros _].
    { by apply reshapes_Path_mkdir_around. }
    apply respects_bind; [apply _| |intros _; apply reshapes_print].
    by apply reshapes_Path_mkdir_around. }
  apply reshapes_run_cfr.
  - intros p Hp. etrans; [|done]. by apply prefix_app_r.
  - intros q Hq. by eapply around_app.
Qed.

Lemma reshapes_mode_3 self jar proj :
  respects (reshapes (λ p, tmp `prefix_of` p)
                     (λ p, tmp `prefix_of` p ∨ proj `prefix_of` p)
                     (λ p, around tmp p ∨ around proj p))
           (mode_3 self jar proj).
Proof.
  unfold mode_3_gradle_project.
  assert (∀ rest p, proj ++ rest `prefix_of` p → tmp `prefix_of` p ∨ proj `prefix_of` p)
    as Hsub.
  { intros rest p Hp. right. by eapply prefix_app_l. }
  assert (∀ rest q, around (proj ++ rest) q → around tmp q ∨ around proj q) as Hdir.
  { intros rest q Hq. right. by eapply around_app. }
  apply respects_bind; [apply _| |intros _].
  { apply reshapes_Path_mkdir_around. by right. }
  apply respects_bind; [apply _| |intros _].
  { apply reshapes_Path_mkdir_around. by right. }
  apply respects_bind; [apply _|apply reshapes_print|intros _].
  apply respects_bind; [apply _| |intros _].
  { apply reshapes_run_cfr; [apply Hsub|apply Hdir]. }
  apply respects_bind; [apply _| |intros _].
  - apply reshapes_with_TemporaryDirectory; [left; by apply around_self|done|].
    apply respects_bind; [apply _| |intros _].
    { apply reshapes_extract_jar_contents; by left. }
    apply respects_bind; [apply _| |intros _].
    { apply reshapes_remove_class_files. intros p [? _] _. by left. }
    apply respects_bind_dep; [apply _|apply respects_os_walk_files; apply _|].
    intros files w w1 _. apply respects_for_each; [apply _|]. intros src _.
    apply respects_bind; [apply _| |intros _].
    + apply reshapes_Path_mkdir. intros q Hne Hq. right.
      apply (around_prefix proj (["src"; "main"; "resources"] ++ relative_to src tmp));
        [done|].
      etrans; [done|]. rewrite app_assoc. apply parent_prefix.
    + apply reshapes_shutil_copy2; right.
      * rewrite <- app_assoc. by apply prefix_app_r.
      * rewrite <- !app_assoc. by apply prefix_app_r.
  - apply respects_bind; [apply _| |intros _; apply reshapes_print].
    apply reshapes_open_write. right. by apply prefix_app_r.
Qed.

(** *** The temporary directory *)

Lemma stays_vacant_print d s : respects (stays_vacant d) (print s).
Proof. by intros w Hv. Qed.

(** The block either does not start, and the tree is as it was, or
    runs in a directory that was not there and is not there any more. *)
Lemma with_TemporaryDirectory_cases {A} (body : path → M A) w :
  let o := with_TemporaryDirectory tmp_name body w in
  (returns o = false ∧ final o = w)
  ∨ (w_fs w !! ["tmp"] = Some Dir
     ∧ vacant (w_fs w) tmp = true ∧ vacant (w_fs (final o)) tmp = true).
Proof.
  simpl. pose proof (stays_vacant_with_TemporaryDirectory tmp_name body w) as Hv.
  rewrite with_TemporaryDirectory_run in *.
  destruct (mkdtemp tmp_name w) as [d w1|e w1] eqn:Hrun.
  - right. unfold mkdtemp in Hrun. destruct (vacant (w_fs w) tmp) eqn:Hvac; [|done].
    split; [|split; [done|by apply Hv]].
    apply bind_Ok in Hrun as ([] & w2 & (t & Hmk & ->)%on_tree_Ok & _).
    unfold tree_mkdir in Hmk. destruct (w_fs w !! tmp); [done|].
    rewrite parent_tmp in Hmk. by destruct (w_fs w !! ["tmp"]) as [[f|]|].
  - left. apply mkdtemp_Raise in Hrun as ->. done.
Qed.

Lemma mode_1_run self jar w :
  ∃ o : outcome unit,
    w_fs (final (mode_1 self jar w)) = w_fs (final o)
    ∧ ∃ body w0, w_fs w0 = w_fs w
                 ∧ o = with_TemporaryDirectory tmp_name body w0.
Proof.
  unfold mode_1_inplace. rewrite bind_run, print_run.
  match goal with |- context [with_TemporaryDirectory tmp_name ?body] =>
    set (b := body) end.
  match goal with |- context [(with_TemporaryDirectory tmp_name b ≫= ?k) ?w0] =>
    exists (with_TemporaryDirectory tmp_name b w0); split; [|by exists b, w0] end.
  rewrite bind_run.
  by destruct (with_TemporaryDirectory tmp_name b _) as [[] w1|e w1].
Qed.

(** ProjectScaffold ends where its first part fails, or goes on from
    where the decompiler returns. *)
Lemma mode_3_cases self jar proj w :
  let first := (scaffold_prepared proj ;;
                run_cfr self jar (proj ++ ["src"; "main"; "java"])) in
  (∃ e w2, first w = Raise e w2 ∧ mode_3 self jar proj w = Raise e w2)
  ∨ (∃ w2 (body : path → M unit) w5,
       first w = Ok tt w2
       ∧ ((∃ e, with_TemporaryDirectory tmp_name body w2 = Raise e w5
                ∧ mode_3 self jar proj w = Raise e w5)
          ∨ (with_TemporaryDirectory tmp_name body w2 = Ok tt w5
             ∧ w_fs (final (mode_3 self jar proj w))
               = w_fs (final (open_write (proj ++ ["build.gradle"])
                                         (Bytes build_gradle_content) w5))))).
Proof.
  simpl. unfold mode_3_gradle_project, scaffold_prepared.
  rewrite !bind_run.
  destruct (Path_mkdir _ w) as [[] wa|e wa]; [|left; by eauto].
  rewrite !bind_run.
  destruct (Path_mkdir _ wa) as [[] wb|e wb]; [|left; by eauto].
  rewrite !bind_run, !print_run. rewrite !bind_run.
  match goal with |- context [run_cfr ?s ?j ?o ?w0] =>
    destruct (run_cfr s j o w0) as [[] w2|e w2]; [|left; by eauto] end.
  right.
  match goal with |- context [with_TemporaryDirectory tmp_name ?body] =>
    set (b := body) end.
  rewrite bind_run.
  destruct (with_TemporaryDirectory tmp_name b w2) as [[] w5|e w5] eqn:Htd.
  - exists w2, b, w5. split; [done|]. right. split; [done|].
    rewrite bind_run.
    by destruct (open_write _ _ w5) as [[] w6|e w6].
  - exists w2, b, w5. split; [done|]. left. by exists e.
Qed.

Lemma tmp_not_in_project proj c rest :
  ¬ tmp `prefix_of` proj → proj ≠ ["tmp"] → c ≠ "tmp" →
  ¬ tmp `prefix_of` proj ++ c :: rest.
Proof.
  intros Hout Hne Hc [k Hk]. unfold tmp_dir in *.
  destruct proj as [|a [|b proj]]; simpl in *.
  - by injection Hk.
  - injection Hk as -> _. done.
  - injection Hk as -> -> _. apply Hout. by eexists.
Qed.
End pipelines.

(** ** What the pipelines leave behind *)

Lemma is_dir_spec t p : is_dir t p = true ↔ t !! p = Some Dir.
Proof. unfold is_dir. destruct (t !! p) as [[f|]|]; naive_solver. Qed.

Lemma open_write_elsewhere q c w p :
  p ≠ q → w_fs (final (open_write q c w)) !! p = w_fs w !! p.
Proof.
  intros Hne.
  apply (moves_untouched (λ _, False) (λ p, p = q) (λ _, False)); [|tauto..].
  by apply (reshapes_open_write (λ _, False) (λ p, p = q) (λ _, False)).
Qed.

Section pipelines.
Context (java : list string → tree → launch) (tmp_name : string)
        (decode_utf8_ignore : string → string).

Local Abbreviation tmp := (tmp_dir tmp_name).
Local Abbreviation mode_1 := (mode_1_inplace java tmp_name decode_utf8_ignore).
Local Abbreviation mode_2 := (mode_2_to_folder java decode_utf8_ignore).
Local Abbreviation mode_3 := (mode_3_gradle_project java tmp_name decode_utf8_ignore).
Local Abbreviation run_cfr := (_run_cfr java decode_utf8_ignore).

Lemma not_under_both (d p : path) :
  tmp `prefix_of` p → d `prefix_of` p → 2 < length d → tmp `prefix_of` d.
Proof.
  intros Ht Hd Hlen.
  destruct (prefix_weak_total tmp d p Ht Hd) as [?|Hdt]; [done|].
  apply prefix_length in Hdt. unfold tmp_dir in Hdt. simpl in Hdt. lia.
Qed.

Lemma stays_vacant_mode_1 self jar : respects (stays_vacant tmp) (mode_1 self jar).
Proof.
  unfold mode_1_inplace.
  apply respects_bind; [apply _|apply stays_vacant_print|intros _].
  apply respects_bind; [apply _| |intros _; apply stays_vacant_print].
  apply stays_vacant_with_TemporaryDirectory.
Qed.

Lemma stays_vacant_mode_3 self jar proj :
  ¬ tmp `prefix_of` proj → proj ≠ ["tmp"] →
  respects (stays_vacant tmp) (mode_3 self jar proj).
Proof.
  intros Hout Hne.
  assert (∀ c rest, c ≠ "tmp" → ¬ tmp `prefix_of` proj ++ c :: rest) as Hin.
  { intros c rest Hc. by apply tmp_not_in_project. }
  assert (∀ dir, 2 < length dir → ¬ tmp `prefix_of` dir →
                 ∀ p, tmp `prefix_of` p →
                      ¬ False ∧ ¬ dir `prefix_of` p ∧ ¬ around dir p) as Hfree.
  { intros dir Hlen Hdir p Hp. split; [tauto|]. split.
    - intros Hd. by apply Hdir, (not_under_both dir p).
    - intros [_ [Hd|Hd]].
      + apply Hdir. by etrans.
      + by apply Hdir, (not_under_both dir p). }
  assert (∀ last, 2 < length (proj ++ ["src"; "main"; last])) as Hlen.
  { intros last. rewrite length_app. simpl. lia. }
  unfold mode_3_gradle_project.
  apply respects_bind; [apply _| |intros _].
  { eapply stays_vacant_reshapes; [apply (Hfree (proj ++ ["src"; "main"; "java"]))|];
      [apply Hlen|by apply Hin|].
    apply reshapes_Path_mkdir. intros q Hq1 Hq2. by apply around_above. }
  apply respects_bind; [apply _| |intros _].
  { eapply stays_vacant_reshapes; [apply (Hfree (proj ++ ["src"; "main"; "resources"]))|];
      [apply Hlen|by apply Hin|].
    apply reshapes_Path_mkdir. intros q Hq1 Hq2. by apply around_above. }
  apply respects_bind; [apply _|apply stays_vacant_print|intros _].
  apply respects_bind; [apply _| |intros _].
  { eapply stays_vacant_reshapes; [apply (Hfree (proj ++ ["src"; "main"; "java"]))|];
      [apply Hlen|by apply Hin|].
    by apply reshapes_run_cfr. }
  apply respects_bind; [apply _|apply stays_vacant_with_TemporaryDirectory|intros _].
  apply respects_bind; [apply _| |intros _; apply stays_vacant_print].
  apply (stays_vacant_reshapes (λ _, False) (λ p, p = proj ++ ["build.gradle"]) (λ _, False)).
  - intros p Hp. split; [tauto|]. split; [|tauto]. intros ->. by apply Hin in Hp.
  - by apply reshapes_open_write.
Qed.
(** How a run of ProjectScaffold ends: in its first part, or without the
    temporary directory having been made, and then the tree is the one
    the first part left; or after the block, when the temporary
    directory is gone again. *)
Lemma mode_3_shape self jar proj w :
  let after := w_fs (final (mode_3 self jar proj w)) in
  ∃ w2,
    moves (λ _, False) (λ p, proj `prefix_of` p) (around proj) (w_fs w) (w_fs w2)
    ∧ (after = w_fs w2
       ∨ (w_fs w2 !! ["tmp"] = Some Dir ∧ vacant (w_fs w2) tmp = true
          ∧ ∃ w5, vacant (w_fs w5) tmp = true
                  ∧ (after = w_fs w5
                     ∨ after = w_fs (final (open_write (proj ++ ["build.gradle"])
                                                      (Bytes build_gradle_content) w5))))).
Proof.
  simpl.
  pose proof (reshapes_scaffold_decompiled java decode_utf8_ignore (λ _, False)
                self jar proj w) as Hfirst.
  destruct (mode_3_cases java tmp_name decode_utf8_ignore self jar proj w)
    as [(e & w2 & Hrun & ->)|(w2 & body & w5 & Hrun & Hrest)]; simpl.
  { exists w2. rewrite Hrun in Hfirst. split; [done|by left]. }
  exists w2. rewrite Hrun in Hfirst. split; [done|].
  pose proof (with_TemporaryDirectory_cases tmp_name body w2) as Hcases. simpl in Hcases.
  destruct Hrest as [(e & Htd & ->)|[Htd ->]]; rewrite Htd in Hcases; simpl in *.
  - destruct Hcases as [[_ ->]|(Htop & Hv & Hv')]; [by left|].
    right. split; [done|]. split; [done|]. exists w5. split; [done|by left].
  - destruct Hcases as [[[=] _]|(Htop & Hv & Hv')].
    right. split; [done|]. split; [done|]. exists w5. split; [done|by right].
Qed.
End pipelines.

(** X1.  The temporary directory does not outlive the run.  When nothing is
    at its path before, nothing is there after Inplace, however the run
    ends; and the same holds for ProjectScaffold when the project is
    neither the system's temporary directory nor inside the temporary
    directory of the run. *)
Theorem temporary_directory_is_removed
    (java : list string → tree → launch) (tmp_name : string)
    (decode_utf8_ignore : string → string) (self : CFRDecompiler)
    (jar_path project_dir : path) (w : world) :
  vacant (w_fs w) (tmp_dir tmp_name) = true →
  vacant (w_fs (final (mode_1_inplace java tmp_name decode_utf8_ignore self jar_path w)))
         (tmp_dir tmp_name) = true
  ∧ (¬ tmp_dir tmp_name `prefix_of` project_dir → project_dir ≠ ["tmp"] →
     vacant (w_fs (final (mode_3_gradle_project java tmp_name decode_utf8_ignore self
                                                jar_path project_dir w)))
            (tmp_dir tmp_name) = true).
Proof.
  intros Hv. split.
  - by apply (stays_vacant_mode_1 java tmp_name decode_utf8_ignore self jar_path w).
  - intros Hout Hne.
    by apply (stays_vacant_mode_3 java tmp_name decode_utf8_ignore self jar_path
                project_dir Hout Hne w).
Qed.


(** X3.  No pipeline removes a directory or puts a regular file in its
    place: a directory that exists before a run exists after it, however
    the run ends. *)
Theorem directories_are_never_lost
    (java : list string → tree → launch) (tmp_name : string)
    (decode_utf8_ignore : string → string) (self : CFRDecompiler)
    (jar_path destination : path) (w : world) (p : path) :
  is_dir (w_fs w) p = true →
  is_dir (w_fs (final (mode_1_inplace java tmp_name decode_utf8_ignore self jar_path w))) p
  = true
  ∧ is_dir (w_fs (final (mode_2_to_folder java decode_utf8_ignore self jar_path
                                          destination w))) p = true
  ∧ is_dir (w_fs (final (mode_3_gradle_project java tmp_name decode_utf8_ignore self
                                               jar_path destination w))) p = true.
Proof.
  rewrite !is_dir_spec. intros Hdir. split; [|split].
  - pose proof (reshapes_mode_1 java tmp_name decode_utf8_ignore self jar_path w) as Hall.
    destruct (mode_1_run java tmp_name decode_utf8_ignore self jar_path w)
      as (o & Hfs & body & w0 & Hw0 & ->).
    destruct (with_TemporaryDirectory_cases tmp_name body w0) as [[_ Hsame]|(Htop & Hv & Hv')].
    { by rewrite Hfs, Hsame, Hw0. }
    eapply moves_dirs; [exact Hall| |done]. simpl.
    intros Hp. rewrite vacant_spec in Hv. apply Hv in Hp. congruence.
  - pose proof (reshapes_mode_2 java decode_utf8_ignore self jar_path destination w) as Hall.
    eapply moves_dirs; [exact Hall|tauto|done].
  - pose proof (reshapes_mode_3 java tmp_name decode_utf8_ignore self jar_path destination w)
      as Hall.
    destruct (mode_3_shape java tmp_name decode_utf8_ignore self jar_path destination w)
      as (w2 & Hfirst & Hend). simpl in Hend.
    assert (w_fs w2 !! p = Some Dir) as H2.
    { eapply moves_dirs; [exact Hfirst|tauto|done]. }
    destruct Hend as [->|(Htop & Hv & _)]; [done|].
    eapply moves_dirs; [exact Hall| |done]. simpl.
    intros Hp. rewrite vacant_spec in Hv. apply Hv in Hp. congruence.
Qed.

(** ** The destination of Export and of ProjectScaffold *)

(** Every directory on the way is there when [makedirs] returns. *)
Lemma makedirs_all_dirs rest : ∀ base t t' q,
  makedirs base rest t = inr t' →
  q ≠ base → base `prefix_of` q → q `prefix_of` base ++ rest →
  t' !! q = Some Dir.
Proof.
  induction rest as [|c rest IH]; intros base t t' q; simpl.
  - intros _ Hne Hb Hq. rewrite app_nil_r in Hq. destruct Hne. by apply (anti_symm prefix).
  - intros Hrun Hne Hb Hq.
    assert (base ++ [c] `prefix_of` q) as Hcq.
    { destruct Hb as [k ->]. destruct Hq as [k' Hk'].
      rewrite <- app_assoc in Hk'. apply app_inv_head in Hk'.
      destruct k as [|c' k]; [by rewrite app_nil_r in Hne|].
      injection Hk' as <- _. rewrite (cons_middle c base k), app_assoc. by apply prefix_app_r. }
    rewrite (cons_middle c base rest), app_assoc in Hq.
    destruct (decide (q = base ++ [c])) as [->|Hne'].
    + destruct (t !! (base ++ [c])) as [[f|]|] eqn:Hc; [done| |].
      * by eapply makedirs_keeps.
      * eapply makedirs_keeps; [done|]. by rewrite lookup_insert_eq.
    + destruct (t !! (base ++ [c])) as [[f|]|] eqn:Hc; [done| |]; by eapply IH.
Qed.

(** A regular file on the way stops [makedirs]. *)
Lemma makedirs_blocked rest : ∀ base t q,
  q ≠ base → base `prefix_of` q → q `prefix_of` base ++ rest →
  is_file t q = true → ∃ e, makedirs base rest t = inl e.
Proof.
  induction rest as [|c rest IH]; intros base t q; simpl.
  - intros Hne Hb Hq. rewrite app_nil_r in Hq. destruct Hne. by apply (anti_symm prefix).
  - intros Hne Hb Hq Hfile.
    assert (base ++ [c] `prefix_of` q) as Hcq.
    { destruct Hb as [k ->]. destruct Hq as [k' Hk'].
      rewrite <- app_assoc in Hk'. apply app_inv_head in Hk'.
      destruct k as [|c' k]; [by rewrite app_nil_r in Hne|].
      injection Hk' as <- _. rewrite (cons_middle c base k), app_assoc. by apply prefix_app_r. }
    rewrite (cons_middle c base rest), app_assoc in Hq.
    unfold is_file in Hfile.
    destruct (t !! (base ++ [c])) as [[f|]|] eqn:Hc; [by eexists| |].
    + apply (IH _ _ q); [|done|done|done]. intros ->. by rewrite Hc in Hfile.
    + apply (IH _ _ q); [|done|done|].
      * intros ->. by rewrite Hc in Hfile.
      * unfold is_file. rewrite lookup_insert_ne; [done|]. intros <-. by rewrite Hc in Hfile.
Qed.

Lemma Path_mkdir_blocked p q w :
  q ≠ [] → q `prefix_of` p → is_file (w_fs w) q = true →
  ∃ e, Path_mkdir p w = Raise e w ∧ is_Exception e = true.
Proof.
  intros Hne Hq Hfile.
  destruct (makedirs_blocked p [] (w_fs w) q) as [e He]; [done|by apply prefix_nil|done..|].
  exists e. unfold Path_mkdir, on_tree. rewrite He. split; [done|].
  by eapply (makedirs_error p []).
Qed.

Section destination.
Context (java : list string → tree → launch) (tmp_name : string)
        (decode_utf8_ignore : string → string).

Local Abbreviation tmp := (tmp_dir tmp_name).
Local Abbreviation mode_2 := (mode_2_to_folder java decode_utf8_ignore).
Local Abbreviation mode_3 := (mode_3_gradle_project java tmp_name decode_utf8_ignore).
Local Abbreviation run_cfr := (_run_cfr java decode_utf8_ignore).

Lemma Path_mkdir_Ok p w w' :
  Path_mkdir p w = Ok tt w' →
  (∀ q, q ≠ [] → q `prefix_of` p → w_fs w' !! q = Some Dir)
  ∧ (∀ q n, w_fs w !! q = Some n → w_fs w' !! q = Some n).
Proof.
  unfold Path_mkdir. intros (t & Hmk & ->)%on_tree_Ok. simpl. split.
  - intros q Hne Hq. by apply (makedirs_all_dirs p [] (w_fs w) t q Hmk); [|apply prefix_nil|].
  - intros q n. by apply (makedirs_keeps p []).
Qed.

(** Export, from the moment the output folder is there. *)
Lemma reshapes_mode_2_from_mkdir self jar out w wa :
  Path_mkdir out w = Ok tt wa →
  reshapes (λ _, False) (λ p, out `prefix_of` p) (around out)
           wa (final (mode_2 self jar out w)).
Proof.
  intros Hmk. unfold mode_2_to_folder. rewrite bind_run, Hmk. clear Hmk. revert wa.
  apply respects_bind; [apply _|apply reshapes_print|intros _].
  apply respects_bind; [apply _|by apply reshapes_extract_jar_contents|intros _].
  apply respects_bind; [apply _|by apply reshapes_run_cfr|intros _].
  apply respects_bind; [apply _| |intros _; apply reshapes_print].
  apply reshapes_remove_class_files. by intros p [Hpre _] _.
Qed.

(** ProjectScaffold, from the moment the two directories are there. *)
Lemma scaffold_prepared_Ok proj w w1 :
  scaffold_prepared proj w = Ok tt w1 →
  ∀ q, q ≠ [] →
       q `prefix_of` proj ++ ["src"; "main"; "java"]
       ∨ q `prefix_of` proj ++ ["src"; "main"; "resources"] →
       w_fs w1 !! q = Some Dir.
Proof.
  unfold scaffold_prepared.
  intros ([] & wa & [Ha _]%Path_mkdir_Ok & ([] & wb & [Hb Hkeep]%Path_mkdir_Ok
                                            & [= <-])%bind_Ok)%bind_Ok.
  intros q Hne [Hq|Hq]; simpl; [|by apply Hb]. apply Hkeep. by apply Ha.
Qed.

Lemma reshapes_mode_3_from_prepared self jar proj w w1 :
  scaffold_prepared proj w = Ok tt w1 →
  reshapes (λ p, tmp `prefix_of` p)
           (λ p, tmp `prefix_of` p ∨ proj `prefix_of` p)
           (λ p, around tmp p ∨ around proj p)
           w1 (final (mode_3 self jar proj w)).
Proof.
  unfold scaffold_prepared.
  intros ([] & wa & Ha & ([] & wb & Hb & Hp)%bind_Ok)%bind_Ok.
  unfold mode_3_gradle_project. rewrite bind_run, Ha, bind_run, Hb, bind_run, Hp.
  clear. revert w1.
  assert (∀ rest p, proj ++ rest `prefix_of` p → tmp `prefix_of` p ∨ proj `prefix_of` p)
    as Hsub.
  { intros rest p Hp. right. by eapply prefix_app_l. }
  assert (∀ rest q, around (proj ++ rest) q → around tmp q ∨ around proj q) as Hdir.
  { intros rest q Hq. right. by eapply around_app. }
  apply respects_bind; [apply _| |intros _].
  { apply reshapes_run_cfr; [apply Hsub|apply Hdir]. }
  apply respects_bind; [apply _| |intros _].
  - apply reshapes_with_TemporaryDirectory; [left; by apply around_self|done|].
    apply respects_bind; [apply _| |intros _].
    { apply reshapes_extract_jar_contents; by left. }
    apply respects_bind; [apply _| |intros _].
    { apply reshapes_remove_class_files. intros p [? _] _. by left. }
    apply respects_bind_dep; [apply _|apply respects_os_walk_files; apply _|].
    intros files w w1 _. apply respects_for_each; [apply _|]. intros src _.
    apply respects_bind; [apply _| |intros _].
    + apply reshapes_Path_mkdir. intros q Hne Hq. right.
      apply (around_prefix proj (["src"; "main"; "resources"] ++ relative_to src tmp));
        [done|].
      etrans; [done|]. rewrite app_assoc. apply parent_prefix.
    + apply reshapes_shutil_copy2; right.
      * rewrite <- app_assoc. by apply prefix_app_r.
      * rewrite <- !app_assoc. by apply prefix_app_r.
  - apply respects_bind; [apply _| |intros _; apply reshapes_print].
    apply reshapes_open_write. right. by apply prefix_app_r.
Qed.
End destination.

(** X4.  After a run that ends normally the destination is there.  Export
    leaves the output folder, and every directory above it, as
    directories; ProjectScaffold leaves [src/main/java] and
    [src/main/resources] under the project directory, and every directory
    above them, as directories. *)
Theorem destination_exists_after_a_normal_run
    (java : list string → tree → launch) (tmp_name : string)
    (decode_utf8_ignore : string → string) (self : CFRDecompiler)
    (jar_path destination : path) (w w' : world) (q : path) :
  q ≠ [] →
  (mode_2_to_folder java decode_utf8_ignore self jar_path destination w = Ok tt w' →
   q `prefix_of` destination → is_dir (w_fs w') q = true)
  ∧ (mode_3_gradle_project java tmp_name decode_utf8_ignore self jar_path destination w
     = Ok tt w' →
     q `prefix_of` destination ++ ["src"; "main"; "java"]
     ∨ q `prefix_of` destination ++ ["src"; "main"; "resources"] →
     is_dir (w_fs w') q = true).
Proof.
  intros Hne. rewrite !is_dir_spec. split.
  - intros Hrun Hq.
    pose proof Hrun as Hrun0. unfold mode_2_to_folder in Hrun0.
    apply bind_Ok in Hrun0 as ([] & wa & Hmk & _).
    pose proof (reshapes_mode_2_from_mkdir java decode_utf8_ignore self jar_path
                  destination w wa Hmk) as Hall.
    rewrite Hrun in Hall. simpl in Hall.
    eapply moves_dirs; [exact Hall|tauto|].
    apply Path_mkdir_Ok in Hmk as [Hdirs _]. by apply Hdirs.
  - intros Hrun Hq.
    pose proof Hrun as (w3 & w4 & w5 & Hpruned & _)%mode_3_Ok.
    apply scaffold_pruned_Ok in Hpruned as (w1 & w2 & wt & wx & H1 & H2 & Hmk & _).
    pose proof (reshapes_mode_3_from_prepared java tmp_name decode_utf8_ignore self jar_path
                  destination w w1 H1) as Hall.
    rewrite Hrun in Hall. simpl in Hall.
    pose proof (scaffold_prepared_Ok destination w w1 H1 q Hne Hq) as Hdir1.
    eapply moves_dirs; [exact Hall| |done]. simpl. intros Hin.
    assert (w_fs w2 !! q = Some Dir) as Hdir2.
    { pose proof (reshapes_run_cfr java decode_utf8_ignore (λ _, False) (λ _, True) (λ _, True)
                    self jar_path (destination ++ ["src"; "main"; "java"])
                    ltac:(done) ltac:(done) w1) as Hcfr.
      rewrite H2 in Hcfr. eapply moves_dirs; [exact Hcfr|tauto|done]. }
    apply mkdtemp_Ok in Hmk as (_ & Hvac & _). rewrite vacant_spec in Hvac.
    apply Hvac in Hin. congruence.
Qed.

(** X5.  A regular file in the way stops Export and ProjectScaffold before
    they do anything.  When the output folder, or a directory above it, is
    a regular file, Export raises with the world as it was: nothing is
    printed, extracted or decompiled.  Likewise ProjectScaffold when the
    project directory, or a directory on the way to its [src/main/java],
    is a regular file. *)
Theorem destination_blocked_by_a_file
    (java : list string → tree → launch) (tmp_name : string)
    (decode_utf8_ignore : string → string) (self : CFRDecompiler)
    (jar_path destination : path) (w : world) (q : path) :
  q ≠ [] → is_file (w_fs w) q = true →
  (q `prefix_of` destination →
   ∃ e, mode_2_to_folder java decode_utf8_ignore self jar_path destination w = Raise e w
        ∧ is_Exception e = true)
  ∧ (q `prefix_of` destination ++ ["src"; "main"; "java"] →
     ∃ e, mode_3_gradle_project java tmp_name decode_utf8_ignore self jar_path destination w
          = Raise e w
          ∧ is_Exception e = true).
Proof.
  intros Hne Hfile. split; intros Hq.
  - destruct (Path_mkdir_blocked destination q w) as (e & Hmk & He); [done..|].
    exists e. split; [|done]. unfold mode_2_to_folder. by rewrite bind_run, Hmk.
  - destruct (Path_mkdir_blocked (destination ++ ["src"; "main"; "java"]) q w)
      as (e & Hmk & He); [done..|].
    exists e. split; [|done]. unfold mode_3_gradle_project. by rewrite bind_run, Hmk.
Qed.


(** ** More on the cleaner *)

Lemma after_removal_twice n : after_removal (after_removal n) = after_removal n.
Proof.
  destruct n as [[f|]|]; simpl; [|done|done].
  by destruct (f_locked f) eqn:Hlock; simpl; rewrite ?Hlock.
Qed.

Lemma removal_failure_length p n :
  is_Some n →
  length (removal_failure p n) = match after_removal n with Some _ => 1 | None => 0 end.
Proof.
  intros [[f|] ->]; simpl; [|done]. by destruct (f_locked f).
Qed.

Lemma removal_failure_warnings p n :
  Forall (λ line, is_removal_warning line = true) (removal_failure p n).
Proof.
  destruct n as [[f|]|]; simpl.
  - destruct (f_locked f); [|done]. constructor; [apply is_removal_warning_yes|done].
  - constructor; [apply is_removal_warning_yes|done].
  - constructor; [apply is_removal_warning_yes|done].
Qed.

Lemma flat_map_failures_length (t : tree) (l : list path) :
  (∀ p, p ∈ l → is_Some (t !! p)) →
  length (flat_map (λ p, removal_failure p (t !! p)) l)
  = length (filter (λ p, is_Some (after_removal (t !! p))) l).
Proof.
  induction l as [|p l IH]; intros Hl; [done|]. simpl.
  rewrite length_app, IH by (intros q Hq; apply Hl; by right).
  rewrite removal_failure_length by (apply Hl; by left).
  rewrite filter_cons. destruct (after_removal (t !! p)) eqn:Hp.
  - rewrite decide_True by done. done.
  - rewrite decide_False; [done|]. by intros [? [=]].
Qed.

(** X7.  Running the cleaner a second time changes nothing: what the
    first run could remove is gone, and what it could not remove is as the
    first run left it. *)
Theorem cleaner_twice_is_cleaner_once (self : CFRDecompiler) (directory : path) (w : world) :
  let once := final (_remove_class_files self directory w) in
  let twice := final (_remove_class_files self directory once) in
  w_fs twice = w_fs once.
Proof.
  destruct (remove_class_files_run self directory w) as (w1 & Hrun1 & Hfs1 & _).
  rewrite Hrun1. simpl.
  destruct (remove_class_files_run self directory w1) as (w2 & Hrun2 & Hfs2 & _).
  rewrite Hrun2. simpl.
  apply map_eq. intros q. rewrite Hfs2. case_decide as Hq; [|done].
  rewrite Hfs1, decide_True by done. apply after_removal_twice.
Qed.


(** ** What the unpacker extracts *)

Lemma is_extraction_warning_yes e :
  is_extraction_warning ("[!] Extraction warning: " +:+ str_exn e) = true.
Proof. apply prefix_append. Qed.

Lemma extract_member_Ok dest m w w' :
  extract_member dest m w = Ok tt w' →
  (∃ f, w_fs w' !! (dest ++ m_name m) = Some (File f) ∧ f_content f = m_data m)
  ∧ (∀ q n, q ≠ dest ++ m_name m → w_fs w !! q = Some n → w_fs w' !! q = Some n)
  ∧ w_stdout w' = w_stdout w.
Proof.
  unfold extract_member. destruct (m_intact m); [|done].
  intros (there & w0 & [= <- <-] & ([] & wa & Hdirs & Hwrite)%bind_Ok)%bind_Ok.
  assert ((∀ q n, w_fs w !! q = Some n → w_fs wa !! q = Some n)
          ∧ w_stdout wa = w_stdout w) as [Hkeep Hout].
  { destruct (exists_ (w_fs w) (parent (dest ++ m_name m))); simpl in Hdirs.
    - by injection Hdirs as <-.
    - split; [by apply Path_mkdir_Ok in Hdirs as [_ ?]|].
      unfold Path_mkdir in Hdirs. by apply stdout_grows_on_tree_Ok in Hdirs. }
  unfold open_write in Hwrite.
  pose proof (stdout_grows_on_tree_Ok _ _ _ Hwrite) as Hout'.
  apply on_tree_Ok in Hwrite as (t & Hwrite & ->).
  apply tree_write_inr in Hwrite as (f & -> & Hf). simpl in *.
  split; [|split; [|congruence]].
  - exists f. by rewrite lookup_insert_eq.
  - intros q n Hne Hq. rewrite lookup_insert_ne by done. by apply Hkeep.
Qed.

Lemma extractall_keeps dest members : ∀ w w' q n,
  extractall members dest w = Ok tt w' →
  (∀ m, m ∈ members → m_name m ≠ relative_to q dest ∨ ¬ dest `prefix_of` q) →
  w_fs w !! q = Some n → w_fs w' !! q = Some n.
Proof.
  induction members as [|m members IH]; intros w w' q n.
  - by intros [= <-].
  - unfold extractall. rewrite for_each_cons.
    intros ([] & w1 & (_ & Hkeep & _)%extract_member_Ok & Hrest)%bind_Ok Hnames Hq.
    apply (IH w1 w' q n Hrest).
    + intros m' Hm'. apply Hnames. by right.
    + apply Hkeep; [|done]. intros ->.
      destruct (Hnames m) as [Hne|Hne]; [by left| |].
      * by rewrite relative_to_app in Hne.
      * apply Hne. by apply prefix_app_r.
Qed.

Lemma extractall_Ok dest members : ∀ w w',
  extractall members dest w = Ok tt w' →
  w_stdout w' = w_stdout w
  ∧ ∀ i m, last_of_its_name members i m →
           ∃ f, w_fs w' !! (dest ++ m_name m) = Some (File f) ∧ f_content f = m_data m.
Proof.
  induction members as [|m0 members IH]; intros w w'.
  - intros [= <-]. split; [done|]. by intros i m [? _].
  - unfold extractall. rewrite for_each_cons.
    intros ([] & w1 & ((f & Hf & Hdata) & Hkeep & Hout)%extract_member_Ok & Hrest)%bind_Ok.
    destruct (IH w1 w' Hrest) as [Hout' Hplaced]. split; [congruence|].
    intros [|i] m [Hi Hlast].
    + injection Hi as <-. exists f. split; [|done].
      apply (extractall_keeps dest members w1 w' _ _ Hrest); [|done].
      intros m' [j Hj]%list_elem_of_lookup. left. rewrite relative_to_app.
      by apply (Hlast (S j)); [lia|].
    + apply (Hplaced i). split; [done|].
      intros j m' Hij Hj. apply (Hlast (S j)); [lia|done].
Qed.

Lemma stdout_grows_extractall members dest :
  respects stdout_grows (extractall members dest).
Proof.
  apply respects_for_each; [apply _|]. intros m _.
  unfold extract_member. destruct (m_intact m); [|apply respects_raise; apply _].
  apply respects_bind; [apply _|apply respects_Path_exists; apply _|]. intros there.
  apply respects_bind; [apply _| |intros _; apply respects_on_tree_stdout].
  apply respects_when; [apply _|]. apply respects_on_tree_stdout.
Qed.

(** The unpacker returns what the extraction returns, or has printed a
    warning as its last line. *)
Lemma extract_jar_contents_Ok self jar dest w w' :
  _extract_jar_contents self jar dest w = Ok tt w' →
  (∃ members, ZipFile_read jar w = Ok members w
              ∧ extractall members dest w = Ok tt w')
  ∨ (∃ lines line, is_extraction_warning line = true
                   ∧ w_stdout w' = w_stdout w ++ lines ++ [line]).
Proof.
  unfold _extract_jar_contents, try_except.
  destruct ((zip_ref ← ZipFile_read jar; extractall zip_ref dest) w) as [[] w1|e w1] eqn:Hrun.
  - intros [= <-]. left.
    apply bind_Ok in Hrun as (members & w0 & Hread & Hall).
    pose proof (ZipFile_read_intact jar w) as Hsame. rewrite Hread in Hsame.
    simpl in Hsame. subst w0. by exists members.
  - assert (stdout_grows w w1) as Hgrow.
    { pose proof (respects_bind stdout_grows (ZipFile_read jar)
                    (λ zip_ref, extractall zip_ref dest)) as Hb.
      specialize (Hb (respects_ZipFile_read stdout_grows jar)
                     (λ members, stdout_grows_extractall members dest) w).
      fold (M_bind) in Hb. by rewrite Hrun in Hb. }
    destruct (is_Exception e); [|done]. intros [= <-]. right.
    destruct Hgrow as [lines Hlines].
    exists lines, ("[!] Extraction warning: " +:+ str_exn e). simpl.
    split; [apply is_extraction_warning_yes|].
    by rewrite Hlines, <- app_assoc.
Qed.

Lemma ZipFile_read_Ok jar w z members :
  w_fs w !! jar = Some (File z) → f_content z = Zip members →
  ZipFile_read jar w = Ok members w.
Proof. intros Hjar Hz. unfold ZipFile_read. by rewrite Hjar, Hz. Qed.


(** ** The resources of the archive, pipeline by pipeline *)

Lemma no_extraction_warning_earlier w w' :
  stdout_grows w w' → no_extraction_warning w' → no_extraction_warning w.
Proof.
  intros [k Hk] Hno line Hline. apply Hno. rewrite Hk. apply elem_of_app. by left.
Qed.

(** With no warning on the console, the unpacker has extracted every
    member. *)
Lemma quiet_extraction self jar dest w w' z members :
  w_fs w !! jar = Some (File z) → f_content z = Zip members →
  _extract_jar_contents self jar dest w = Ok tt w' →
  no_extraction_warning w' →
  extractall members dest w = Ok tt w'.
Proof.
  intros Hjar Hz Hrun Hquiet.
  apply extract_jar_contents_Ok in Hrun
    as [(members' & Hread & Hall)|(lines & line & Hline & Hout)].
  - rewrite (ZipFile_read_Ok jar w z members Hjar Hz) in Hread. by injection Hread as <-.
  - exfalso. rewrite (Hquiet line) in Hline; [done|].
    rewrite Hout, !elem_of_app, list_elem_of_singleton. auto.
Qed.

(** What the decompiler emits changes the files it emits, and no other. *)
Lemma emit_changes_exact (W : path → Prop) now out files : ∀ t,
  (∀ f, f ∈ files → W (out ++ f.1)) → changes W t (emit now out files t).
Proof.
  unfold emit. induction files as [|[rel data] files IH]; intros t HW; simpl; [done|].
  etrans; [|apply IH].
  - apply tree_put_changes. apply (HW (rel, data)). by left.
  - intros f Hf. apply HW. by right.
Qed.

Lemma emit_keeps now out files t q n :
  relative_to q out ∉ files.*1 ∨ ¬ out `prefix_of` q →
  t !! q = Some n → emit now out files t !! q = Some n.
Proof.
  intros Hq. apply (changes_keeps (λ p, ∃ f, f ∈ files ∧ p = out ++ f.1)).
  - apply emit_changes_exact. intros f Hf. by exists f.
  - intros (f & Hf & ->). destruct Hq as [Hq|Hq].
    + apply Hq. rewrite relative_to_app. apply list_elem_of_fmap. by exists f.
    + apply Hq. by apply prefix_app_r.
Qed.

Section invoker.
Context (java : list string → tree → launch) (decode_utf8_ignore : string → string).

Lemma run_cfr_Ok self jar out w w' :
  _run_cfr java decode_utf8_ignore self jar out w = Ok tt w' →
  ∃ cp, java (cfr_command self jar out) (w_fs w) = Exited cp
        ∧ returncode cp = 0%Z
        ∧ w_fs w' = emit (w_clock w) out (emitted cp) (w_fs w)
        ∧ w_stdout w' = w_stdout w ++ [running_line jar].
Proof.
  rewrite run_cfr_run. simpl.
  destruct (java _ _) as [cp| |]; [|done|done].
  destruct (returncode cp =? 0)%Z eqn:Hrc; [|done]. intros [= <-].
  exists cp. by apply Z.eqb_eq in Hrc.
Qed.
End invoker.

Lemma remove_class_files_Ok self d w w' :
  _remove_class_files self d w = Ok tt w' →
  stdout_grows w w'
  ∧ ∀ q, is_class_name (name q) = false → w_fs w' !! q = w_fs w !! q.
Proof.
  intros Hrun.
  destruct (remove_class_files_run self d w) as (w'' & Hrun' & Hfs & Hout & _).
  rewrite Hrun in Hrun'. injection Hrun' as <-. split.
  - unfold stdout_grows. rewrite Hout. by apply prefix_app_r.
  - intros q Hq. rewrite Hfs, decide_False; [done|]. intros [_ ?]. congruence.
Qed.

(** A member's target has the member's name, or is the destination. *)
Lemma member_target_not_class dest rel :
  is_class_name (name rel) = false → rel ≠ [] →
  is_class_name (name (dest ++ rel)) = false.
Proof. intros Hname Hne. by rewrite name_app. Qed.

Section resources.
Context (java : list string → tree → launch) (tmp_name : string)
        (decode_utf8_ignore : string → string).

Local Abbreviation tmp := (tmp_dir tmp_name).
Local Abbreviation mode_1 := (mode_1_inplace java tmp_name decode_utf8_ignore).
Local Abbreviation mode_2 := (mode_2_to_folder java decode_utf8_ignore).
Local Abbreviation run_cfr := (_run_cfr java decode_utf8_ignore).

(** From the unpacked tree to the pruned one: a regular file that is
    not a compiled class and that the decompiler does not emit stays as
    it is. *)
Lemma decompiled_and_pruned_keeps self jar dir w1 w2 w3 q f :
  run_cfr self jar dir w1 = Ok tt w2 →
  _remove_class_files self dir w2 = Ok tt w3 →
  (∀ cp, java (cfr_command self jar dir) (w_fs w1) = Exited cp →
         relative_to q dir ∉ (emitted cp).*1) →
  is_class_name (name q) = false →
  w_fs w1 !! q = Some (File f) →
  w_fs w3 !! q = Some (File f) ∧ stdout_grows w1 w3.
Proof.
  intros (cp & Hjava & _ & Hfs2 & Hout2)%run_cfr_Ok [Hout3 Hfs3]%remove_class_files_Ok
         Hemit Hname Hq.
  split.
  - rewrite Hfs3, Hfs2 by done. apply emit_keeps; [|done]. left. by apply Hemit.
  - etrans; [|exact Hout3]. unfold stdout_grows. rewrite Hout2. by apply prefix_app_r.
Qed.
End resources.


(** ** The resources of the archive under Inplace *)


(** ** The resources of the archive under ProjectScaffold *)

Lemma reshapes_Ok X F D {A} (m : M A) w a w' :
  respects (reshapes X F D) m → m w = Ok a w' → moves X F D (w_fs w) (w_fs w').
Proof. intros Hm Hrun. by apply (respects_Ok (reshapes X F D) m w a w' Hm Hrun). Qed.

Section scaffold.
Context (java : list string → tree → launch) (tmp_name : string)
        (decode_utf8_ignore : string → string).

Local Abbreviation tmp := (tmp_dir tmp_name).

(** Until the cleaner is done, ProjectScaffold leaves alone what lies
    inside the resources directory. *)
Lemma scaffold_pruned_resources self jar proj w w3 rel :
  scaffold_pruned java tmp_name decode_utf8_ignore self jar proj w = Ok tt w3 →
  rel ≠ [] →
  w_fs w3 !! ((proj ++ ["src"; "main"; "resources"]) ++ rel)
  = w_fs w !! ((proj ++ ["src"; "main"; "resources"]) ++ rel).
Proof.
  intros Hpruned Hrel.
  pose proof (resources_outside_tmp _ _ _ _ _ _ _ _ Hpruned rel) as Hres.
  apply scaffold_pruned_Ok in Hpruned as (w1 & w2 & wt & wx & H1 & H2 & Hmk & Hex & Hrm).
  set (java_dir := proj ++ ["src"; "main"; "java"]).
  set (res := proj ++ ["src"; "main"; "resources"]).
  set (p := res ++ rel) in *.
  assert (¬ p `prefix_of` java_dir) as Hp1.
  { unfold p, res, java_dir. rewrite <- app_assoc.
    intros [k Hk]%prefix_app_inv. simpl in Hk. by injection Hk. }
  assert (¬ java_dir `prefix_of` p) as Hp2.
  { unfold p, res, java_dir. rewrite <- app_assoc.
    intros [k Hk]%prefix_app_inv. simpl in Hk. by injection Hk. }
  assert (¬ p `prefix_of` res) as Hp3.
  { unfold p. intros Hpre%prefix_length. rewrite length_app in Hpre.
    destruct rel; [done|]. simpl in Hpre. lia. }
  assert (¬ p `prefix_of` tmp) as Hp4.
  { unfold p, res. intros Hpre%prefix_length. rewrite !length_app in Hpre.
    unfold tmp_dir in Hpre. simpl in Hpre. lia. }
  (* the skeleton *)
  assert (w_fs w1 !! p = w_fs w !! p) as E1.
  { set (D := λ q : path, q ≠ [] ∧ (q `prefix_of` java_dir ∨ q `prefix_of` res)).
    apply (moves_untouched (λ _, False) (λ _, False) D);
      [|first [tauto|by intros [_ [?|?]]]..].
    eapply reshapes_Ok; [|exact H1].
    unfold scaffold_prepared.
    apply respects_bind; [apply _| |intros _].
    { apply reshapes_Path_mkdir. intros q ? ?. split; auto. }
    apply respects_bind; [apply _| |intros _; apply reshapes_print].
    apply reshapes_Path_mkdir. intros q ? ?. split; auto. }
  (* the decompiler *)
  assert (w_fs w2 !! p = w_fs w1 !! p) as E2.
  { apply (moves_untouched (λ _, False) (λ q, java_dir `prefix_of` q) (around java_dir));
      [|tauto|done|by intros [_ [?|?]]].
    eapply reshapes_Ok; [|exact H2].
    by apply reshapes_run_cfr. }
  (* the temporary directory *)
  apply mkdtemp_Ok in Hmk as (_ & _ & ->).
  assert (w_fs wx !! p = w_fs w2 !! p) as E3.
  { transitivity (<[tmp := Dir]> (w_fs w2) !! p).
    - apply (moves_untouched (λ _, False) (λ q, tmp `prefix_of` q) (around tmp));
        [|tauto|done|by intros [_ [?|?]]].
      eapply (reshapes_Ok _ _ _ _ _ _ _ _ Hex). Unshelve.
      by apply reshapes_extract_jar_contents.
    - rewrite lookup_insert_ne; [done|]. intros Heq. apply Hres.
      change (tmp `prefix_of` p). by rewrite <- Heq. }
  assert (w_fs w3 !! p = w_fs wx !! p) as E4.
  { apply (moves_untouched (λ _, False) (λ q, tmp `prefix_of` q) (λ _, False));
      [|tauto|done|tauto].
    eapply reshapes_Ok; [|exact Hrm].
    apply reshapes_remove_class_files. by intros q [? _] _. }
  congruence.
Qed.
End scaffold.


(** ** Inplace on an archive that cannot be written *)

Lemma extract_jar_contents_returns self jar dest w :
  ∃ w', _extract_jar_contents self jar dest w = Ok tt w'.
Proof.
  unfold _extract_jar_contents, try_except.
  destruct ((zip_ref ← ZipFile_read jar; extractall zip_ref dest) w)
    as [[] w1|e w1] eqn:Hrun; [by eexists|].
  assert (is_Exception e = true) as ->; [|by eexists].
  revert Hrun. apply raises_only_bind; [apply ZipFile_read_error|].
  intros members. apply extractall_error.
Qed.

(** X13.  Inplace does not get past a read-only archive.  The run unpacks
    and decompiles as usual, and fails when it opens the archive for
    writing: it always ends by an exception, and the archive is the file
    it was. *)
Theorem inplace_refuses_a_read_only_archive
    (java : list string → tree → launch) (tmp_name : string)
    (decode_utf8_ignore : string → string)
    (self : CFRDecompiler) (jar_path : path) (w : world) (archive : file) :
  w_fs w !! jar_path = Some (File archive) →
  f_readonly archive = true →
  ∃ e w', mode_1_inplace java tmp_name decode_utf8_ignore self jar_path w = Raise e w'
          ∧ w_fs w' !! jar_path = Some (File archive)
          ∧ (returns (inplace_pruned java tmp_name decode_utf8_ignore self jar_path w) = true →
             e = os_error EACCES jar_path).
Proof.
  intros Hjar Hro.
  set (W := λ p : path, tmp_dir tmp_name `prefix_of` p).
  unfold inplace_pruned, inplace_unpacked, mode_1_inplace.
  rewrite !bind_run, print_run. rewrite !bind_run, with_TemporaryDirectory_run.
  destruct (mkdtemp tmp_name _) as [d wt|e wt] eqn:Hmk.
  2:{ apply mkdtemp_Raise in Hmk as ->. by exists e; eexists. }
  apply mkdtemp_Ok in Hmk as (-> & Hvac & ->). cbn [w_fs] in Hvac.
  assert (¬ W jar_path) as Hout.
  { intros Hpre. rewrite vacant_spec in Hvac. apply Hvac in Hpre. congruence. }
  match goal with |- context [_extract_jar_contents self jar_path _ ?wt] =>
    destruct (extract_jar_contents_returns self jar_path (tmp_dir tmp_name) wt) as [w1 Hex];
    assert (w_fs wt !! jar_path = Some (File archive)) as Hjart end.
  { simpl. rewrite lookup_insert_ne; [done|]. intros <-. apply Hout. by unfold W. }
  rewrite !bind_run, Hex.
  assert (w_fs w1 !! jar_path = Some (File archive)) as Hjar1.
  { eapply (alters_keeps W); [done| |exact Hjart].
    eapply respects_Ok; [apply _| |exact Hex]. by apply alters_extract_jar_contents. }
  rewrite !bind_run.
  destruct (_run_cfr java decode_utf8_ignore self jar_path (tmp_dir tmp_name) w1)
    as [[] w2|e w2] eqn:Hcfr.
  2:{ exists e, (cleanup (tmp_dir tmp_name) w2). split; [done|]. split; [|done].
      cbn [w_fs cleanup set_fs]. rewrite lookup_rmtree, decide_False by done.
      eapply (alters_keeps W); [done| |exact Hjar1].
      eapply respects_Raise; [apply _| |exact Hcfr]. by apply alters_run_cfr. }
  assert (w_fs w2 !! jar_path = Some (File archive)) as Hjar2.
  { eapply (alters_keeps W); [done| |exact Hjar1].
    eapply respects_Ok; [apply _| |exact Hcfr]. by apply alters_run_cfr. }
  destruct (remove_class_files_run self (tmp_dir tmp_name) w2) as (w3 & Hrm & Hfs3 & _).
  rewrite !bind_run, Hrm.
  assert (w_fs w3 !! jar_path = Some (File archive)) as Hjar3.
  { rewrite Hfs3, decide_False; [done|]. intros [[Hpre _] _]. by apply Hout. }
  assert (ZipFile_create jar_path w3 = Raise (os_error EACCES jar_path) w3) as Hcreate.
  { unfold ZipFile_create, open_write, on_tree, tree_write. by rewrite Hjar3, Hro. }
  rewrite !bind_run, Hcreate.
  exists (os_error EACCES jar_path), (cleanup (tmp_dir tmp_name) w3).
  split; [done|]. split; [|done].
  cbn [w_fs cleanup set_fs]. by rewrite lookup_rmtree, decide_False.
Qed.

(** ** The session, prompt by prompt *)

Lemma input_fs prompt w : w_fs (final (input prompt w)) = w_fs w.
Proof. unfold input. by destruct (w_stdin w) as [|[text|] rest]. Qed.

Lemma input_stops prompt w :
  (∀ text rest, w_stdin w ≠ Line text :: rest) →
  returns (input prompt w) = false.
Proof.
  intros Hno. unfold input. destruct (w_stdin w) as [|[text|] rest]; [done| |done].
  by destruct (Hno text rest).
Qed.

Section session.
Context (java : list string → tree → launch) (tmp_name : string)
        (decode_utf8_ignore : string → string).

Local Abbreviation interactive := (interactive_mode java tmp_name decode_utf8_ignore).
Local Abbreviation run_main := (main java tmp_name decode_utf8_ignore).
Local Abbreviation mode_1 := (mode_1_inplace java tmp_name decode_utf8_ignore).
Local Abbreviation mode_2 := (mode_2_to_folder java decode_utf8_ignore).
Local Abbreviation mode_3 := (mode_3_gradle_project java tmp_name decode_utf8_ignore).
Local Abbreviation decompiler := ({| cfr_jar_path := Path cfr_path |}).

(** What the session does with the answer to the mode prompt. *)
Local Abbreviation chosen jar_path answer :=
  (if String.eqb (strip answer) "1" then
     mode_1 decompiler (Path jar_path)
   else if String.eqb (strip answer) "2" then
     answer ← input "Output folder name: ";
     mode_2 decompiler (Path jar_path)
            (Path (if String.eqb (strip answer) ""
                   then stem (Path jar_path) +:+ "_extracted" else strip answer))
   else if String.eqb (strip answer) "3" then
     answer ← input "Project folder name: ";
     mode_3 decompiler (Path jar_path)
            (Path (if String.eqb (strip answer) ""
                   then stem (Path jar_path) +:+ "_project" else strip answer))
   else
     print "[-] Unknown mode. Exiting.").

(** Once the two checks have passed the session shows the modes and
    asks for one. *)
Lemma interactive_checked w target rest :
  w_stdin w = Line target :: rest →
  is_file (w_fs w) (Path cfr_path) = true →
  is_file (w_fs w) (Path (strip target)) = true →
  interactive w =
  (answer ← input mode_prompt; chosen (strip target) answer) (shown greeting rest w).
Proof.
  intros Hin Hcfr Hjar. unfold interactive_mode.
  rewrite bind_run. simpl. rewrite bind_run.
  erewrite input_Line by done. rewrite bind_run.
  unfold os_path_isfile at 1, Path_is_file at 1. simpl. rewrite Hcfr. simpl.
  rewrite bind_run. simpl. rewrite bind_run.
  unfold os_path_isfile at 1, Path_is_file at 1. simpl. rewrite Hjar. simpl.
  rewrite bind_run. simpl. rewrite bind_run.
  unfold try_except, CFRDecompiler_init. rewrite bind_run. simpl.
  assert (exists_ (w_fs w) (Path cfr_path) = true) as ->.
  { unfold is_file, exists_ in *. by destruct (w_fs w !! Path cfr_path) as [[f|]|]. }
  simpl. do 4 (rewrite bind_run; simpl).
  unfold shown, greeting, mode_prompt. simpl. by rewrite <- !app_assoc.
Qed.

Lemma main_fs w : w_fs (final (run_main w)) = w_fs (final (interactive w)).
Proof.
  unfold main, try_except2. destruct (interactive w) as [[] w1|e w1]; [done|].
  by destruct e.
Qed.

Lemma interactive_stops_early w :
  (∀ text rest, w_stdin w ≠ Line text :: rest) →
  w_fs (final (interactive w)) = w_fs w.
Proof.
  intros Hno. unfold interactive_mode. rewrite bind_run, print_run, bind_run.
  match goal with |- context [input ?p ?w0] =>
    pose proof (input_stops p w0 Hno) as Hstop;
    pose proof (input_fs p w0) as Hfs;
    destruct (input p w0) as [a w1|e w1]; [done|exact Hfs] end.
Qed.
End session.

(** ** Names of folders *)

Lemma rsplit_dot_jar base : rsplit_dot (base +:+ ".jar") = Some (base, "jar").
Proof.
  induction base as [|c base IH]; [done|].
  rewrite append_String. simpl. by rewrite IH.
Qed.

Lemma stem_jar_name dir base :
  base ≠ "" → stem (dir ++ [base +:+ ".jar"]) = base.
Proof.
  intros Hne. unfold stem. rewrite name_snoc, rsplit_dot_jar.
  by destruct base.
Qed.

Lemma split_on_slashless s : slashless s = true → split_on "/" s = [s].
Proof.
  induction s as [|c s IH]; [done|]. simpl.
  intros [Hc Hs]%andb_true_iff. apply negb_true_iff in Hc. rewrite Hc.
  by rewrite IH.
Qed.

Lemma split_on_pieces s : ∀ c, c ∈ split_on "/" s → slashless c = true.
Proof.
  induction s as [|a s IH]; intros c; simpl.
  - by intros ->%list_elem_of_singleton.
  - destruct (Ascii.eqb a "/") eqn:Ha.
    + intros [->|Hc]%elem_of_cons; [done|by apply IH].
    + destruct (split_on "/" s) as [|piece pieces].
      * intros ->%list_elem_of_singleton. simpl. by rewrite Ha.
      * intros [->|Hc]%elem_of_cons.
        -- simpl. rewrite Ha. simpl. apply IH. by left.
        -- apply IH. by right.
Qed.

Lemma Path_components s c :
  c ∈ Path s → slashless c = true.
Proof.
  unfold Path. intros Hc%list_elem_of_In. apply filter_In in Hc as [Hc _].
  by apply (split_on_pieces s), list_elem_of_In.
Qed.

Lemma slashless_app a b : slashless (a +:+ b) = slashless a && slashless b.
Proof.
  induction a as [|c a IH]; [done|].
  rewrite append_String. simpl. by rewrite IH, andb_assoc.
Qed.

Lemma Path_single s :
  slashless s = true → s ≠ "" → s ≠ "." → Path s = [s].
Proof.
  intros Hs H1 H2. unfold Path. rewrite split_on_slashless by done. simpl.
  apply String.eqb_neq in H1, H2. by rewrite H1, H2.
Qed.

(** The folder named after an archive [base.jar]. *)
Lemma Path_named_after target dir base suffix :
  Path target = dir ++ [base +:+ ".jar"] → base ≠ "" →
  slashless suffix = true → suffix ≠ "" →
  Path (stem (Path target) +:+ suffix) = [base +:+ suffix].
Proof.
  intros Htarget Hne Hsuffix Hsome. rewrite Htarget, stem_jar_name by done.
  assert (slashless base = true) as Hbase.
  { assert (slashless (base +:+ ".jar") = true) as Hs.
    { apply (Path_components target). rewrite Htarget. apply elem_of_app. right. by left. }
    rewrite slashless_app in Hs. by apply andb_true_iff in Hs as [? _]. }
  apply Path_single.
  - by rewrite slashless_app, Hbase.
  - by destruct base.
  - destruct base as [|c base]; [done|]. rewrite append_String.
    intros [= _ Habs]. destruct base; [|done].
    by rewrite append_empty_l in Habs.
Qed.



(** A prompt that gets no line ends the session where it is. *)
Ltac stop_at_prompt :=
  match goal with
  | |- context [input ?p ?w0] =>
      let Hs := fresh in
      let Hfs := fresh in
      assert (returns (input p w0) = false) as Hs by (by apply input_stops);
      pose proof (input_fs p w0) as Hfs;
      destruct (input p w0); [done|exact Hfs]
  end.



(** ** The further properties on the sample runs *)

Lemma no_extraction_warning_check w :
  forallb (λ line, negb (is_extraction_warning line)) (w_stdout w) = true →
  no_extraction_warning w.
Proof.
  rewrite forallb_forall. intros Hall line Hin%list_elem_of_In.
  apply Hall in Hin. by apply negb_true_iff.
Defined.

(** The resource of the sample archive is its second and last member. *)
Lemma resource_is_last :
  last_of_its_name [Member ["com"; "x"; "A.class"] (Bytes "cafebabe") true;
                    Member ["res"; "a.txt"] (Bytes "hello") true]
                   1 (Member ["res"; "a.txt"] (Bytes "hello") true).
Proof.
  split; [reflexivity|]. intros [|[|j]] m' Hij Hj; [lia|lia|discriminate Hj].
Defined.

Lemma temporary_directory_is_removed_witness :
  vacant (w_fs (final (mode_1_inplace failing_java sample_tmp id sample_self ["App.jar"]
                                      (sample_world []))))
         (tmp_dir sample_tmp) = true
  ∧ vacant (w_fs (final (mode_3_gradle_project sample_java sample_tmp id sample_self
                                               ["App.jar"] ["proj"] (sample_world []))))
           (tmp_dir sample_tmp) = true.
Proof.
  split.
  - destruct (temporary_directory_is_removed failing_java sample_tmp id sample_self
                ["App.jar"] ["proj"] (sample_world [])) as [H1 _].
    + vm_compute. reflexivity.
    + exact H1.
  - destruct (temporary_directory_is_removed sample_java sample_tmp id sample_self
                ["App.jar"] ["proj"] (sample_world [])) as [_ H3].
    + vm_compute. reflexivity.
    + apply H3.
      * intros [k Hk]. discriminate Hk.
      * intros H. discriminate H.
Defined.

Lemma directories_are_never_lost_witness :
  is_dir (w_fs (final (mode_1_inplace sample_java sample_tmp id sample_self ["App.jar"]
                                      busy_world))) ["out"; "old"] = true
  ∧ is_dir (w_fs (final (mode_2_to_folder sample_java id sample_self ["App.jar"] ["out"]
                                          busy_world))) ["out"; "old"] = true
  ∧ is_dir (w_fs (final (mode_3_gradle_project sample_java sample_tmp id sample_self
                                               ["App.jar"] ["out"] busy_world)))
           ["out"; "old"] = true.
Proof.
  apply (directories_are_never_lost sample_java sample_tmp id sample_self ["App.jar"] ["out"]
           busy_world ["out"; "old"]).
  vm_compute. reflexivity.
Defined.

Lemma destination_exists_after_a_normal_run_witness :
  let w := sample_world [] in
  is_dir (w_fs (final (mode_2_to_folder sample_java id sample_self ["App.jar"]
                                        ["out"; "v1"] w))) ["out"] = true
  ∧ is_dir (w_fs (final (mode_3_gradle_project sample_java sample_tmp id sample_self
                                               ["App.jar"] ["proj"] w)))
           ["proj"; "src"; "main"; "resources"] = true.
Proof.
  intros w. split.
  - destruct (destination_exists_after_a_normal_run sample_java sample_tmp id sample_self
                ["App.jar"] ["out"; "v1"] w
                (final (mode_2_to_folder sample_java id sample_self ["App.jar"]
                                         ["out"; "v1"] w))
                ["out"]) as [H2 _].
    + intros H. discriminate H.
    + apply H2.
      * vm_compute. reflexivity.
      * exists ["v1"]. reflexivity.
  - destruct (destination_exists_after_a_normal_run sample_java sample_tmp id sample_self
                ["App.jar"] ["proj"] w
                (final (mode_3_gradle_project sample_java sample_tmp id sample_self
                                              ["App.jar"] ["proj"] w))
                ["proj"; "src"; "main"; "resources"]) as [_ H3].
    + intros H. discriminate H.
    + apply H3.
      * vm_compute. reflexivity.
      * right. exists []. reflexivity.
Defined.

Lemma destination_blocked_by_a_file_witness :
  let w := sample_world [] in
  (∃ e, mode_2_to_folder sample_java id sample_self ["App.jar"] ["App.jar"; "out"] w
        = Raise e w
        ∧ is_Exception e = true)
  ∧ (∃ e, mode_3_gradle_project sample_java sample_tmp id sample_self ["App.jar"]
                                ["App.jar"] w
          = Raise e w
          ∧ is_Exception e = true).
Proof.
  intros w.
  destruct (destination_blocked_by_a_file sample_java sample_tmp id sample_self ["App.jar"]
              ["App.jar"; "out"] w ["App.jar"]) as [H2 _].
  { intros H. discriminate H. }
  { vm_compute. reflexivity. }
  destruct (destination_blocked_by_a_file sample_java sample_tmp id sample_self ["App.jar"]
              ["App.jar"] w ["App.jar"]) as [_ H3].
  { intros H. discriminate H. }
  { vm_compute. reflexivity. }
  split.
  - apply H2. exists ["out"]. reflexivity.
  - apply H3. exists ["src"; "main"; "java"]. reflexivity.
Defined.






Lemma inplace_refuses_a_read_only_archive_witness :
  ∃ e w', mode_1_inplace sample_java sample_tmp id sample_self ["App.jar"] locked_world
          = Raise e w'
          ∧ w_fs w' !! ["App.jar"] = w_fs locked_world !! ["App.jar"]
          ∧ e = os_error EACCES ["App.jar"].
Proof.
  destruct (inplace_refuses_a_read_only_archive sample_java sample_tmp id sample_self
              ["App.jar"] locked_world
              {| f_content := App_jar; f_readonly := true; f_locked := false; f_mtime := 0 |}
              eq_refl eq_refl) as (e & w' & Hrun & Hjar & He).
  exists e, w'. split; [exact Hrun|]. split; [exact Hjar|].
  apply He. vm_compute. reflexivity.
Defined.



(** ** Runs that do not go well *)

Lemma for_each_app {A} (l1 l2 : list A) (body : A → M unit) w :
  for_each (l1 ++ l2) body w =
  match for_each l1 body w with
  | Ok _ w1 => for_each l2 body w1
  | Raise e w1 => Raise e w1
  end.
Proof.
  revert w. induction l1 as [|x l1 IH]; intros w; [done|].
  rewrite <- app_comm_cons, !for_each_cons, !bind_run.
  destruct (body x w) as [[] w0|e w0]; [apply IH|done].
Qed.


Section failure.
Context (java : list string → tree → launch) (decode_utf8_ignore : string → string).

Lemma run_cfr_Raise self jar out w e w' :
  _run_cfr java decode_utf8_ignore self jar out w = Raise e w' →
  w_fs w' = w_fs w
  ∨ ∃ cp, java (cfr_command self jar out) (w_fs w) = Exited cp
          ∧ w_fs w' = emit (w_clock w) out (emitted cp) (w_fs w).
Proof.
  rewrite run_cfr_run. simpl.
  destruct (java _ _) as [cp| |]; [|intros [= _ <-]; by left..].
  destruct (returncode cp =? 0)%Z; [done|]. intros [= _ <-]. right. by exists cp.
Qed.
End failure.


(** ** Compiled classes that were in the output folder before *)

Global Instance stays_removable_po p : PreOrder (stays_removable p).
Proof.
  split.
  - by intros w H.
  - intros w1 w2 w3 H12 H23 H. by apply H23, H12.
Qed.

Lemma makedirs_removable p rest base t t' f :
  makedirs base rest t = inr t' →
  t !! p = Some (File f) → t' !! p = Some (File f).
Proof. apply makedirs_keeps. Qed.

Lemma tree_write_removable p now q c t t' :
  tree_write now q c t = inr t' →
  (∃ f, t !! p = Some (File f) ∧ f_locked f = false) →
  ∃ f', t' !! p = Some (File f') ∧ f_locked f' = false.
Proof.
  intros Hwrite (f & Hp & Hlock). destruct (decide (q = p)) as [->|Hne].
  - unfold tree_write in Hwrite. rewrite Hp in Hwrite.
    destruct (f_readonly f); [done|]. injection Hwrite as <-.
    eexists. by rewrite lookup_insert_eq.
  - apply tree_write_inr in Hwrite as (g & -> & _).
    exists f. by rewrite lookup_insert_ne.
Qed.

Lemma tree_put_removable p now q c t :
  (∃ f, t !! p = Some (File f) ∧ f_locked f = false) →
  ∃ f', tree_put now q c t !! p = Some (File f') ∧ f_locked f' = false.
Proof.
  intros (f & Hp & Hlock). unfold tree_put.
  destruct (makedirs [] (parent q) t) as [e|t1] eqn:Hdirs; [by eauto|].
  destruct (tree_write now q c t1) as [e|t2] eqn:Hwrite; [by eauto|].
  eapply tree_write_removable; [done|]. exists f. split; [|done].
  by eapply makedirs_keeps.
Qed.

Lemma emit_removable p now out files : ∀ t,
  (∃ f, t !! p = Some (File f) ∧ f_locked f = false) →
  ∃ f', emit now out files t !! p = Some (File f') ∧ f_locked f' = false.
Proof.
  unfold emit. induction files as [|[rel data] files IH]; intros t Hp; simpl; [done|].
  apply IH. by apply tree_put_removable.
Qed.

Lemma stays_removable_on_tree p op :
  (∀ now t t', op now t = inr t' →
               (∃ f, t !! p = Some (File f) ∧ f_locked f = false) →
               ∃ f', t' !! p = Some (File f') ∧ f_locked f' = false) →
  respects (stays_removable p) (on_tree op).
Proof.
  intros Hop w Hp. unfold on_tree.
  destruct (op _ _) as [e|t] eqn:Hrun; simpl; [done|]. by eapply Hop.
Qed.

Lemma stays_removable_Path_mkdir p q : respects (stays_removable p) (Path_mkdir q).
Proof.
  apply stays_removable_on_tree. intros _ t t' Hmk (f & Hp & Hlock).
  exists f. split; [|done]. by eapply makedirs_keeps.
Qed.

Lemma stays_removable_print p s : respects (stays_removable p) (print s).
Proof. by intros w Hp. Qed.

Lemma stays_removable_extract_jar_contents p self jar dest :
  respects (stays_removable p) (_extract_jar_contents self jar dest).
Proof.
  unfold _extract_jar_contents.
  apply respects_try_except; [apply _| |intros e; apply stays_removable_print].
  apply respects_bind; [apply _| |intros members].
  { intros w. by rewrite ZipFile_read_intact. }
  apply respects_for_each; [apply _|]. intros m _.
  unfold extract_member. destruct (m_intact m); [|apply respects_raise; apply _].
  apply respects_bind; [apply _| |intros there].
  { by intros w. }
  apply respects_bind; [apply _| |intros _].
  - apply respects_when; [apply _|]. apply stays_removable_Path_mkdir.
  - apply stays_removable_on_tree. intros now t t'. apply tree_write_removable.
Qed.


(** The compiled class of the sample archive is the only member of its
    name. *)
Lemma class_is_last :
  last_of_its_name [Member ["com"; "x"; "A.class"] (Bytes "cafebabe") true;
                    Member ["res"; "a.txt"] (Bytes "hello") true]
                   0 (Member ["com"; "x"; "A.class"] (Bytes "cafebabe") true).
Proof.
  split; [reflexivity|]. intros [|[|[|j]]] m' Hij Hj; [lia| |discriminate Hj..].
  injection Hj as <-. intros H. discriminate H.
Defined.

Lemma first_resource_is_last :
  last_of_its_name [Member ["res"; "a.txt"] (Bytes "hello") true]
                   0 (Member ["res"; "a.txt"] (Bytes "hello") true).
Proof.
  split; [reflexivity|]. intros [|[|j]] m' Hij Hj; [lia|discriminate Hj..].
Defined.



